(** * Numina server: streaming completion pipeline and intelligence compressor

    A shallow embedding of the parts of the server that the specification's
    testable properties talk about:

    - [routes/completion.js]: marker extraction ([extractJsonPattern]), the
      response cleaner ([cleanResponse]), the commit step
      ([processResponseAndSave]) and the three handlers of the streaming
      endpoint (['data'], ['end'], ['error']);
    - the llama.cpp ("optimized") variant of the same route: [extractMetadata],
      its ['data'] / ['end'] / ['error'] / timeout / close handlers and
      [processStreamResponse];
    - the first, non-streaming completion route that comes before it in the
      same file: its cleaning of the reply and what it stores and answers;
    - [routes/emotions.js]: the validation of [POST /emotions];
    - [models/User.js]: [hasActiveNuminaTrace];
    - [services/intelligenceCompressorV2.js]: the whole of [compressForLLM].

    Conventions of the embedding.

    - A JavaScript string is a [list ascii]: a sequence of code units in the
      range U+0000..U+00FF.  Every string operation below ([trim], [\s],
      [toLowerCase], JSON quoting) is the JavaScript one restricted to that
      range.  [JSON_parse] throws on a [\u] escape above U+00FF, which
      [JSON.parse] accepts; [extractMetadata] is therefore also given over
      any function in the place of [JSON.parse].
    - The chunk of a ['data'] event is its text, [chunk.toString()]; the
      bytes and their decoding are not represented.  For ASCII bytes the two
      are the same.
    - A finite JavaScript number is an exact decimal [m * 10^e]; arithmetic is
      done in [Q].  [NaN] and the infinities are represented where the code
      can produce them; binary rounding and the sign of zero are not.
    - A JavaScript value is JSON-like data ([value]); an object is the list of
      its own enumerable properties in the order [Object.entries] lists them.
    - An exception is a [Throw] result; [try]/[catch] is a match on it.
    - The HTTP response is a record of what was written to the client. *)

From Stdlib Require Import List Ascii String Bool Arith ZArith QArith Qround Lia.
Import ListNotations.

Set Implicit Arguments.
Set Warnings "-register-all".
Local Close Scope Q_scope.
Local Open Scope nat_scope.
Local Open Scope list_scope.

(* ================================================================== *)
(** * JavaScript strings *)
(* ================================================================== *)

Module JsString.

Definition jstring := list ascii.

(** A string literal of the source. *)
Definition js (s : string) : jstring := list_ascii_of_string s.

Definition LF : ascii := "010"%char.
Definition CR : ascii := "013"%char.
Definition DQ : ascii := "034"%char.
Definition BSL : ascii := "092"%char.

(** A literal that contains double quotes, written with single quotes in
    their place. *)
Definition jq (s : string) : jstring :=
  map (fun c => if Ascii.eqb c "'"%char then DQ else c) (js s).

Definition jstring_eqb (a b : jstring) : bool :=
  if list_eq_dec ascii_dec a b then true else false.

(** [s.startsWith(p)] *)
Fixpoint startsWith (s p : jstring) {struct p} : bool :=
  match p, s with
  | [], _ => true
  | c :: p', d :: s' => Ascii.eqb c d && startsWith s' p'
  | _ :: _, [] => false
  end.

(** [s.includes(p)] *)
Fixpoint includes (s p : jstring) : bool :=
  startsWith s p ||
  match s with
  | [] => false
  | _ :: s' => includes s' p
  end.

(** The declarative counterpart of [includes]. *)
Definition substring_of (p s : jstring) : Prop :=
  exists pre post, s = pre ++ p ++ post.

(** WhiteSpace and LineTerminator code units below U+0100: what
    [String.prototype.trim] strips and what [\s] matches. *)
Definition isSpace (c : ascii) : bool :=
  let n := nat_of_ascii c in
  (Nat.leb 9 n && Nat.leb n 13) || Nat.eqb n 32 || Nat.eqb n 160.

Fixpoint trimStart (s : jstring) : jstring :=
  match s with
  | [] => []
  | c :: s' => if isSpace c then trimStart s' else s
  end.

Definition trimEnd (s : jstring) : jstring := rev (trimStart (rev s)).

(** [s.trim()] *)
Definition trim (s : jstring) : jstring := trimEnd (trimStart s).

(** [s.split(sep)] for a one-character separator: never the empty list. *)
Fixpoint split (sep : ascii) (s : jstring) : list jstring :=
  match s with
  | [] => [[]]
  | c :: s' =>
      if Ascii.eqb c sep then [] :: split sep s'
      else match split sep s' with
           | [] => [[c]]
           | l :: ls => (c :: l) :: ls
           end
  end.

(** [parts.join(sep)] *)
Fixpoint join (sep : jstring) (parts : list jstring) : jstring :=
  match parts with
  | [] => []
  | [p] => p
  | p :: ps => p ++ sep ++ join sep ps
  end.

(** [s.toLowerCase()] on U+0000..U+00FF: A-Z, and U+00C0..U+00DE without the
    multiplication sign U+00D7, move up by 32. *)
Definition lowerChar (c : ascii) : ascii :=
  let n := nat_of_ascii c in
  if (Nat.leb 65 n && Nat.leb n 90)
     || (Nat.leb 192 n && Nat.leb n 222 && negb (Nat.eqb n 215))
  then ascii_of_nat (n + 32) else c.

Definition toLowerCase (s : jstring) : jstring := map lowerChar s.

(** [s.substring(a)] and [s.substring(0, n)] *)
Definition substringFrom (a : nat) (s : jstring) : jstring := skipn a s.
Definition substringTo (n : nat) (s : jstring) : jstring := firstn n s.

(** [s.replace(p, empty)] with a string pattern: the first occurrence only. *)
Fixpoint removeFirst (p s : jstring) : jstring :=
  if startsWith s p then skipn (List.length p) s
  else match s with
       | [] => []
       | c :: s' => c :: removeFirst p s'
       end.

(** [s.replace(/re/g, rep)] for a regular expression without look-behind:
    [m rest] is the length of the match of [re] that starts at the head of
    [rest], if there is one.  [skip] counts the characters of the current
    match that are still to be dropped. *)
Fixpoint replaceAllFrom (m : jstring -> option nat) (rep : jstring)
                        (skip : nat) (s : jstring) : jstring :=
  match skip, s with
  | S k, _ :: s' => replaceAllFrom m rep k s'
  | S _, [] => []
  | O, [] => match m [] with Some _ => rep | None => [] end
  | O, c :: s' =>
      match m s with
      | Some O => rep ++ c :: replaceAllFrom m rep 0 s'
      | Some (S k) => rep ++ replaceAllFrom m rep k s'
      | None => c :: replaceAllFrom m rep 0 s'
      end
  end.

Definition replaceAll (m : jstring -> option nat) (rep s : jstring) : jstring :=
  replaceAllFrom m rep 0 s.

(** All the matches of a global regular expression, as [s.match(/re/g)]
    lists them ([[]] stands for JavaScript's [null]). *)
Fixpoint matchAllFrom (m : jstring -> option nat) (skip : nat) (s : jstring)
  : list jstring :=
  match skip, s with
  | S k, _ :: s' => matchAllFrom m k s'
  | S _, [] => []
  | O, [] => match m [] with Some _ => [[]] | None => [] end
  | O, _ :: s' =>
      match m s with
      | Some n => firstn n s :: matchAllFrom m (Nat.pred n) s'
      | None => matchAllFrom m 0 s'
      end
  end.

(** The first match of a regular expression: the text before it and what
    the matcher returns at that place. *)
Fixpoint firstMatch (A : Type) (m : jstring -> option A) (s : jstring)
  : option (jstring * A) :=
  match m s with
  | Some a => Some ([], a)
  | None =>
      match s with
      | [] => None
      | c :: s' =>
          match firstMatch m s' with
          | Some (pre, a) => Some (c :: pre, a)
          | None => None
          end
      end
  end.

(** The index of the first [c] in [s]. *)
Fixpoint indexOfChar (c : ascii) (s : jstring) : option nat :=
  match s with
  | [] => None
  | d :: s' => if Ascii.eqb d c then Some 0
               else option_map S (indexOfChar c s')
  end.

(** The index of the first occurrence of [p] in [s]. *)
Fixpoint indexOf (p s : jstring) : option nat :=
  if startsWith s p then Some 0
  else match s with
       | [] => None
       | _ :: s' => option_map S (indexOf p s')
       end.

End JsString.
Export JsString.

(* ================================================================== *)
(** * JavaScript values and JSON *)
(* ================================================================== *)

Module Json.

(** JSON-like data.  [VNum m e] is the number [m * 10^e].  The properties
    of [VObj] are listed in [Object.entries] order, without duplicates. *)
Inductive value : Type :=
| VUndef
| VNull
| VBool (b : bool)
| VNum (m e : Z)
| VStr (s : jstring)
| VArr (l : list value)
| VObj (l : list (jstring * value)).

(** Results of code that may throw. *)
Inductive result (A : Type) : Type :=
| Ok (a : A)
| Throw.
Arguments Throw {A}.

Definition bind (A B : Type) (r : result A) (k : A -> result B) : result B :=
  match r with
  | Ok a => k a
  | Throw => Throw
  end.

Notation "x <- r ;; k" := (bind r (fun x => k))
  (at level 61, r at next level, right associativity).

(** ** Numbers *)

Definition pow10 (n : Z) : Z := Z.pow 10 n.

(** The value of the decimal [m * 10^e]. *)
Definition numQ (m e : Z) : Q :=
  if (0 <=? e)%Z then inject_Z (m * pow10 e)
  else Qmake m (Z.to_pos (pow10 (- e))).

Definition digitChar (d : Z) : ascii := ascii_of_nat (48 + Z.to_nat d).

(** The decimal digits of a natural number, most significant first. *)
Fixpoint digitsFuel (fuel : nat) (n : Z) (acc : jstring) : jstring :=
  match fuel with
  | O => acc
  | S f =>
      if (n <? 10)%Z then digitChar n :: acc
      else digitsFuel f (n / 10)%Z (digitChar (n mod 10)%Z :: acc)
  end.

Definition digitsOf (n : Z) : jstring :=
  digitsFuel (S (Z.to_nat (Z.log2 n))) n [].

(** [String(n)] for an integer *)
Definition intToString (n : Z) : jstring :=
  if (n <? 0)%Z then "-"%char :: digitsOf (- n) else digitsOf n.

(** Strip the trailing zeros of a non-zero mantissa into the exponent. *)
Fixpoint normFuel (fuel : nat) (m e : Z) : Z * Z :=
  match fuel with
  | O => (m, e)
  | S f => if (m mod 10 =? 0)%Z then normFuel f (m / 10)%Z (e + 1)%Z else (m, e)
  end.

Definition normDec (m e : Z) : Z * Z :=
  if (m =? 0)%Z then (0%Z, 0%Z)
  else normFuel (S (Z.to_nat (Z.log2 (Z.abs m)))) m e.

Definition zeros (n : Z) : jstring := repeat "0"%char (Z.to_nat n).

(** [Number.prototype.toString] (ECMA-262, Number::toString) on the decimal
    [m * 10^e]: [k] digits, decimal point after the [n]-th. *)
Definition numberToString (m e : Z) : jstring :=
  let '(m', e') := normDec m e in
  if (m' =? 0)%Z then js "0"
  else
    let sign := if (m' <? 0)%Z then js "-" else [] in
    let ds := digitsOf (Z.abs m') in
    let k := Z.of_nat (List.length ds) in
    let n := (k + e')%Z in
    sign ++
    (if (k <=? n)%Z && (n <=? 21)%Z then ds ++ zeros (n - k)
     else if (0 <? n)%Z && (n <=? 21)%Z then
       firstn (Z.to_nat n) ds ++ js "." ++ skipn (Z.to_nat n) ds
     else if (-6 <? n)%Z && (n <=? 0)%Z then
       js "0." ++ zeros (- n) ++ ds
     else
       let x := (n - 1)%Z in
       let es := (if (x <? 0)%Z then js "-" else js "+") ++ digitsOf (Z.abs x) in
       match ds with
       | [d] => [d] ++ js "e" ++ es
       | d :: r => [d] ++ js "." ++ r ++ js "e" ++ es
       | [] => []
       end).

(** ** Property access and coercions *)

Fixpoint lookup (k : jstring) (l : list (jstring * value)) : option value :=
  match l with
  | [] => None
  | (k', v) :: l' => if jstring_eqb k k' then Some v else lookup k l'
  end.

Definition isDigit (c : ascii) : bool :=
  let n := nat_of_ascii c in Nat.leb 48 n && Nat.leb n 57.

Definition digitVal (c : ascii) : Z := Z.of_nat (nat_of_ascii c - 48).

Definition digitsVal (ds : jstring) : Z :=
  fold_left (fun acc c => (acc * 10 + digitVal c)%Z) ds 0%Z.

(** A canonical array index: ["0"], or digits without a leading zero and
    below [2^32 - 1]. *)
Definition arrayIndex (k : jstring) : option Z :=
  match k with
  | [] => None
  | c :: r =>
      if forallb isDigit k
         && (negb (Ascii.eqb c "0"%char) || match r with [] => true | _ => false end)
         && Nat.leb (List.length k) 10
         && (digitsVal k <? 4294967295)%Z
      then Some (digitsVal k) else None
  end.

(** [v[k]] for a string key, on a value that is neither [undefined] nor
    [null].  Only own properties: the members inherited from the prototypes
    are the caller's business. *)
Definition getOwn (v : value) (k : jstring) : value :=
  match v with
  | VObj l => match lookup k l with Some x => x | None => VUndef end
  | VArr l =>
      if jstring_eqb k (js "length") then VNum (Z.of_nat (List.length l)) 0
      else match arrayIndex k with
           | Some i => nth (Z.to_nat i) l VUndef
           | None => VUndef
           end
  | VStr s =>
      if jstring_eqb k (js "length") then VNum (Z.of_nat (List.length s)) 0
      else match arrayIndex k with
           | Some i => match nth_error s (Z.to_nat i) with
                       | Some c => VStr [c]
                       | None => VUndef
                       end
           | None => VUndef
           end
  | _ => VUndef
  end.

Definition isNullish (v : value) : bool :=
  match v with
  | VUndef | VNull => true
  | _ => false
  end.

(** [v.k]: a [TypeError] on [undefined] and [null]. *)
Definition getProp (v : value) (k : string) : result value :=
  if isNullish v then Throw else Ok (getOwn v (js k)).

(** [v?.k] *)
Definition optProp (v : value) (k : string) : value :=
  if isNullish v then VUndef else getOwn v (js k).

(** ToBoolean *)
Definition truthy (v : value) : bool :=
  match v with
  | VUndef | VNull => false
  | VBool b => b
  | VNum m _ => negb (m =? 0)%Z
  | VStr s => match s with [] => false | _ => true end
  | VArr _ | VObj _ => true
  end.

(** [a || b] *)
Definition orElse (a b : value) : value := if truthy a then a else b.

Definition hasOwn (k : string) (l : list (jstring * value)) : bool :=
  match lookup (js k) l with Some _ => true | None => false end.

(** ToString.  An object converts through the inherited
    [Object.prototype.toString] unless an own data property [toString]
    shadows it, in which case the conversion throws a [TypeError] (an own
    [toString] of JSON-like data is never callable). *)
Fixpoint toString (v : value) : result jstring :=
  match v with
  | VUndef => Ok (js "undefined")
  | VNull => Ok (js "null")
  | VBool true => Ok (js "true")
  | VBool false => Ok (js "false")
  | VNum m e => Ok (numberToString m e)
  | VStr s => Ok s
  | VArr l =>
      (fix joinElems (l : list value) : result jstring :=
         match l with
         | [] => Ok []
         | x :: r =>
             sx <- (if isNullish x then Ok [] else toString x) ;;
             match r with
             | [] => Ok sx
             | _ => sr <- joinElems r ;; Ok (sx ++ js "," ++ sr)
             end
         end) l
  | VObj l => if hasOwn "toString" l then Throw else Ok (js "[object Object]")
  end.

(** ** JSON.stringify *)

Definition hexDigit (n : nat) : ascii :=
  if Nat.ltb n 10 then ascii_of_nat (48 + n) else ascii_of_nat (87 + n).

(** QuoteJSONString, one code unit. *)
Definition quoteChar (c : ascii) : jstring :=
  let n := nat_of_ascii c in
  if Nat.eqb n 34 then [BSL; DQ]
  else if Nat.eqb n 92 then [BSL; BSL]
  else if Nat.eqb n 8 then js "\b"
  else if Nat.eqb n 9 then js "\t"
  else if Nat.eqb n 10 then js "\n"
  else if Nat.eqb n 12 then js "\f"
  else if Nat.eqb n 13 then js "\r"
  else if Nat.ltb n 32 then js "\u00" ++ [hexDigit (n / 16); hexDigit (n mod 16)]
  else [c].

Definition quote (s : jstring) : jstring :=
  [DQ] ++ flat_map quoteChar s ++ [DQ].

(** [JSON.stringify(v)] of a value other than [undefined]; an [undefined]
    array element prints as [null], an [undefined] property is left out. *)
Fixpoint stringify (v : value) : jstring :=
  match v with
  | VUndef | VNull => js "null"
  | VBool true => js "true"
  | VBool false => js "false"
  | VNum m e => numberToString m e
  | VStr s => quote s
  | VArr l => js "[" ++ join (js ",") (map stringify l) ++ js "]"
  | VObj l =>
      js "{" ++
      join (js ",")
        ((fix members (l : list (jstring * value)) : list jstring :=
            match l with
            | [] => []
            | (k, VUndef) :: r => members r
            | (k, x) :: r => (quote k ++ js ":" ++ stringify x) :: members r
            end) l)
      ++ js "}"
  end.

End Json.
Export Json.

(* ================================================================== *)
(** * JSON.parse *)
(* ================================================================== *)

Module JsonParse.

Definition isJsonWs (c : ascii) : bool :=
  let n := nat_of_ascii c in
  Nat.eqb n 32 || Nat.eqb n 9 || Nat.eqb n 10 || Nat.eqb n 13.

Fixpoint skipWs (s : jstring) : jstring :=
  match s with
  | c :: s' => if isJsonWs c then skipWs s' else s
  | [] => []
  end.

Definition hexVal (c : ascii) : option nat :=
  let n := nat_of_ascii c in
  if Nat.leb 48 n && Nat.leb n 57 then Some (n - 48)
  else if Nat.leb 97 n && Nat.leb n 102 then Some (n - 87)
  else if Nat.leb 65 n && Nat.leb n 70 then Some (n - 55)
  else None.

(** The body of a string literal, after the opening quote.  A [\u] escape
    above U+00FF leaves the modelled alphabet and is refused. *)
Fixpoint parseChars (s : jstring) : option (jstring * jstring) :=
  match s with
  | [] => None
  | c :: r =>
      if Ascii.eqb c DQ then Some ([], r)
      else if Ascii.eqb c BSL then
        match r with
        | e :: r1 =>
            let simple (x : ascii) :=
              match parseChars r1 with
              | Some (body, rest) => Some (x :: body, rest)
              | None => None
              end in
            if Ascii.eqb e DQ then simple DQ
            else if Ascii.eqb e BSL then simple BSL
            else if Ascii.eqb e "/"%char then simple "/"%char
            else if Ascii.eqb e "b"%char then simple "008"%char
            else if Ascii.eqb e "f"%char then simple "012"%char
            else if Ascii.eqb e "n"%char then simple "010"%char
            else if Ascii.eqb e "r"%char then simple "013"%char
            else if Ascii.eqb e "t"%char then simple "009"%char
            else if Ascii.eqb e "u"%char then
              match r1 with
              | h1 :: h2 :: h3 :: h4 :: r2 =>
                  match hexVal h1, hexVal h2, hexVal h3, hexVal h4 with
                  | Some 0, Some 0, Some a, Some b =>
                      match parseChars r2 with
                      | Some (body, rest) =>
                          Some (ascii_of_nat (16 * a + b) :: body, rest)
                      | None => None
                      end
                  | _, _, _, _ => None
                  end
              | _ => None
              end
            else None
        | [] => None
        end
      else if Nat.ltb (nat_of_ascii c) 32 then None
      else match parseChars r with
           | Some (body, rest) => Some (c :: body, rest)
           | None => None
           end
  end.

Fixpoint spanDigits (s : jstring) : jstring * jstring :=
  match s with
  | c :: r => if isDigit c then let '(d, rest) := spanDigits r in (c :: d, rest)
              else ([], s)
  | [] => ([], [])
  end.

(** A number literal: optional minus; 0 or a digit 1-9 and digits; optional
    fraction (dot, digits); optional exponent (e or E, sign, digits). *)
Definition parseNumber (s : jstring) : option (value * jstring) :=
  let '(neg, s1) :=
    match s with
    | c :: r => if Ascii.eqb c "-"%char then (true, r) else (false, s)
    | [] => (false, s)
    end in
  let '(ip, s2) := spanDigits s1 in
  match ip with
  | [] => None
  | d :: more =>
      if Ascii.eqb d "0"%char && negb (match more with [] => true | _ => false end)
      then None
      else
        let frac :=
          match s2 with
          | c :: r =>
              if Ascii.eqb c "."%char then
                let '(fp, s3) := spanDigits r in
                match fp with
                | [] => None
                | _ => Some (fp, s3)
                end
              else Some ([], s2)
          | [] => Some ([], s2)
          end in
        match frac with
        | None => None
        | Some (fp, s3) =>
            let expn :=
              match s3 with
              | c :: r =>
                  if Ascii.eqb c "e"%char || Ascii.eqb c "E"%char then
                    let '(eneg, r1) :=
                      match r with
                      | sg :: r' =>
                          if Ascii.eqb sg "-"%char then (true, r')
                          else if Ascii.eqb sg "+"%char then (false, r')
                          else (false, r)
                      | [] => (false, r)
                      end in
                    let '(ep, s4) := spanDigits r1 in
                    match ep with
                    | [] => None
                    | _ => Some ((if eneg then - digitsVal ep else digitsVal ep)%Z, s4)
                    end
                  else Some (0%Z, s3)
              | [] => Some (0%Z, s3)
              end in
            match expn with
            | None => None
            | Some (x, s4) =>
                let m := digitsVal (ip ++ fp) in
                Some (VNum (if neg then - m else m)%Z
                           (x - Z.of_nat (List.length fp))%Z, s4)
            end
        end
  end.

(** Position of a key among the own properties: array indices first, in
    ascending order, then the other keys in creation order. *)
Fixpoint insertIndexKey (i : Z) (k : jstring) (v : value)
                        (l : list (jstring * value)) : list (jstring * value) :=
  match l with
  | [] => [(k, v)]
  | (k', v') :: r =>
      match arrayIndex k' with
      | Some j => if (j <? i)%Z then (k', v') :: insertIndexKey i k v r
                  else (k, v) :: l
      | None => (k, v) :: l
      end
  end.

Fixpoint overwrite (k : jstring) (v : value) (l : list (jstring * value))
  : list (jstring * value) :=
  match l with
  | [] => []
  | (k', v') :: r => if jstring_eqb k k' then (k', v) :: r
                     else (k', v') :: overwrite k v r
  end.

(** CreateDataProperty on an object under construction. *)
Definition setProp (k : jstring) (v : value) (l : list (jstring * value))
  : list (jstring * value) :=
  match lookup k l with
  | Some _ => overwrite k v l
  | None =>
      match arrayIndex k with
      | Some i => insertIndexKey i k v l
      | None => l ++ [(k, v)]
      end
  end.

Fixpoint parseValue (fuel : nat) (s : jstring) : option (value * jstring) :=
  match fuel with
  | O => None
  | S f =>
      match s with
      | [] => None
      | c :: r =>
          if Ascii.eqb c "{"%char then
            match skipWs r with
            | c1 :: r1 =>
                if Ascii.eqb c1 "}"%char then Some (VObj [], r1)
                else parseMembers f (c1 :: r1) []
            | [] => None
            end
          else if Ascii.eqb c "["%char then
            match skipWs r with
            | c1 :: r1 =>
                if Ascii.eqb c1 "]"%char then Some (VArr [], r1)
                else parseElements f (c1 :: r1) []
            | [] => None
            end
          else if Ascii.eqb c DQ then
            match parseChars r with
            | Some (body, rest) => Some (VStr body, rest)
            | None => None
            end
          else if startsWith s (js "true") then Some (VBool true, skipn 4 s)
          else if startsWith s (js "false") then Some (VBool false, skipn 5 s)
          else if startsWith s (js "null") then Some (VNull, skipn 4 s)
          else parseNumber s
      end
  end

with parseElements (fuel : nat) (s : jstring) (acc : list value)
  : option (value * jstring) :=
  match fuel with
  | O => None
  | S f =>
      match parseValue f s with
      | None => None
      | Some (v, rest) =>
          match skipWs rest with
          | c :: r =>
              if Ascii.eqb c ","%char then parseElements f (skipWs r) (acc ++ [v])
              else if Ascii.eqb c "]"%char then Some (VArr (acc ++ [v]), r)
              else None
          | [] => None
          end
      end
  end

with parseMembers (fuel : nat) (s : jstring) (acc : list (jstring * value))
  : option (value * jstring) :=
  match fuel with
  | O => None
  | S f =>
      match s with
      | c :: r =>
          if Ascii.eqb c DQ then
            match parseChars r with
            | None => None
            | Some (k, rest) =>
                match skipWs rest with
                | c1 :: r1 =>
                    if Ascii.eqb c1 ":"%char then
                      match parseValue f (skipWs r1) with
                      | None => None
                      | Some (v, rest2) =>
                          match skipWs rest2 with
                          | c2 :: r2 =>
                              if Ascii.eqb c2 ","%char
                              then parseMembers f (skipWs r2) (setProp k v acc)
                              else if Ascii.eqb c2 "}"%char
                              then Some (VObj (setProp k v acc), r2)
                              else None
                          | [] => None
                          end
                      end
                    else None
                | [] => None
                end
            end
          else None
      | [] => None
      end
  end.

(** [JSON.parse(text)]; [Throw] is the [SyntaxError]. *)
Definition JSON_parse (text : jstring) : result value :=
  match parseValue (2 * List.length text + 2) (skipWs text) with
  | Some (v, rest) =>
      match skipWs rest with
      | [] => Ok v
      | _ :: _ => Throw
      end
  | None => Throw
  end.

End JsonParse.
Export JsonParse.

(* ================================================================== *)
(** * In-band markers: extraction and cleaning *)
(* ================================================================== *)

Module Markers.

Definition EMOTION_LOG : jstring := js "EMOTION_LOG".
Definition TASK_INFERENCE : jstring := js "TASK_INFERENCE".

(** ** The regular expressions, as matchers at the head of the text *)

Fixpoint countSpaces (s : jstring) : nat :=
  match s with
  | c :: r => if isSpace c then S (countSpaces r) else 0
  | [] => 0
  end.

(** [:?\s*] — both greedy; what follows never lets them give back. *)
Definition colonSpaces (s : jstring) : nat :=
  match s with
  | c :: r => if Ascii.eqb c ":"%char then S (countSpaces r) else countSpaces s
  | [] => 0
  end.

(** [\{[\s\S]*?\}] and [\{[^}]*\}]: an opening brace, then everything up to
    the first closing brace.  The length of the region. *)
Definition braceRegion (s : jstring) : option nat :=
  match s with
  | c :: r =>
      if Ascii.eqb c "{"%char then
        match indexOfChar "}"%char r with
        | Some i => Some (i + 2)
        | None => None
        end
      else None
  | [] => None
  end.

(** [/MARKER:?\s*(\{[\s\S]*?\})\s*?/] and [/MARKER:?\s*(\{[^}]*\})/] at the
    head of [s]: the length of the match and the captured group. *)
Definition markerWithJson (marker s : jstring) : option (nat * jstring) :=
  if startsWith s marker then
    let r := skipn (List.length marker) s in
    let n := colonSpaces r in
    match braceRegion (skipn n r) with
    | Some b => Some (List.length marker + n + b, firstn b (skipn n r))
    | None => None
    end
  else None.

Definition markerWithJsonLen (marker s : jstring) : option nat :=
  option_map fst (markerWithJson marker s).

(** [METADATA_PATTERNS], both with the [g] flag. *)
Definition METADATA_PATTERNS_task := markerWithJsonLen TASK_INFERENCE.
Definition METADATA_PATTERNS_emotion := markerWithJsonLen EMOTION_LOG.

(** [/MARKER:?\s*(?:\{[\s\S]*?\})?\s*?/] at the head of [s]. *)
Definition markerOptJson (marker s : jstring) : option nat :=
  if startsWith s marker then
    let r := skipn (List.length marker) s in
    let n := colonSpaces r in
    match braceRegion (skipn n r) with
    | Some b => Some (List.length marker + n + b)
    | None => Some (List.length marker + n)
    end
  else None.

(** [CLEANUP_REGEX = /(?:TASK_INFERENCE|EMOTION_LOG):?\s*(?:\{[\s\S]*?\})?\s*?/g] *)
Definition CLEANUP_REGEX (s : jstring) : option nat :=
  match markerOptJson TASK_INFERENCE s with
  | Some n => Some n
  | None => markerOptJson EMOTION_LOG s
  end.

(** [/<\|im_(start|end)\|>(assistant|user)?\n?/g] *)
Definition imToken (s : jstring) : option nat :=
  let tail (n : nat) :=
    let r := skipn n s in
    let role :=
      if startsWith r (js "assistant") then 9
      else if startsWith r (js "user") then 4 else 0 in
    let nl := match skipn role r with
              | c :: _ => if Ascii.eqb c LF then 1 else 0
              | [] => 0
              end in
    Some (n + role + nl) in
  if startsWith s (js "<|im_start|>") then tail 12
  else if startsWith s (js "<|im_end|>") then tail 10
  else None.

(** [/```json[\s\S]*?```/g] *)
Definition jsonFence (s : jstring) : option nat :=
  if startsWith s (js "```json") then
    match indexOf (js "```") (skipn 7 s) with
    | Some i => Some (7 + i + 3)
    | None => None
    end
  else None.

(** One [\r?\n] at the head of [s]: its length. *)
Definition lineBreak (s : jstring) : option nat :=
  match s with
  | c :: r =>
      if Ascii.eqb c LF then Some 1
      else if Ascii.eqb c CR then
        match r with
        | d :: _ => if Ascii.eqb d LF then Some 2 else None
        | [] => None
        end
      else None
  | [] => None
  end.

(** The longest run of [\r?\n] at the head of [s]: how many, and their
    total length. *)
Fixpoint lineBreaks (fuel : nat) (s : jstring) : nat * nat :=
  match fuel with
  | O => (0, 0)
  | S f =>
      match lineBreak s with
      | Some n => let '(k, len) := lineBreaks f (skipn n s) in (S k, n + len)
      | None => (0, 0)
      end
  end.

(** [/(\r?\n){2,}/g] *)
Definition blankLines (s : jstring) : option nat :=
  let '(k, len) := lineBreaks (List.length s) s in
  if Nat.leb 2 k then Some len else None.

(** [/\n{2,}/g] *)
Definition newlineRun (s : jstring) : option nat :=
  let n := (fix run (s : jstring) : nat :=
              match s with
              | c :: r => if Ascii.eqb c LF then S (run r) else 0
              | [] => 0
              end) s in
  if Nat.leb 2 n then Some n else None.

(** [/(?:EMOTION_LOG|TASK_INFERENCE):?[^\n]*/g]: a marker and the rest of
    its line. *)
Definition markerLine (s : jstring) : option nat :=
  if startsWith s EMOTION_LOG || startsWith s TASK_INFERENCE then
    match indexOfChar LF s with
    | Some i => Some i
    | None => Some (List.length s)
    end
  else None.

(** ** [extractJsonPattern] of routes/completion.js

    [content.match(regex)] with a global [regex] yields the list of all the
    matches, so [match[0]] is the first match and [match[1]] the second one,
    not the captured group. *)
Definition extractJsonPattern (regex : jstring -> option nat) (content : jstring)
  : value * jstring :=
  match matchAllFrom regex 0 content with
  | m0 :: m1 :: _ =>
      match JSON_parse (trim m1) with
      | Ok parsed => (parsed, removeFirst m0 content)
      | Throw => (VNull, content)
      end
  | _ => (VNull, content)
  end.

Definition fallbackText : jstring :=
  js "I'm sorry, I wasn't able to provide a proper response. Please try again.".

Definition mentionsMarker (lower : jstring) : bool :=
  includes lower (js "task_inference") || includes lower (js "emotion_log").

(** ** [cleanResponse] of routes/completion.js *)

(** The chain of four [replace] calls: model tokens, markers, fenced JSON
    blocks, runs of blank lines. *)
Definition stripChrome (content : jstring) : jstring :=
  replaceAll blankLines [LF]
    (replaceAll jsonFence []
      (replaceAll CLEANUP_REGEX []
        (replaceAll imToken [] content))).

Definition cleanResponse (content : jstring) : jstring :=
  match content with
  | [] => []
  | _ =>
      let cleaned := trim (stripChrome content) in
      let lowerCleaned := toLowerCase cleaned in
      let cleaned :=
        if mentionsMarker lowerCleaned then
          trim (join [LF]
                  (filter (fun line => negb (mentionsMarker (toLowerCase line)))
                          (split LF cleaned)))
        else cleaned in
      match cleaned with
      | [] => fallbackText
      | _ => cleaned
      end
  end.

(** ** [extractMetadata] of the llama.cpp variant *)

Record metadata (V : Type) := {
  inferredTask : V;
  inferredEmotion : V;
  cleanContent : jstring
}.

(** [content.match(/MARKER:?\s*(\{[^}]*\})/)]: the whole match and the
    captured group of the first match. *)
Definition matchMarker (marker content : jstring) : option (jstring * jstring) :=
  match firstMatch (markerWithJson marker) content with
  | Some (pre, (n, group)) => Some (firstn n (skipn (List.length pre) content), group)
  | None => None
  end.

Section Extraction.

(** The function never looks into what [JSON.parse] returns: it stores the
    value, or keeps [null] when the call throws.  It is written here over
    any set [V] of values with its [null] and over any [parse] in the place
    of [JSON.parse]. *)
Variable V : Type.
Variable null : V.
Variable parse : jstring -> result V.

(** One [if (match) { try { ... } catch { } }] block. *)
Definition extractOneWith (marker content cleanContent : jstring) : V * jstring :=
  match matchMarker marker content with
  | Some (whole, group) =>
      match parse group with
      | Ok parsed => (parsed, removeFirst whole cleanContent)
      | Throw => (null, cleanContent)
      end
  | None => (null, cleanContent)
  end.

Definition extractMetadataWith (content : jstring) : metadata V :=
  let '(emotion, clean1) := extractOneWith EMOTION_LOG content content in
  let '(task, clean2) := extractOneWith TASK_INFERENCE content clean1 in
  {| inferredTask := task;
     inferredEmotion := emotion;
     cleanContent :=
       trim (replaceAll newlineRun [LF] (replaceAll markerLine [] clean2)) |}.

End Extraction.

(** The function with [JSON.parse] as this file has it. *)
Definition extractMetadata (content : jstring) : metadata value :=
  extractMetadataWith VNull JSON_parse content.

End Markers.
Export Markers.

(* ================================================================== *)
(** * Numeric coercions *)
(* ================================================================== *)

Module JsNumber.

(** A JavaScript number: [NaN], an infinity, or a finite value. *)
Inductive num : Type :=
| NaN
| NegInf
| Fin (q : Q)
| PosInf.

Definition numOfZ (z : Z) : num := Fin (inject_Z z).

(** [a < b], [a > b], [a <= b], [a >= b]: false as soon as one side is [NaN]. *)
Definition num_lt (a b : num) : bool :=
  match a, b with
  | NaN, _ | _, NaN => false
  | NegInf, NegInf => false
  | NegInf, _ => true
  | _, NegInf => false
  | PosInf, _ => false
  | Fin _, PosInf => true
  | Fin x, Fin y => negb (Qle_bool y x)
  end.

Definition num_le (a b : num) : bool :=
  match a, b with
  | NaN, _ | _, NaN => false
  | NegInf, _ => true
  | _, NegInf => false
  | _, PosInf => true
  | PosInf, Fin _ => false
  | Fin x, Fin y => Qle_bool x y
  end.

Definition num_gt (a b : num) : bool := num_lt b a.
Definition num_ge (a b : num) : bool := num_le b a.

(** The digits of a literal in base [b]; [None] on a foreign character. *)
Definition baseDigits (b : nat) (s : jstring) : option Z :=
  match s with
  | [] => None
  | _ =>
      fold_left
        (fun acc c =>
           match acc, hexVal c with
           | Some a, Some d =>
               if Nat.ltb d b then Some (a * Z.of_nat b + Z.of_nat d)%Z else None
           | _, _ => None
           end) s (Some 0%Z)
  end.

(** StringToNumber (ECMA-262, StringNumericLiteral). *)
Definition stringToNumber (s : jstring) : num :=
  let t := trim s in
  let based (b : nat) :=
    match baseDigits b (skipn 2 t) with
    | Some z => numOfZ z
    | None => NaN
    end in
  match t with
  | [] => numOfZ 0
  | _ =>
      if startsWith t (js "0x") || startsWith t (js "0X") then based 16
      else if startsWith t (js "0o") || startsWith t (js "0O") then based 8
      else if startsWith t (js "0b") || startsWith t (js "0B") then based 2
      else
        let '(neg, r) :=
          match t with
          | c :: r' =>
              if Ascii.eqb c "-"%char then (true, r')
              else if Ascii.eqb c "+"%char then (false, r')
              else (false, t)
          | [] => (false, t)
          end in
        if jstring_eqb r (js "Infinity") then (if neg then NegInf else PosInf)
        else
          let '(ip, r1) := spanDigits r in
          let '(fp, r2) :=
            match r1 with
            | c :: r' => if Ascii.eqb c "."%char then spanDigits r' else ([], r1)
            | [] => ([], r1)
            end in
          match ip ++ fp with
          | [] => NaN
          | ds =>
              let m := digitsVal ds in
              let finish (x : Z) :=
                Fin (numQ (if neg then - m else m)%Z (x - Z.of_nat (List.length fp))%Z) in
              match r2 with
              | [] => finish 0%Z
              | c :: r3 =>
                  if Ascii.eqb c "e"%char || Ascii.eqb c "E"%char then
                    let '(eneg, r4) :=
                      match r3 with
                      | sg :: r' =>
                          if Ascii.eqb sg "-"%char then (true, r')
                          else if Ascii.eqb sg "+"%char then (false, r')
                          else (false, r3)
                      | [] => (false, r3)
                      end in
                    match spanDigits r4 with
                    | (((_ :: _) as ep), []) =>
                        finish (if eneg then - digitsVal ep else digitsVal ep)%Z
                    | _ => NaN
                    end
                  else NaN
              end
          end
  end.

(** ToNumber.  Objects and arrays go through ToPrimitive, whose string
    conversion may throw. *)
Definition toNumber (v : value) : result num :=
  match v with
  | VUndef => Ok NaN
  | VNull => Ok (numOfZ 0)
  | VBool true => Ok (numOfZ 1)
  | VBool false => Ok (numOfZ 0)
  | VNum m e => Ok (Fin (numQ m e))
  | VStr s => Ok (stringToNumber s)
  | VArr _ | VObj _ => s <- toString v ;; Ok (stringToNumber s)
  end.

(** [v >= n], [v <= n], [v > n], [v < n] against a number. *)
Definition geNumber (v : value) (n : Z) : result bool :=
  x <- toNumber v ;; Ok (num_ge x (numOfZ n)).
Definition leNumber (v : value) (n : Z) : result bool :=
  x <- toNumber v ;; Ok (num_le x (numOfZ n)).
Definition gtNumber (v : value) (n : Z) : result bool :=
  x <- toNumber v ;; Ok (num_gt x (numOfZ n)).
Definition ltNumber (v : value) (n : Z) : result bool :=
  x <- toNumber v ;; Ok (num_lt x (numOfZ n)).

(** [Math.round]: to the nearest integer, halves upwards. *)
Definition mathRound (q : Q) : Z := Qfloor (Qplus q (1 # 2)).

End JsNumber.
Export JsNumber.

(* ================================================================== *)
(** * The store and the HTTP response *)
(* ================================================================== *)

Module Store.

Definition userId := nat.

Inductive role : Type := user | assistant.

(** A [ShortTermMemory] document, a [Task] document, and the three
    collections the commit step writes.  [emotionalLog] keeps the objects
    pushed by [$push], with their owner. *)
Record memoryMessage := {
  mem_userId : userId;
  mem_content : jstring;
  mem_role : role
}.

Record taskDoc := {
  task_userId : userId;
  task_taskType : value;
  task_parameters : value;
  task_status : jstring
}.

Record db := {
  memories : list memoryMessage;
  emotionalLog : list (userId * value);
  tasks : list taskDoc
}.

Definition emptyDb : db := {| memories := []; emotionalLog := []; tasks := [] |}.

(** [ShortTermMemory.insertMany(docs)] *)
Definition insertMany (docs : list memoryMessage) (d : db) : db :=
  {| memories := memories d ++ docs;
     emotionalLog := emotionalLog d;
     tasks := tasks d |}.

(** [User.findByIdAndUpdate(userId, { $push: { emotionalLog: entry } })] *)
Definition pushEmotion (u : userId) (entry : value) (d : db) : db :=
  {| memories := memories d;
     emotionalLog := emotionalLog d ++ [(u, entry)];
     tasks := tasks d |}.

(** [Task.create(doc)] *)
Definition createTask (t : taskDoc) (d : db) : db :=
  {| memories := memories d;
     emotionalLog := emotionalLog d;
     tasks := tasks d ++ [t] |}.

End Store.
Export Store.

Module Http.

(** What the client has been sent.  [written] lists the chunks of
    [res.write] in order; a write after [res.end()] reaches nobody. *)
Record response := {
  statusCode : nat;
  headersSent : bool;
  written : list jstring;
  finished : bool
}.

Definition newResponse : response :=
  {| statusCode := 200; headersSent := false; written := []; finished := false |}.

Definition res_write (chunk : jstring) (r : response) : response :=
  if finished r then r
  else {| statusCode := statusCode r;
          headersSent := true;
          written := written r ++ [chunk];
          finished := false |}.

Definition res_end (r : response) : response :=
  {| statusCode := statusCode r;
     headersSent := true;
     written := written r;
     finished := true |}.

(** [res.writeHead(code, ...)] *)
Definition res_writeHead (code : nat) (r : response) : response :=
  {| statusCode := code;
     headersSent := headersSent r;
     written := written r;
     finished := finished r |}.

(** The bytes on the wire. *)
Definition wire (r : response) : jstring := List.concat (written r).

Definition DONE_EVENT : jstring := js "data: [DONE]" ++ [LF; LF].

(** [`data: ${JSON.stringify({ content })}\n\n`] *)
Definition contentEvent (content : value) : jstring :=
  js "data: " ++ stringify (VObj [(js "content", content)]) ++ [LF; LF].

(** What the upstream stream emits.  The chunk of a ['data'] event is the
    text [chunk.toString()]: the handlers decode every Buffer on its own, as
    UTF-8, before anything else. *)
Inductive upstream_event : Type :=
| Data (chunk : jstring)
| End
| Error (message : jstring)
| Timeout
| Close.

End Http.
Export Http.

(* ================================================================== *)
(** * routes/completion.js: the streaming endpoint *)
(* ================================================================== *)

Module Completion.

(** ** [processResponseAndSave]

    The store operations are started one after the other while the list
    [dbOperations] is built, so what was started before an exception is
    still written.  The result pairs the store with the value or exception
    of the [async] function. *)
Definition typeofObject (v : value) : bool :=
  match v with
  | VNull | VArr _ | VObj _ => true
  | _ => false
  end.

Definition memoryPair (u : userId) (userPrompt reply : jstring) : list memoryMessage :=
  [ {| mem_userId := u; mem_content := userPrompt; mem_role := user |};
    {| mem_userId := u; mem_content := reply; mem_role := assistant |} ].

(** The [if (inferredEmotion?.emotion) { ... }] block: the object that is
    pushed to the emotional log, if any. *)
Definition emotionToLog (inferredEmotion : value) (userPrompt : jstring)
  : result (option value) :=
  if truthy (optProp inferredEmotion "emotion") then
    let base :=
      [ (js "emotion", getOwn inferredEmotion (js "emotion"));
        (js "context", orElse (getOwn inferredEmotion (js "context")) (VStr userPrompt)) ] in
    let intensity := getOwn inferredEmotion (js "intensity") in
    ge <- geNumber intensity 1 ;;
    inRange <- (if ge then leNumber intensity 10 else Ok false) ;;
    Ok (Some (VObj (if inRange then base ++ [(js "intensity", intensity)] else base)))
  else Ok None.

(** The [if (inferredTask?.taskType) { ... }] block. *)
Definition taskToCreate (u : userId) (inferredTask : value) : option taskDoc :=
  if truthy (optProp inferredTask "taskType") then
    let p := getOwn inferredTask (js "parameters") in
    Some {| task_userId := u;
            task_taskType := getOwn inferredTask (js "taskType");
            task_parameters := if typeofObject p then p else VObj [];
            task_status := js "queued" |}
  else None.

Definition processResponseAndSave (fullContent userPrompt : jstring) (u : userId)
                                  (d : db) : db * result jstring :=
  let '(inferredEmotion, fullContent) :=
    extractJsonPattern METADATA_PATTERNS_emotion fullContent in
  let '(inferredTask, fullContent) :=
    extractJsonPattern METADATA_PATTERNS_task fullContent in
  let sanitizedContent := cleanResponse fullContent in
  let d := insertMany (memoryPair u userPrompt sanitizedContent) d in
  match emotionToLog inferredEmotion userPrompt with
  | Throw => (d, Throw)
  | Ok e =>
      let d := match e with Some entry => pushEmotion u entry d | None => d end in
      let d := match taskToCreate u inferredTask with
               | Some t => createTask t d
               | None => d
               end in
      (d, Ok sanitizedContent)
  end.

(** ** The request in flight *)

Record state := {
  buffer : jstring;
  fullContent : jstring;
  res : response;
  store : db
}.

Definition start (d : db) : state :=
  {| buffer := []; fullContent := []; res := newResponse; store := d |}.

Definition withRes (st : state) (r : response) : state :=
  {| buffer := buffer st; fullContent := fullContent st; res := r; store := store st |}.

(** [parsed.choices && parsed.choices[0] && parsed.choices[0].delta &&
    parsed.choices[0].delta.content], when it is truthy. *)
Definition deltaContent (parsed : value) : result (option value) :=
  choices <- getProp parsed "choices" ;;
  if truthy choices then
    let first := getOwn choices (js "0") in
    if truthy first then
      let delta := getOwn first (js "delta") in
      if truthy delta then
        let content := getOwn delta (js "content") in
        if truthy content then Ok (Some content) else Ok None
      else Ok None
    else Ok None
  else Ok None.

(** The body of [for (const line of lines)]; [true] when the handler
    returns (on [[DONE]]). *)
Definition onLine (st : state) (line : jstring) : state * bool :=
  if startsWith line (js "data: ") then
    let data := trim (substringFrom 6 line) in
    if jstring_eqb data (js "[DONE]") then
      (withRes st (res_end (res_write DONE_EVENT (res st))), true)
    else
      match (parsed <- JSON_parse data ;;
             found <- deltaContent parsed ;;
             match found with
             | Some content => text <- toString content ;; Ok (Some (content, text))
             | None => Ok None
             end) with
      | Ok (Some (content, text)) =>
          ({| buffer := buffer st;
              fullContent := fullContent st ++ text;
              res := res_write (contentEvent content) (res st);
              store := store st |}, false)
      | _ => (st, false)
      end
  else (st, false).

Fixpoint onLines (st : state) (lines : list jstring) : state :=
  match lines with
  | [] => st
  | line :: rest =>
      let '(st', returned) := onLine st line in
      if returned then st' else onLines st' rest
  end.

(** [streamResponse.data.on('data', ...)] *)
Definition onData (st : state) (chunk : jstring) : state :=
  let lines := split LF (buffer st ++ chunk) in
  let st' := {| buffer := last lines [];
                fullContent := fullContent st;
                res := res st;
                store := store st |} in
  onLines st' (removelast lines).

(** [streamResponse.data.on("end", ...)] *)
Definition onEnd (userPrompt : jstring) (u : userId) (st : state) : state :=
  let d := match trim (fullContent st) with
           | [] => store st
           | _ => fst (processResponseAndSave (fullContent st) userPrompt u (store st))
           end in
  {| buffer := buffer st;
     fullContent := fullContent st;
     res := res_end (res_write DONE_EVENT (res st));
     store := d |}.

(** [`data: {"error": "${err.message}"}\n\n`] *)
Definition errorEvent (message : jstring) : jstring :=
  jq "data: {'error': '" ++ message ++ jq "'}" ++ [LF; LF].

(** [streamResponse.data.on("error", ...)] *)
Definition onError (message : jstring) (st : state) : state :=
  let r := if headersSent (res st) then res st else res_writeHead 500 (res st) in
  withRes st (res_end (res_write (errorEvent message) r)).

(** The handlers registered on the upstream stream; this variant has no
    timer and no close handler. *)
Definition handle (userPrompt : jstring) (u : userId) (st : state)
                  (ev : upstream_event) : state :=
  match ev with
  | Data chunk => onData st chunk
  | End => onEnd userPrompt u st
  | Error message => onError message st
  | Timeout | Close => st
  end.

Definition run (userPrompt : jstring) (u : userId) (st : state)
               (evs : list upstream_event) : state :=
  fold_left (handle userPrompt u) evs st.

(** A chunk of the upstream wire format carrying one content delta:
    [data: {"choices":[{"delta":{"content":<s>}}]}\n]. *)
Definition deltaChunk (s : jstring) : jstring :=
  jq "data: {'choices':[{'delta':{'content':" ++ quote s ++ js "}}]}" ++ [LF].

End Completion.

(* ================================================================== *)
(** * The llama.cpp variant of the streaming endpoint *)
(* ================================================================== *)

Module Optimized.

(** The default of [req.body.stop || [...]]. *)
Definition defaultStop : list jstring :=
  [ js "USER:"; LF :: js "USER:"; LF :: js "User:";
    js "Human:"; LF :: js "Human:";
    [LF; LF; LF]; js "---";
    js "<s>"; js "</s>"; js "[INST]"; js "[/INST]";
    js "Assistant:"; LF :: js "Assistant:";
    js "..."; js "etc." ].

(** The token cap of [if (tokenCount > 800)]. *)
Definition tokenCap : nat := 800.

Record state := {
  buffer : jstring;
  fullContent : jstring;
  tokenCount : nat;
  streamEnded : bool;
  timerArmed : bool;
  upstreamDestroyed : bool;
  res : response;
  store : db
}.

Definition start (d : db) : state :=
  {| buffer := []; fullContent := []; tokenCount := 0; streamEnded := false;
     timerArmed := true; upstreamDestroyed := false;
     res := newResponse; store := d |}.

(** [streamEnded = true; clearTimeout(streamTimeout);] *)
Definition endStream (st : state) : state :=
  {| buffer := buffer st; fullContent := fullContent st;
     tokenCount := tokenCount st; streamEnded := true; timerArmed := false;
     upstreamDestroyed := upstreamDestroyed st;
     res := res st; store := store st |}.

Definition withRes (st : state) (r : response) : state :=
  {| buffer := buffer st; fullContent := fullContent st;
     tokenCount := tokenCount st; streamEnded := streamEnded st;
     timerArmed := timerArmed st; upstreamDestroyed := upstreamDestroyed st;
     res := r; store := store st |}.

Definition withStore (st : state) (d : db) : state :=
  {| buffer := buffer st; fullContent := fullContent st;
     tokenCount := tokenCount st; streamEnded := streamEnded st;
     timerArmed := timerArmed st; upstreamDestroyed := upstreamDestroyed st;
     res := res st; store := d |}.

(** [fullContent += parsed.content; tokenCount++;] *)
Definition accumulate (st : state) (content : jstring) : state :=
  {| buffer := buffer st; fullContent := fullContent st ++ content;
     tokenCount := S (tokenCount st); streamEnded := streamEnded st;
     timerArmed := timerArmed st; upstreamDestroyed := upstreamDestroyed st;
     res := res st; store := store st |}.

Definition hasMarker (content : jstring) : bool :=
  includes content EMOTION_LOG || includes content TASK_INFERENCE.

(** [parsed.content && parsed.content.trim()]: the content when the
    condition is truthy.  A truthy content that is not a string has no
    callable [trim]: the call throws. *)
Definition nonBlankContent (parsed : value) : result (option jstring) :=
  content <- getProp parsed "content" ;;
  if truthy content then
    match content with
    | VStr s => match trim s with
                | [] => Ok None
                | _ => Ok (Some s)
                end
    | _ => Throw
    end
  else Ok None.

Section Handlers.

(** The stop sequences of the request: the default list, or the array of
    strings the client sent. *)
Variable stop : list jstring.

(** [sanitizeResponse] of utils/sanitize.js, which is not part of the
    sources at hand. *)
Variable sanitizeResponse : jstring -> jstring.

Variable userPrompt : jstring.
Variable u : userId.

(** What happens to a non-blank content delta; [true] is [break]. *)
Definition onContent (st : state) (content : jstring) : state * bool :=
  let st1 := accumulate st content in
  let hit := existsb (fun stopSeq => includes (fullContent st1) stopSeq) stop in
  let over := Nat.ltb tokenCap (tokenCount st1) in
  if hit || over then (endStream st1, true)
  else if hasMarker content then (st1, false)
  else (withRes st1 (res_write (contentEvent (VStr content)) (res st1)), false).

(** The body of [for (const line of lines)]; [true] is [break]. *)
Definition onLine (st : state) (line : jstring) : state * bool :=
  if startsWith line (js "data: ") && Nat.ltb 6 (List.length line) then
    let jsonStr := trim (substringFrom 6 line) in
    if jstring_eqb jsonStr (js "[DONE]") then (endStream st, true)
    else
      match (parsed <- JSON_parse jsonStr ;; nonBlankContent parsed) with
      | Ok (Some content) => onContent st content
      | Ok None => (st, false)
      | Throw => (st, false)
      end
  else (st, false).

Fixpoint onLines (st : state) (lines : list jstring) : state :=
  match lines with
  | [] => st
  | line :: rest =>
      let '(st', stopped) := onLine st line in
      if stopped then st' else onLines st' rest
  end.

(** [streamResponse.data.on('data', ...)] *)
Definition onData (st : state) (chunk : jstring) : state :=
  if streamEnded st then st
  else
    let lines := split LF (buffer st ++ chunk) in
    let st' := {| buffer := last lines [];
                  fullContent := fullContent st; tokenCount := tokenCount st;
                  streamEnded := streamEnded st; timerArmed := timerArmed st;
                  upstreamDestroyed := upstreamDestroyed st;
                  res := res st; store := store st |} in
    onLines st' (removelast lines).

(** The object pushed by the [if (inferredEmotion?.emotion)] block of
    [processStreamResponse]. *)
Definition emotionToLog (inferredEmotion : value) : option value :=
  if truthy (optProp inferredEmotion "emotion") then
    Some (VObj [ (js "emotion", getOwn inferredEmotion (js "emotion"));
                 (js "intensity", getOwn inferredEmotion (js "intensity"));
                 (js "context",
                  orElse (getOwn inferredEmotion (js "context")) (VStr userPrompt)) ])
  else None.

Definition taskToCreate (inferredTask : value) : option taskDoc :=
  if truthy (optProp inferredTask "taskType") then
    Some {| task_userId := u;
            task_taskType := getOwn inferredTask (js "taskType");
            task_parameters := orElse (getOwn inferredTask (js "parameters")) (VObj []);
            task_status := js "queued" |}
  else None.

(** [processStreamResponse] *)
Definition processStreamResponse (content : jstring) (d : db) : db :=
  let m := extractMetadata content in
  let sanitizedContent := sanitizeResponse (cleanContent m) in
  let d := insertMany
             [ {| mem_userId := u; mem_content := userPrompt; mem_role := user |};
               {| mem_userId := u; mem_content := sanitizedContent;
                  mem_role := assistant |} ] d in
  let d := match emotionToLog (inferredEmotion m) with
           | Some entry => pushEmotion u entry d
           | None => d
           end in
  match taskToCreate (inferredTask m) with
  | Some t => createTask t d
  | None => d
  end.

(** [streamResponse.data.on('end', ...)] *)
Definition onEnd (st : state) : state :=
  let st1 :=
    if streamEnded st then st
    else let st' := endStream st in
         withRes st' (res_end (res_write DONE_EVENT (res st'))) in
  match trim (fullContent st1) with
  | [] => st1
  | _ => withStore st1 (processStreamResponse (fullContent st1) (store st1))
  end.

(** [JSON.stringify({ error: true, message: "Stream error. Please try again." })] *)
Definition errorEvent : jstring :=
  js "data: " ++
  stringify (VObj [ (js "error", VBool true);
                    (js "message", VStr (js "Stream error. Please try again.")) ])
  ++ [LF; LF].

(** [streamResponse.data.on('error', ...)] *)
Definition onError (st : state) : state :=
  if streamEnded st then st
  else let st' := endStream st in
       withRes st' (res_end (res_write errorEvent (res st'))).

(** The callback of [setTimeout(..., 45000)], if the timer was not cleared. *)
Definition onTimeout (st : state) : state :=
  if timerArmed st then
    let st0 := {| buffer := buffer st; fullContent := fullContent st;
                  tokenCount := tokenCount st; streamEnded := streamEnded st;
                  timerArmed := false; upstreamDestroyed := upstreamDestroyed st;
                  res := res st; store := store st |} in
    if streamEnded st0 then st0
    else
      let st1 := {| buffer := buffer st0; fullContent := fullContent st0;
                    tokenCount := tokenCount st0; streamEnded := true;
                    timerArmed := false; upstreamDestroyed := upstreamDestroyed st0;
                    res := res_end (res_write DONE_EVENT (res st0));
                    store := store st0 |} in
      st1
  else st.

(** [req.on('close', ...)] *)
Definition onClose (st : state) : state :=
  if streamEnded st then st
  else let st' := endStream st in
       {| buffer := buffer st'; fullContent := fullContent st';
          tokenCount := tokenCount st'; streamEnded := true; timerArmed := false;
          upstreamDestroyed := true;
          res := res st'; store := store st' |}.

Definition handle (st : state) (ev : upstream_event) : state :=
  match ev with
  | Data chunk => onData st chunk
  | End => onEnd st
  | Error _ => onError st
  | Timeout => onTimeout st
  | Close => onClose st
  end.

Definition run (st : state) (evs : list upstream_event) : state :=
  fold_left handle evs st.

End Handlers.

(** A chunk of the llama.cpp wire format carrying one content delta:
    [data: {"content":<s>}\n]. *)
Definition deltaChunk (s : jstring) : jstring :=
  jq "data: {'content':" ++ quote s ++ js "}" ++ [LF].

End Optimized.

(* ================================================================== *)
(** * services/intelligenceCompressorV2.js *)
(* ================================================================== *)

Module Compressor.

(** The fraction [a / b]. *)
Definition frac (a : Z) (b : positive) : Q := Qmake a b.

(** ** Arithmetic on numbers *)

Definition num_neg (a : num) : num :=
  match a with
  | NaN => NaN
  | NegInf => PosInf
  | PosInf => NegInf
  | Fin q => Fin (Qopp q)
  end.

Definition num_add (a b : num) : num :=
  match a, b with
  | NaN, _ | _, NaN => NaN
  | PosInf, NegInf | NegInf, PosInf => NaN
  | PosInf, _ | _, PosInf => PosInf
  | NegInf, _ | _, NegInf => NegInf
  | Fin x, Fin y => Fin (Qplus x y)
  end.

(** An infinity times a finite number. *)
Definition scaleInf (i : num) (x : Q) : num :=
  match Qcompare x 0 with
  | Eq => NaN
  | Gt => i
  | Lt => num_neg i
  end.

Definition num_mul (a b : num) : num :=
  match a, b with
  | NaN, _ | _, NaN => NaN
  | Fin x, Fin y => Fin (Qmult x y)
  | Fin x, i => scaleInf i x
  | i, Fin x => scaleInf i x
  | PosInf, PosInf | NegInf, NegInf => PosInf
  | PosInf, NegInf | NegInf, PosInf => NegInf
  end.

Definition num_div (a b : num) : num :=
  match a, b with
  | NaN, _ | _, NaN => NaN
  | Fin x, Fin y =>
      match Qcompare y 0 with
      | Eq => match Qcompare x 0 with
              | Eq => NaN
              | Gt => PosInf
              | Lt => NegInf
              end
      | _ => Fin (Qdiv x y)
      end
  | Fin _, _ => Fin 0
  | i, Fin y => match Qcompare y 0 with
                | Lt => num_neg i
                | _ => i
                end
  | _, _ => NaN
  end.

(** [Math.min(a, b)] *)
Definition num_min (a b : num) : num :=
  match a, b with
  | NaN, _ | _, NaN => NaN
  | _, _ => if num_le a b then a else b
  end.

(** [Math.round(a)] *)
Definition num_round (a : num) : num :=
  match a with
  | Fin q => numOfZ (mathRound q)
  | _ => a
  end.

(** ** Objects of the class *)

(** A property read on one of the object literals of the class.  A key the
    literal does not have may still name a member inherited from
    [Object.prototype]; [Inherited] carries what such a member prints as. *)
Inductive slot (A : Type) : Type :=
| Own (a : A)
| Inherited (rendering : jstring)
| Missing.
Arguments Inherited {A}.
Arguments Missing {A}.

Definition nativeFunction (name : string) : jstring :=
  js "function " ++ js name ++ js "() { [native code] }".

Fixpoint assoc (A : Type) (key : jstring) (l : list (jstring * A)) : option A :=
  match l with
  | [] => None
  | (k, a) :: r => if jstring_eqb key k then Some a else assoc key r
  end.

(** The members of [Object.prototype], with what they print as. *)
Definition objectPrototype : list (jstring * jstring) :=
  (js "constructor", nativeFunction "Object")
  :: (js "__proto__", js "[object Object]")
  :: map (fun name => (js name, nativeFunction name))
       [ "hasOwnProperty"; "isPrototypeOf"; "propertyIsEnumerable";
         "toLocaleString"; "toString"; "valueOf";
         "__defineGetter__"; "__defineSetter__";
         "__lookupGetter__"; "__lookupSetter__" ]%string.

Definition objectPrototypeMember (key : jstring) : option jstring :=
  assoc key objectPrototype.

Definition readSlot (A : Type) (literal : list (jstring * A)) (key : jstring) : slot A :=
  match assoc key literal with
  | Some a => Own a
  | None =>
      match objectPrototypeMember key with
      | Some r => Inherited r
      | None => Missing
      end
  end.

(** [this.semanticAbbreviations] *)
Definition semanticAbbreviations : list (jstring * jstring) :=
  map (fun p => (js (fst p), js (snd p)))
    [ ("messageComplexity", "mc"); ("currentState", "cs");
      ("primaryEmotion", "e"); ("emotionalIntensity", "ei");
      ("confidence", "conf"); ("engagementLevel", "eng");
      ("emotionalShifts", "esh"); ("communicationStyle", "comm");
      ("topicEvolution", "topic"); ("dominantTopic", "dom");
      ("topicFlow", "flow"); ("transitions", "trans");
      ("engagementTrends", "etrend"); ("interactionPatterns", "ipat");
      ("emotionalTrends", "etrend"); ("problemSolvingApproach", "psa");
      ("personalityEvolution", "pers"); ("dominantTraits", "traits");
      ("cognitiveStyle", "cog"); ("decisionPatterns", "dec");
      ("learningVelocity", "lv"); ("emotionalProfile", "eprof");
      ("trend", "t"); ("current", "c"); ("baseline", "b");
      ("increasing", "inc"); ("decreasing", "dec"); ("stable", "stab");
      ("neutral", "neu"); ("positive", "pos"); ("negative", "neg");
      ("analytical", "ana"); ("creative", "cre"); ("practical", "prac");
      ("inquiry", "inq"); ("personal", "pers"); ("technical", "tech");
      ("sharing", "shr"); ("questioning", "que"); ("explaining", "exp") ]%string.

Record modelProfile := {
  maxContextTokens : Z;
  optimalIntelligenceTokens : Z;
  semanticUnderstanding : Q;
  compressionTolerance : Q
}.

(** [this.modelProfiles] *)
Definition modelProfiles : list (jstring * modelProfile) :=
  [ (js "gpt-4o",
     {| maxContextTokens := 128000; optimalIntelligenceTokens := 150;
        semanticUnderstanding := frac 95 100; compressionTolerance := frac 8 10 |});
    (js "claude-3",
     {| maxContextTokens := 200000; optimalIntelligenceTokens := 200;
        semanticUnderstanding := frac 92 100; compressionTolerance := frac 75 100 |});
    (js "gpt-4",
     {| maxContextTokens := 8000; optimalIntelligenceTokens := 100;
        semanticUnderstanding := frac 88 100; compressionTolerance := frac 85 100 |}) ].

Definition defaultProfile : modelProfile :=
  {| maxContextTokens := 128000; optimalIntelligenceTokens := 150;
     semanticUnderstanding := frac 95 100; compressionTolerance := frac 8 10 |}.

(** [typeMultipliers] of [calculateOptimalTokenBudget] *)
Definition typeMultipliers : list (jstring * Q) :=
  [ (js "greeting", frac 3 10); (js "standard", frac 1 1); (js "question", frac 12 10);
    (js "technical", frac 15 10); (js "analysis", frac 18 10);
    (js "emotional", frac 13 10); (js "creative", frac 14 10) ].

(** [strategyPriorities] of [calculateClusterPriorities] *)
Definition strategyPriorities : list (jstring * list (jstring * Q)) :=
  [ (js "minimal",
     [ (js "emotional", frac 1 1); (js "dynamic", frac 9 10); (js "core", frac 8 10);
       (js "contextual", frac 6 10); (js "predictive", frac 2 10);
       (js "behavioral", frac 3 10); (js "cognitive", frac 3 10) ]);
    (js "balanced",
     [ (js "emotional", frac 1 1); (js "dynamic", frac 95 100); (js "core", frac 9 10);
       (js "contextual", frac 8 10); (js "behavioral", frac 7 10);
       (js "cognitive", frac 6 10); (js "predictive", frac 6 10) ]);
    (js "comprehensive",
     [ (js "emotional", frac 1 1); (js "dynamic", frac 1 1); (js "core", frac 95 100);
       (js "contextual", frac 9 10); (js "behavioral", frac 8 10);
       (js "cognitive", frac 75 100); (js "predictive", frac 8 10) ]) ].

Definition balancedPriorities : list (jstring * Q) :=
  [ (js "emotional", frac 1 1); (js "dynamic", frac 95 100); (js "core", frac 9 10);
    (js "contextual", frac 8 10); (js "behavioral", frac 7 10);
    (js "cognitive", frac 6 10); (js "predictive", frac 6 10) ].

(** ** Token estimate and truncation *)

(** [estimateTokenCount(text)]: [Math.ceil(text.length / 4)] *)
Definition estimateTokenCount (text : jstring) : nat :=
  (List.length text + 3) / 4.

Definition numOfNat (n : nat) : num := numOfZ (Z.of_nat n).

(** The loop of [truncateToTokenLimit]: [result] and [tokenCount] so far. *)
Fixpoint truncateLoop (parts : list jstring) (tokenLimit : num)
                      (result : jstring) (tokenCount : nat) : jstring :=
  match parts with
  | [] => result
  | part :: rest =>
      let partTokens := estimateTokenCount (part ++ js ",") in
      if num_gt (numOfNat (tokenCount + partTokens)) tokenLimit then result
      else
        truncateLoop rest tokenLimit
          (result ++ (match result with [] => [] | _ => js "," end) ++ part)
          (tokenCount + partTokens)
  end.

(** [truncateToTokenLimit(text, tokenLimit)] *)
Definition truncateToTokenLimit (text : jstring) (tokenLimit : num) : jstring :=
  truncateLoop (split ","%char text) tokenLimit [] 0.

(** ** Abbreviations and values *)

(** What [getAbbreviation] returns: [null], [undefined], or something that
    prints as a text (an abbreviation, or an inherited member). *)
Inductive abbreviation : Type :=
| ANull
| AUndefined
| AText (s : jstring).

Definition lookupAbbreviation (term : jstring) : option jstring :=
  match readSlot semanticAbbreviations term with
  | Own a => Some a
  | Inherited r => Some r
  | Missing => None
  end.

(** [getAbbreviation(term)] *)
Definition getAbbreviation (term : value) : abbreviation :=
  match term with
  | VStr ((_ :: _) as s) =>
      match lookupAbbreviation s with
      | Some a => AText a
      | None =>
          match lookupAbbreviation (toLowerCase s) with
          | Some a => AText a
          | None => AUndefined
          end
      end
  | _ => ANull
  end.

(** [`${abbr}`] *)
Definition printAbbreviation (a : abbreviation) : jstring :=
  match a with
  | ANull => js "null"
  | AUndefined => js "undefined"
  | AText s => s
  end.

(** [x.toString()]: a [TypeError] on [undefined] and [null]. *)
Definition callToString (x : value) : result jstring :=
  if isNullish x then Throw else toString x.

(** [Number.isInteger(value) ? value : Math.round(value * 10) / 10], printed. *)
Definition compressNumber (m e : Z) : jstring :=
  let q := numQ m e in
  if Qeq_bool q (inject_Z (Qfloor q)) then numberToString m e
  else numberToString (mathRound (Qmult q (inject_Z 10))) (-1).

(** The callback of [value.map(...)] in [compressValue]. *)
Definition compressItem (item : value) : result jstring :=
  match getAbbreviation item with
  | AText a => Ok a
  | _ => s <- callToString item ;; Ok (firstn 1 s)
  end.

Fixpoint compressItems (items : list value) : result jstring :=
  match items with
  | [] => Ok []
  | item :: rest =>
      a <- compressItem item ;;
      r <- compressItems rest ;;
      Ok (a ++ r)
  end.

(** [compressValue(value)]; [None] is [null].  A number is returned as it
    prints, since the callers only ever print it. *)
Fixpoint compressValue (v : value) : result (option jstring) :=
  match v with
  | VNull | VUndef => Ok None
  | VStr s =>
      match getAbbreviation v with
      | AText a => Ok (Some a)
      | _ => Ok (Some (substringTo 8 s))
      end
  | VNum m e => Ok (Some (compressNumber m e))
  | VArr items => r <- compressItems items ;; Ok (Some r)
  | VObj props =>
      let trend := getOwn v (js "trend") in
      let current := getOwn v (js "current") in
      if truthy trend && truthy current then
        c <- toString current ;;
        Ok (Some (js "t-" ++ printAbbreviation (getAbbreviation trend)
                  ++ js ",c:" ++ c))
      else
        let emotion := getOwn v (js "emotion") in
        let intensity := getOwn v (js "intensity") in
        if truthy emotion && truthy intensity then
          i <- toString intensity ;;
          Ok (Some (printAbbreviation (getAbbreviation emotion)
                    ++ js "(" ++ i ++ js ")"))
        else
          match props with
          | (k, x) :: _ =>
              valueAbbr <- compressValue x ;;
              Ok (Some (printAbbreviation (getAbbreviation (VStr k)) ++ js ":"
                        ++ match valueAbbr with
                           | Some s => s
                           | None => js "null"
                           end))
          | [] => s <- callToString v ;; Ok (Some (substringTo 6 s))
          end
  | VBool _ => s <- callToString v ;; Ok (Some (substringTo 6 s))
  end.

(** The loop of [compressDataSemantically]: the [k:v] parts. *)
Fixpoint compressedParts (data : list (jstring * value)) : result (list jstring) :=
  match data with
  | [] => Ok []
  | (key, v) :: rest =>
      if jstring_eqb key (js "reliability") then compressedParts rest
      else
        let abbreviatedKey :=
          match getAbbreviation (VStr key) with
          | AText a => a
          | _ => substringTo 3 key
          end in
        compressedValue <- compressValue v ;;
        parts <- compressedParts rest ;;
        match compressedValue with
        | Some s => Ok ((abbreviatedKey ++ js ":" ++ s) :: parts)
        | None => Ok parts
        end
  end.

(** [[].join(',')] is the empty string. *)
Definition joinParts (parts : list jstring) : jstring := join (js ",") parts.

(** [compressDataSemantically(data, tokenLimit)] *)
Definition compressDataSemantically (data : list (jstring * value))
                                    (tokenLimit : num) : result jstring :=
  parts <- compressedParts data ;;
  let text := joinParts parts in
  if num_gt (numOfNat (estimateTokenCount text)) tokenLimit
  then Ok (truncateToTokenLimit text tokenLimit)
  else Ok text.

(** [formatSemanticCompressed(data, tokenLimit)] on an object that is
    there; the caller sees to a missing one. *)
Definition formatSemanticCompressed (data : list (jstring * value))
                                    (tokenLimit : num) : result jstring :=
  match data with
  | [] => Ok []
  | _ => compressDataSemantically data tokenLimit
  end.

(** ** Token budget *)

(** The receiver of [this.modelProfiles[model] || this.modelProfiles['gpt-4o']]:
    the [optimalIntelligenceTokens] and a tenth of the [maxContextTokens] of
    the profile, both [NaN] when the key names an inherited member. *)
Definition profileNumbers (key : jstring) : num * num :=
  let ofProfile (p : modelProfile) :=
    (numOfZ (optimalIntelligenceTokens p),
     Fin (Qmult (inject_Z (maxContextTokens p)) (frac 1 10))) in
  match readSlot modelProfiles key with
  | Own p => ofProfile p
  | Inherited _ => (NaN, NaN)
  | Missing => ofProfile defaultProfile
  end.

(** [calculateOptimalTokenBudget(model, messageType, complexity, conversationHistory)] *)
Definition calculateOptimalTokenBudget (model : value) (messageType : jstring)
    (complexity conversationHistory : value) : result num :=
  key <- toString model ;;
  let '(baseBudget, cap) := profileNumbers key in
  c <- toNumber complexity ;;
  let complexityMultiplier :=
    num_min (Fin (frac 2 1)) (num_add (Fin (frac 1 2)) (num_div c (Fin (frac 10 1)))) in
  let baseBudget := num_mul baseBudget complexityMultiplier in
  let typeMultiplier :=
    match readSlot typeMultipliers messageType with
    | Own q => Fin q
    | Inherited _ => NaN
    | Missing => Fin (frac 1 1)
    end in
  let baseBudget := num_mul baseBudget typeMultiplier in
  len <- getProp conversationHistory "length" ;;
  let historyLength := orElse len (VNum 0 0) in
  long <- gtNumber historyLength 10 ;;
  baseBudget <-
    (if long then Ok (num_mul baseBudget (Fin (frac 13 10)))
     else short <- ltNumber historyLength 3 ;;
          Ok (if short then num_mul baseBudget (Fin (frac 8 10)) else baseBudget)) ;;
  Ok (num_round (num_min baseBudget cap)).

(** [selectOptimalStrategy(clusteredIntelligence, tokenBudget, qualityTarget, model)] *)
Definition selectOptimalStrategy (tokenBudget : num) : jstring :=
  if num_lt tokenBudget (numOfZ 50) then js "minimal"
  else if num_gt tokenBudget (numOfZ 150) then js "comprehensive"
  else js "balanced".

(** ** Clustering *)

Definition cluster := list (jstring * value).

Definition str (s : string) : value := VStr (js s).
Definition dec1 (tenths : Z) : value := VNum tenths (-1).
Definition dec2 (hundredths : Z) : value := VNum hundredths (-2).

(** [a?.b?.c] from a receiver that is neither [undefined] nor [null]. *)
Definition path2 (v : value) (a b : string) : value := optProp (getOwn v (js a)) b.
Definition path3 (v : value) (a b c : string) : value := optProp (path2 v a b) c.

Definition extractPrimaryPersonality (intelligence : value) : result value :=
  let traits := orElse (path3 intelligence "macro" "personalityEvolution" "dominantTraits")
                       (VArr []) in
  some <- gtNumber (getOwn traits (js "length")) 0 ;;
  Ok (if some then getOwn traits (js "0") else str "analytical").

Definition extractCommunicationStyle (intelligence : value) : value :=
  orElse (path3 intelligence "micro" "communicationStyle" "tone") (str "balanced").

Definition extractCognitiveProfile (intelligence : value) : result value :=
  let complexity := orElse (path3 intelligence "micro" "messageComplexity" "current")
                           (VNum 5 0) in
  high <- gtNumber complexity 7 ;;
  if high then Ok (str "complex")
  else mid <- gtNumber complexity 4 ;;
       Ok (if mid then str "moderate" else str "simple").

(** [haystack.includes(needle)] on a value that is a string or [''], an
    array, or something without a callable [includes]. *)
Definition valueEqStr (v : value) (s : jstring) : bool :=
  match v with
  | VStr t => jstring_eqb t s
  | _ => false
  end.

Definition includesCall (haystack : value) (needle : string) : result bool :=
  match haystack with
  | VStr s => Ok (includes s (js needle))
  | VArr l => Ok (existsb (fun x => valueEqStr x (js needle)) l)
  | _ => Throw
  end.

Definition extractCurrentFocus (currentMoment : value) : result value :=
  t <- includesCall currentMoment "technical" ;;
  if t then Ok (str "technical")
  else p <- includesCall currentMoment "personal" ;;
       if p then Ok (str "personal")
       else c <- includesCall currentMoment "creative" ;;
            Ok (if c then str "creative" else str "general").

Definition buildContextualCluster (intelligence : value) (messageType : jstring)
                                  (complexity : value) : result cluster :=
  focus <- extractCurrentFocus
             (orElse (path2 intelligence "synthesis" "currentMoment") (VStr [])) ;;
  urgent <- gtNumber complexity 8 ;;
  Ok [ (js "messageType", VStr messageType);
       (js "complexity", complexity);
       (js "focus", focus);
       (js "urgency", if urgent then str "high" else str "normal");
       (js "reliability", dec1 8) ].

Definition predictUserNeeds (messageType : jstring) : value :=
  VArr
    ((if jstring_eqb messageType (js "question")
      then [str "detailed explanation"; str "examples"] else [])
     ++ (if jstring_eqb messageType (js "technical")
         then [str "precise information"; str "implementation details"] else [])
     ++ (if jstring_eqb messageType (js "emotional")
         then [str "empathy"; str "support"; str "understanding"] else [])).

Definition predictOptimalResponse (complexity : value) : result value :=
  high <- gtNumber complexity 7 ;;
  if high then Ok (str "comprehensive-analytical")
  else low <- ltNumber complexity 4 ;;
       Ok (if low then str "simple-direct" else str "balanced-informative").

Definition predictNextInteraction (intelligence : value) : value :=
  let patterns := orElse (path2 intelligence "medium" "interactionPatterns") (VObj []) in
  orElse (getOwn patterns (js "likelyNext")) (str "follow-up-question").

Definition clusterNames : list jstring :=
  [ js "core"; js "dynamic"; js "contextual"; js "predictive";
    js "behavioral"; js "emotional"; js "cognitive" ].

(** [clusterIntelligenceData(intelligenceContext, messageType, complexity)]:
    the seven clusters, in the order of the object literal. *)
Definition clusterIntelligenceData (intelligenceContext : value)
    (messageType : jstring) (complexity : value)
  : result (list (jstring * cluster)) :=
  if negb (truthy intelligenceContext) then
    Ok (map (fun name => (name, [])) clusterNames)
  else
    let ctx := intelligenceContext in
    primaryPersonality <- extractPrimaryPersonality ctx ;;
    cognitiveProfile <- extractCognitiveProfile ctx ;;
    contextual <- buildContextualCluster ctx messageType complexity ;;
    optimalResponse <- predictOptimalResponse complexity ;;
    Ok [ (js "core",
          [ (js "primaryPersonality", primaryPersonality);
            (js "communicationStyle", extractCommunicationStyle ctx);
            (js "cognitiveProfile", cognitiveProfile);
            (js "reliability", dec1 9) ]);
         (js "dynamic",
          [ (js "currentState", orElse (path2 ctx "micro" "currentState") (VObj []));
            (js "engagementLevel",
             orElse (path3 ctx "medium" "engagementTrends" "overall") (str "moderate"));
            (js "recentPattern",
             orElse (path2 ctx "synthesis" "currentMoment") (VStr []));
            (js "emotionalState",
             orElse (path2 ctx "micro" "emotionalShifts") (VArr []));
            (js "reliability", dec1 7) ]);
         (js "contextual", contextual);
         (js "predictive",
          [ (js "likelyNeeds", predictUserNeeds messageType);
            (js "optimalResponse", optimalResponse);
            (js "nextInteraction", predictNextInteraction ctx);
            (js "reliability", dec1 6) ]);
         (js "behavioral",
          [ (js "decisionMaking",
             orElse (path2 ctx "macro" "decisionPatterns") (VObj []));
            (js "interactionStyle",
             orElse (path2 ctx "medium" "interactionPatterns") (VObj []));
            (js "learningStyle",
             orElse (path2 ctx "macro" "learningVelocity") (VObj []));
            (js "reliability", dec1 8) ]);
         (js "emotional",
          [ (js "current",
             orElse (path3 ctx "micro" "currentState" "primaryEmotion") (str "neutral"));
            (js "intensity",
             orElse (path3 ctx "micro" "currentState" "emotionalIntensity") (VNum 5 0));
            (js "confidence",
             orElse (path3 ctx "micro" "currentState" "confidence")
                    (str "baseline_established"));
            (js "recentShifts",
             orElse (path2 ctx "micro" "emotionalShifts") (VArr []));
            (js "baseline",
             orElse (path2 ctx "macro" "emotionalProfile") (VObj []));
            (js "patterns",
             orElse (path2 ctx "medium" "emotionalTrends") (VObj []));
            (js "reliability", dec2 85) ]);
         (js "cognitive",
          [ (js "complexity",
             orElse (path2 ctx "micro" "messageComplexity") (VObj []));
            (js "processing",
             orElse (path2 ctx "macro" "cognitiveStyle") (VObj []));
            (js "problemSolving",
             orElse (path2 ctx "medium" "problemSolvingApproach") (VObj []));
            (js "reliability", dec2 85) ]) ].

(** ** Priorities and allocation *)

(** [calculateDataRichness(cluster)] *)
Definition calculateDataRichness (c : option cluster) : Q :=
  match c with
  | None => frac 1 10
  | Some props =>
      let tenth := Qdiv (inject_Z (Z.of_nat (List.length props))) (inject_Z 10) in
      if Qle_bool (inject_Z 1) tenth then inject_Z 1 else tenth
  end.

Record priorityEntry := {
  priority : num;
  reliability : value;
  dataRichness : Q
}.

(** The table [strategyPriorities[strategy] || strategyPriorities.balanced];
    an inherited member has no entries to enumerate. *)
Definition basePriorities (key : jstring) : list (jstring * Q) :=
  match readSlot strategyPriorities key with
  | Own table => table
  | Inherited _ => []
  | Missing => balancedPriorities
  end.

Fixpoint priorityLoop (clusters : list (jstring * cluster))
                      (base : list (jstring * Q))
  : result (list (jstring * priorityEntry)) :=
  match base with
  | [] => Ok []
  | (clusterName, basePriority) :: rest =>
      let c := assoc clusterName clusters in
      let rel :=
        orElse (match c with
                | Some props => getOwn (VObj props) (js "reliability")
                | None => VUndef
                end) (dec1 5) in
      let richness := calculateDataRichness c in
      r <- toNumber rel ;;
      more <- priorityLoop clusters rest ;;
      Ok ((clusterName,
           {| priority := num_mul (num_mul (Fin basePriority) r) (Fin richness);
              reliability := rel;
              dataRichness := richness |}) :: more)
  end.

(** [calculateClusterPriorities(clusteredIntelligence, strategy, modelProfile)] *)
Definition calculateClusterPriorities (clusters : list (jstring * cluster))
    (strategy : value) : result (list (jstring * priorityEntry)) :=
  key <- toString strategy ;;
  priorityLoop clusters (basePriorities key).

Record allocationEntry := {
  tokens : num;
  allocPriority : num;
  proportion : num
}.

(** [allocateTokensByPriority(clusterPriorities, totalTokenBudget)] *)
Definition allocateTokensByPriority (priorities : list (jstring * priorityEntry))
    (totalTokenBudget : num) : list (jstring * allocationEntry) :=
  let totalWeightedPriority :=
    fold_left (fun sum p => num_add sum (priority (snd p))) priorities (numOfZ 0) in
  map (fun p =>
         let share := num_div (priority (snd p)) totalWeightedPriority in
         (fst p,
          {| tokens := num_round (num_mul totalTokenBudget share);
             allocPriority := priority (snd p);
             proportion := share |}))
      priorities.

(** ** Compression of a cluster *)

(** [extractEssentialData], [extractImportantData], [extractDetailedData] *)
Definition extractEssentialData (clusterData : cluster) : cluster :=
  firstn 2 clusterData.

Definition extractImportantData (clusterData : cluster) : cluster :=
  firstn ((List.length clusterData + 1) / 2) clusterData.

Definition extractDetailedData (clusterData : cluster) : cluster :=
  filter (fun p => negb (jstring_eqb (fst p) (js "reliability"))) clusterData.

(** [compressCluster(clusterData, tokenLimit, priority, model)]; [None] is
    [null]. *)
Definition compressCluster (clusterData : option cluster) (tokenLimit : num)
  : result (option jstring) :=
  match clusterData with
  | None => Ok None
  | Some data =>
      if num_le tokenLimit (numOfZ 0) then Ok None
      else if num_lt tokenLimit (numOfZ 20) then
        s <- formatSemanticCompressed (extractEssentialData data) tokenLimit ;;
        Ok (Some s)
      else if num_lt tokenLimit (numOfZ 50) then
        s <- formatSemanticCompressed (extractImportantData data) tokenLimit ;;
        Ok (Some s)
      else
        s <- formatSemanticCompressed (extractDetailedData data) tokenLimit ;;
        Ok (Some s)
  end.

Fixpoint compressLoop (clusters : list (jstring * cluster))
                      (allocation : list (jstring * allocationEntry))
  : result (list (jstring * option jstring)) :=
  match allocation with
  | [] => Ok []
  | (clusterName, a) :: rest =>
      if num_gt (tokens a) (numOfZ 0) then
        c <- compressCluster (assoc clusterName clusters) (tokens a) ;;
        more <- compressLoop clusters rest ;;
        Ok ((clusterName, c) :: more)
      else compressLoop clusters rest
  end.

(** [performPredictiveCompression(clusteredIntelligence, strategy, tokenBudget, model)] *)
Definition performPredictiveCompression (clusters : list (jstring * cluster))
    (strategy : value) (tokenBudget : num)
  : result (list (jstring * option jstring)) :=
  priorities <- calculateClusterPriorities clusters strategy ;;
  compressLoop clusters (allocateTokensByPriority priorities tokenBudget).

(** ** Assembly of the prompt *)

(** The own enumerable properties of a string: its characters under their
    indices.  [Object.entries] and the spread [{...s}] both see these. *)
Fixpoint charEntriesFrom (i : nat) (s : jstring) : list (jstring * value) :=
  match s with
  | [] => []
  | c :: r => (intToString (Z.of_nat i), VStr [c]) :: charEntriesFrom (S i) r
  end.

Definition charEntries (s : jstring) : list (jstring * value) := charEntriesFrom 0 s.

(** [{...a, ...b}] for two strings: at an index both have, [b] wins. *)
Definition spreadStrings (a b : jstring) : jstring :=
  b ++ skipn (List.length b) a.

(** [compressedContext.name], when it is truthy. *)
Definition section (compressedContext : list (jstring * option jstring))
                   (name : string) : jstring :=
  match assoc (js name) compressedContext with
  | Some (Some s) => s
  | _ => []
  end.

(** One [if (...) { const compressed = ...; if (compressed) sections.push(...) }] *)
Definition pushSection (tag : string) (text : jstring) (limit : Z)
  : result (list jstring) :=
  match text with
  | [] => Ok []
  | _ =>
      compressed <- formatSemanticCompressed (charEntries text) (numOfZ limit) ;;
      match compressed with
      | [] => Ok []
      | _ => Ok [js tag ++ js "{" ++ compressed ++ js "}"]
      end
  end.

Definition isString (v : value) (s : string) : bool := valueEqStr v (js s).

(** [generateOptimizedPrompt(compressedContext, messageType, strategy)] *)
Definition generateOptimizedPrompt (compressedContext : list (jstring * option jstring))
    (strategy : value) : result jstring :=
  micro <- pushSection "MICRO"
             (spreadStrings (section compressedContext "emotional")
                            (section compressedContext "dynamic")) 30 ;;
  topic <- pushSection "TOPIC" (section compressedContext "contextual") 25 ;;
  core <- pushSection "CORE" (section compressedContext "core") 25 ;;
  behav <- (if negb (isString strategy "minimal")
            then pushSection "BEHAV" (section compressedContext "behavioral") 20
            else Ok []) ;;
  cog <- (if negb (isString strategy "minimal")
          then pushSection "COG" (section compressedContext "cognitive") 20
          else Ok []) ;;
  pred <- (if isString strategy "comprehensive"
           then pushSection "PRED" (section compressedContext "predictive") 15
           else Ok []) ;;
  Ok (join (js " ") (micro ++ topic ++ core ++ behav ++ cog ++ pred)).

(** ** [compressForLLM] *)

(** The [options] argument, a field being [VUndef] when the caller left it
    out. *)
Record options := {
  model : value;
  tokenBudget : value;
  qualityTarget : value;
  conversationHistory : value;
  userPreferences : value;
  forceStrategy : value
}.

Definition noOptions : options :=
  {| model := VUndef; tokenBudget := VUndef; qualityTarget := VUndef;
     conversationHistory := VUndef; userPreferences := VUndef;
     forceStrategy := VUndef |}.

(** A default of a parameter or of the destructuring. *)
Definition orDefault (v d : value) : value :=
  match v with
  | VUndef => d
  | _ => v
  end.

(** The [metadata] of a result; the measured figures ([compressionRatio],
    [qualityScore], [processingTime], [optimization]) are not represented. *)
Inductive metadata : Type :=
| Compressed (strategy : value) (budget : num) (actualTokens : nat)
             (usedModel : value) (intelligenceClusters : list jstring)
| Fallback.

Record compression := {
  compressedPrompt : jstring;
  meta : metadata
}.

(** [optimizeCompressionQuality]: the comparison
    [currentQuality >= qualityTarget] converts [qualityTarget] to a number;
    both branches return the context as it is. *)
Definition optimizeCompressionQuality (A : Type) (compressedContext : A)
                                      (qualityTarget : value) : result A :=
  _ <- toNumber qualityTarget ;; Ok compressedContext.

(** [calculateCompressionMetrics]: [JSON.stringify(original).length] is a
    [TypeError] when [original] is [undefined]. *)
Definition calculateCompressionMetrics (original : value) : result unit :=
  match original with
  | VUndef => Throw
  | _ => Ok tt
  end.

(** [getFallbackCompression(intelligenceContext, messageType)] *)
Definition getFallbackCompression (messageType : jstring) : compression :=
  {| compressedPrompt :=
       js "User shows " ++ messageType ++ js " communication pattern.";
     meta := Fallback |}.

(** The body of the [try] block.  The cache the source updates before it
    returns is written and never read, and writing it cannot throw; it is
    left out. *)
Definition compressSteps (intelligenceContext : value) (messageType : jstring)
                         (complexity usedModel qualityTarget history forced : value)
  : result compression :=
  tokenBudget_calc <-
    calculateOptimalTokenBudget usedModel messageType complexity history ;;
  clusteredIntelligence <-
    clusterIntelligenceData intelligenceContext messageType complexity ;;
  let strategy :=
    if truthy forced then forced
    else VStr (selectOptimalStrategy tokenBudget_calc) in
  compressedContext <-
    performPredictiveCompression clusteredIntelligence strategy tokenBudget_calc ;;
  optimizedContext <- optimizeCompressionQuality compressedContext qualityTarget ;;
  finalPrompt <- generateOptimizedPrompt optimizedContext strategy ;;
  _ <- calculateCompressionMetrics intelligenceContext ;;
  Ok {| compressedPrompt := finalPrompt;
        meta := Compressed strategy tokenBudget_calc
                  (estimateTokenCount finalPrompt) usedModel
                  (map fst clusteredIntelligence) |}.

(** [compressForLLM(intelligenceContext, messageType, complexity, options)]
    with [messageType] a string and [options] an object. *)
Definition compressForLLM (intelligenceContext : value) (messageType : jstring)
                          (complexity : value) (opts : options) : compression :=
  let complexity := orDefault complexity (VNum 5 0) in
  let usedModel := orDefault (model opts) (str "gpt-4o") in
  let qualityTarget := orDefault (qualityTarget opts) (dec2 85) in
  let history := orDefault (conversationHistory opts) (VArr []) in
  let forced := orDefault (forceStrategy opts) VNull in
  match compressSteps intelligenceContext messageType complexity usedModel
                      qualityTarget history forced with
  | Ok r => r
  | Throw => getFallbackCompression messageType
  end.

End Compressor.

(* ================================================================== *)
(** * routes/emotions.js: POST /emotions *)
(* ================================================================== *)

Module Emotions.

Definition typeofString (v : value) : bool :=
  match v with VStr _ => true | _ => false end.

Definition typeofNumber (v : value) : bool :=
  match v with VNum _ _ => true | _ => false end.

(** What the route answers: a status, and the entry pushed to the user's
    emotional log when there is one. *)
Record outcome := {
  status : nat;
  pushed : option value
}.

Definition reject (code : nat) : outcome := {| status := code; pushed := None |}.

(** [notes?.trim() || undefined]; a value that is neither nullish nor a
    string has no [trim] to call. *)
Definition notesContext (notes : value) : result value :=
  match notes with
  | VUndef | VNull => Ok VUndef
  | VStr s => Ok (orElse (VStr (trim s)) VUndef)
  | _ => Throw
  end.

(** The handler of [router.post("/")], for a parsed JSON body and the
    result of [User.findById].  The [timestamp] of the entry is a [Date]
    and is not represented. *)
Definition postEmotion (body : value) (userFound : bool) : outcome :=
  match getProp body "mood", getProp body "intensity", getProp body "notes" with
  | Ok mood, Ok intensity, Ok notes =>
      let moodOk :=
        match mood with
        | VStr s => truthy mood && negb (Nat.eqb (List.length (trim s)) 0)
        | _ => false
        end in
      if negb moodOk then reject 400
      else
        let inRange :=
          match intensity with
          | VNum m e =>
              negb (num_lt (Fin (numQ m e)) (numOfZ 1))
              && negb (num_gt (Fin (numQ m e)) (numOfZ 10))
          | _ => false
          end in
        if negb inRange then reject 400
        else if negb userFound then reject 404
        else
          match notesContext notes, mood with
          | Ok context, VStr s =>
              {| status := 201;
                 pushed :=
                   Some (VObj [ (js "emotion", VStr (trim s));
                                (js "intensity", intensity);
                                (js "context", context);
                                (js "timeZone", orElse (getOwn body (js "timeZone")) VUndef);
                                (js "deviceInfo", orElse (getOwn body (js "deviceInfo")) VUndef) ]) |}
          | _, _ => reject 500
          end
  | _, _, _ => reject 500
  end.

End Emotions.

(* ================================================================== *)
(** * The first completion endpoint: one request to the LLM, no stream *)
(* ================================================================== *)

(** The route at the head of the file that also holds the llama.cpp
    variant.  Its [extractJsonPattern] and its two regular expressions are
    those of routes/completion.js, word for word. *)
Module Legacy.

(** [/MARKER:?/g] at the head of [s]. *)
Definition markerName (marker s : jstring) : option nat :=
  if startsWith s marker then
    match skipn (List.length marker) s with
    | c :: _ =>
        if Ascii.eqb c ":"%char then Some (S (List.length marker))
        else Some (List.length marker)
    | [] => Some (List.length marker)
    end
  else None.

(** [s.includes("TASK_INFERENCE") || s.includes("EMOTION_LOG")] *)
Definition hasMarkerName (s : jstring) : bool :=
  includes s TASK_INFERENCE || includes s EMOTION_LOG.

(** The chain of [replace] calls on [botReplyContent]. *)
Definition stripChain (botReplyContent : jstring) : jstring :=
  trim
    (replaceAll blankLines [LF]
      (replaceAll jsonFence []
        (replaceAll (markerName EMOTION_LOG) []
          (replaceAll (markerName TASK_INFERENCE) []
            (replaceAll (markerOptJson EMOTION_LOG) []
              (replaceAll (markerOptJson TASK_INFERENCE) []
                (replaceAll imToken [] botReplyContent))))))).

(** The chain and the emergency cleanup that follows it. *)
Definition stripMarkers (botReplyContent : jstring) : jstring :=
  let cleaned := stripChain botReplyContent in
  if hasMarkerName cleaned then
    trim (join [LF]
            (filter (fun line => negb (includes line TASK_INFERENCE)
                                 && negb (includes line EMOTION_LOG))
                    (split LF cleaned)))
  else cleaned.

Definition shortApology : jstring :=
  js "I'm sorry, I wasn't able to provide a proper response.".

(** What the route answers. *)
Inductive answer : Type :=
| Content (content : jstring)
| ServerError.

Section Handler.

(** [sanitizeResponse] of utils/sanitize.js, which is not part of the
    sources at hand. *)
Variable sanitizeResponse : jstring -> jstring.

(** The handler from the answer of the LLM on.  [llmContent] is
    [llmData.content], or the empty string when that is falsy.  The blocks
    that log the emotion and create the task are those of
    routes/completion.js, with [inferredEmotion && inferredEmotion.emotion]
    in the place of [inferredEmotion?.emotion], which is truthy for the same
    values. *)
Definition respond (llmContent userPrompt : jstring) (u : userId) (d : db)
  : db * answer :=
  let '(inferredEmotion, botReplyContent) :=
    extractJsonPattern METADATA_PATTERNS_emotion llmContent in
  let '(inferredTask, botReplyContent) :=
    extractJsonPattern METADATA_PATTERNS_task botReplyContent in
  let botReplyContent := sanitizeResponse (stripMarkers botReplyContent) in
  let d :=
    insertMany
      [ {| mem_userId := u; mem_content := userPrompt; mem_role := user |};
        {| mem_userId := u;
           mem_content := match botReplyContent with
                          | [] => shortApology
                          | _ => botReplyContent
                          end;
           mem_role := assistant |} ] d in
  match Completion.emotionToLog inferredEmotion userPrompt with
  | Throw => (d, ServerError)
  | Ok e =>
      let d := match e with Some entry => pushEmotion u entry d | None => d end in
      let d := match Completion.taskToCreate u inferredTask with
               | Some t => createTask t d
               | None => d
               end in
      let botReplyContent := sanitizeResponse botReplyContent in
      (d, Content (if hasMarkerName botReplyContent then fallbackText
                   else botReplyContent))
  end.

End Handler.

End Legacy.

(* ================================================================== *)
(** * Parameters of the request, llama.cpp variant *)
(* ================================================================== *)

Module Request.

(** [Math.min(req.body.n_predict || 500, 1000)] *)
Definition n_predict (body : value) : result num :=
  v <- getProp body "n_predict" ;;
  x <- toNumber (orElse v (VNum 500 0)) ;;
  Ok (Compressor.num_min x (numOfZ 1000)).

(** [Math.min(req.body.temperature || 0.7, 0.85)] *)
Definition temperature (body : value) : result num :=
  v <- getProp body "temperature" ;;
  x <- toNumber (orElse v (VNum 7 (-1))) ;;
  Ok (Compressor.num_min x (Fin (Compressor.frac 85 100))).

End Request.

(* ================================================================== *)
(** * models/User.js *)
(* ================================================================== *)

Module UserModel.

(** [subscription.numinaTrace]: the dates are milliseconds since the
    epoch, [None] is [null]. *)
Record numinaTrace := {
  isActive : bool;
  endDate : option Z;
  cancelledAt : option Z
}.

(** [hasActiveNuminaTrace()]; [now1] and [now2] are what the two
    [new Date()] of the method give. *)
Definition hasActiveNuminaTrace (trace : option numinaTrace) (now1 now2 : Z) : bool :=
  match trace with
  | None => false
  | Some t =>
      if negb (isActive t) then false
      else if match endDate t with
              | Some e => (e <? now1)%Z
              | None => false
              end then false
      else if match cancelledAt t with
              | Some c => (c <? now2)%Z
              | None => false
              end then false
      else true
  end.

End UserModel.

(* ================================================================== *)
(** * Vocabulary of the properties *)
(* ================================================================== *)

Module Props.

(** The characters markers are made of: [A-Z] and the underscore. *)
Definition markerChar (c : ascii) : bool :=
  let n := nat_of_ascii c in
  (Nat.leb 65 n && Nat.leb n 90) || Nat.eqb n 95.

Definition isMarker (m : jstring) : Prop :=
  m = EMOTION_LOG \/ m = TASK_INFERENCE.

(** A chunk the llama.cpp variant may write: the terminal event, the error
    event, or a content event whose delta holds no marker literal. *)
Definition cleanChunk (chunk : jstring) : Prop :=
  chunk = DONE_EVENT \/ chunk = Optimized.errorEvent \/
  exists c, chunk = contentEvent (VStr c) /\ Optimized.hasMarker c = false.

(** A terminal or error event: anything but a content event. *)
Definition controlChunk (chunk : jstring) : Prop :=
  chunk = DONE_EVENT \/ chunk = Optimized.errorEvent.

(** The accumulated buffer holds one of the stop sequences. *)
Definition stopped (stop : list jstring) (st : Optimized.state) : Prop :=
  exists s, In s stop /\ includes (Optimized.fullContent st) s = true.

(** Everything written so far is clean. *)
Definition clean (st : Optimized.state) : Prop :=
  Forall cleanChunk (written (Optimized.res st)).

(** [st'] has written what [st] had, and then control events only. *)
Definition extends (st st' : Optimized.state) : Prop :=
  exists extra,
    written (Optimized.res st') = written (Optimized.res st) ++ extra /\
    Forall controlChunk extra.

(** The status is 200 and the response is not ended before the stream is. *)
Definition open (st : Optimized.state) : Prop :=
  statusCode (Optimized.res st) = 200 /\
  (Optimized.streamEnded st = false -> finished (Optimized.res st) = false).

(** routes/completion.js while only data arrives: status 200, the store
    untouched, and the response ended only by relaying [[DONE]]. *)
Definition relaying (d : db) (st : Completion.state) : Prop :=
  statusCode (Completion.res st) = 200 /\ Completion.store st = d /\
  (finished (Completion.res st) = true ->
   In DONE_EVENT (written (Completion.res st))).

(** routes/completion.js: the status is 200 unless the response has ended. *)
Definition settled (st : Completion.state) : Prop :=
  statusCode (Completion.res st) = 200 \/ finished (Completion.res st) = true.

(** ** Marker occurrences, in the words of the pattern *)





(** The intensity of an emotion entry is absent, or a number between 1
    and 10. *)
Definition intensityInRange (entry : value) : Prop :=
  match entry with
  | VObj l =>
      match lookup (js "intensity") l with
      | None | Some VUndef => True
      | Some (VNum m e) => (1 <= numQ m e)%Q /\ (numQ m e <= 10)%Q
      | Some _ => False
      end
  | _ => False
  end.



(** The compressor: an upper bound of the length of [parts.join(' ')], every
    part counted with one separator. *)
Definition weight (parts : list jstring) : nat :=
  fold_right (fun part n => List.length part + 1 + n) 0 parts.

(** The strategy the specification gives to a budget: at most 50 is
    [minimal], at least 150 is [comprehensive], [balanced] in between. *)
Definition specStrategy (tokenBudget : num) : jstring :=
  if num_le tokenBudget (numOfZ 50) then js "minimal"
  else if num_ge tokenBudget (numOfZ 150) then js "comprehensive"
  else js "balanced".

(** What a number is bounded by: [NaN] and the negative infinity are, a
    finite number is when it is at most [b]. *)
Definition atMost (b : Q) (a : num) : Prop :=
  match a with
  | NaN | NegInf => True
  | Fin x => (x <= b)%Q
  | PosInf => False
  end.

(** What the client has been sent is a run of content events, closed by
    one terminal event exactly when the response has ended. *)
Definition framed (terminal : jstring -> Prop) (contents : list value)
                  (r : response) : Prop :=
  (finished r = false /\ written r = map contentEvent contents) \/
  (finished r = true /\
   exists t, terminal t /\ written r = map contentEvent contents ++ [t]).

(** The events that close a response of routes/completion.js. *)
Definition completionTerminal (t : jstring) : Prop :=
  t = DONE_EVENT \/ exists message, t = Completion.errorEvent message.

(** The status line of routes/completion.js: 200, or 500 with the error
    event as the whole body. *)
Definition completionStatus (r : response) : Prop :=
  statusCode r = 200 \/
  (statusCode r = 500 /\ finished r = true /\
   exists message, written r = [Completion.errorEvent message]).

(** The invariant of the response of routes/completion.js. *)
Definition completionInv (r : response) : Prop :=
  (exists contents, framed completionTerminal contents r) /\
  (headersSent r = false -> written r = [] /\ finished r = false) /\
  completionStatus r.

(** The invariant of the llama.cpp variant: the wire is framed, at most
    [tokenCap] content events were written, and while the stream is open
    the response is, with a token count that covers what was written. *)
Definition capped (st : Optimized.state) : Prop :=
  exists contents : list jstring,
    List.length contents <= Optimized.tokenCap /\
    framed controlChunk (map VStr contents) (Optimized.res st) /\
    (Optimized.streamEnded st = false ->
     finished (Optimized.res st) = false /\
     List.length contents <= Optimized.tokenCount st /\
     Optimized.tokenCount st <= Optimized.tokenCap).

(** Two states of a request of the llama.cpp variant that differ at most
    in the line buffer, and not even there while the stream is open. *)
Definition sameRequest (a b : Optimized.state) : Prop :=
  Optimized.fullContent a = Optimized.fullContent b /\
  Optimized.tokenCount a = Optimized.tokenCount b /\
  Optimized.streamEnded a = Optimized.streamEnded b /\
  Optimized.timerArmed a = Optimized.timerArmed b /\
  Optimized.upstreamDestroyed a = Optimized.upstreamDestroyed b /\
  Optimized.res a = Optimized.res b /\
  Optimized.store a = Optimized.store b /\
  (Optimized.streamEnded a = false -> Optimized.buffer a = Optimized.buffer b).

(** The state with another line buffer. *)
Definition setBuffer (b : jstring) (st : Optimized.state) : Optimized.state :=
  {| Optimized.buffer := b;
     Optimized.fullContent := Optimized.fullContent st;
     Optimized.tokenCount := Optimized.tokenCount st;
     Optimized.streamEnded := Optimized.streamEnded st;
     Optimized.timerArmed := Optimized.timerArmed st;
     Optimized.upstreamDestroyed := Optimized.upstreamDestroyed st;
     Optimized.res := Optimized.res st;
     Optimized.store := Optimized.store st |}.

(** The JSON text of an upstream line of routes/completion.js that carries
    the delta [s]. *)
Definition choicesPayload (s : jstring) : jstring :=
  jq "{'choices':[{'delta':{'content':" ++ quote s ++ js "}}]}".

(** The JSON text of an upstream line of the llama.cpp variant that carries
    the delta [s], which is also the text of the content event. *)
Definition contentPayload (s : jstring) : jstring :=
  jq "{'content':" ++ quote s ++ js "}".

(** The text of a Buffer whose bytes are all below 0x80: [toString] gives
    one code unit for each byte, the byte itself, so that the text of such
    Buffers put end to end is their texts put end to end. *)
Definition asciiText (chunk : jstring) : bool :=
  forallb (fun c => Nat.ltb (nat_of_ascii c) 128) chunk.

(** The length of the run of line feeds at the head of [s]. *)
Fixpoint lfRun (s : jstring) : nat :=
  match s with
  | c :: r => if Ascii.eqb c LF then S (lfRun r) else 0
  | [] => 0
  end.

End Props.
Export Props.

(* ================================================================== *)
(** * Facts about strings *)
(* ================================================================== *)

Module StringFacts.

Lemma startsWith_spec (s p : jstring) :
  startsWith s p = true <-> exists r, s = p ++ r.
Proof.
  revert s; induction p as [|c p IH]; intros s; simpl.
  - split; [intros _; now exists s | reflexivity].
  - destruct s as [|d s]; simpl.
    + split; [discriminate | intros [r Hr]; discriminate].
    + rewrite andb_true_iff, IH. split.
      * intros [Hc [r ->]]. apply Ascii.eqb_eq in Hc. subst. now exists r.
      * intros [r Hr]. injection Hr as -> ->. split.
        -- apply Ascii.eqb_refl.
        -- now exists r.
Qed.

Lemma includes_spec (s p : jstring) :
  includes s p = true <-> substring_of p s.
Proof.
  unfold substring_of. induction s as [|c s IH]; simpl.
  - rewrite orb_false_r, startsWith_spec. split.
    + intros [r Hr]. now exists [], r.
    + intros [pre [post H]]. destruct pre; simpl in H.
      * now exists post.
      * discriminate.
  - rewrite orb_true_iff, startsWith_spec, IH. split.
    + intros [[r Hr] | [pre [post H]]].
      * now exists [], r.
      * exists (c :: pre), post. simpl. now rewrite H.
    + intros [pre [post H]]. destruct pre as [|d pre]; simpl in H.
      * left. now exists post.
      * right. injection H as -> ->. now exists pre, post.
Qed.

Lemma includes_false_spec (s p : jstring) :
  includes s p = false <-> ~ substring_of p s.
Proof.
  rewrite <- includes_spec. destruct (includes s p); split; intro H;
    try reflexivity; try discriminate; try congruence.
Qed.

Lemma substring_of_app_l (p a b : jstring) :
  substring_of p a -> substring_of p (a ++ b).
Proof.
  intros [pre [post ->]]. exists pre, (post ++ b).
  now rewrite <- !app_assoc.
Qed.

Lemma substring_of_app_r (p a b : jstring) :
  substring_of p b -> substring_of p (a ++ b).
Proof.
  intros [pre [post ->]]. exists (a ++ pre), post.
  now rewrite <- !app_assoc.
Qed.

Lemma includes_app_l (p a b : jstring) :
  includes a p = true -> includes (a ++ b) p = true.
Proof. rewrite !includes_spec. apply substring_of_app_l. Qed.

Lemma includes_app_r (p a b : jstring) :
  includes b p = true -> includes (a ++ b) p = true.
Proof. rewrite !includes_spec. apply substring_of_app_r. Qed.

(** An occurrence of [p] in [a ++ b] lies in [a], lies in [b], or
    straddles the seam; in the last case the head of [b] is a character of
    [p]. *)
Lemma substring_of_app_cases (p a b : jstring) :
  substring_of p (a ++ b) ->
  substring_of p a \/ substring_of p b \/
  exists c b', b = c :: b' /\ In c p.
Proof.
  intros [pre [post H]].
  apply app_eq_app in H. destruct H as [l [[Ha Hl] | [Hpre Hb]]].
  - apply app_eq_app in Hl.
    destruct Hl as [l' [[Hp Hb] | [Hl Hpost]]].
    + destruct l' as [|c l'].
      * left. exists pre, []. rewrite app_nil_r in Hp. subst.
        now rewrite app_nil_r.
      * right; right. exists c, (l' ++ post). split.
        -- now subst.
        -- subst p. apply in_or_app. right. now left.
    + left. exists pre, l'. now subst.
  - right; left. exists l, post. now subst.
Qed.

(** If the head of [b] is foreign to [p], no occurrence of [p] straddles
    the seam of [a ++ b]. *)
Lemma includes_app_false (p a b : jstring) :
  includes a p = false ->
  includes b p = false ->
  (forall c b', b = c :: b' -> ~ In c p) ->
  includes (a ++ b) p = false.
Proof.
  rewrite !includes_false_spec. intros Ha Hb Hhead H.
  apply substring_of_app_cases in H.
  destruct H as [H | [H | [c [b' [Hb' Hin]]]]]; auto.
  now apply (Hhead c b').
Qed.

(** A character other than the head of [p] can be dropped in front. *)
Lemma includes_cons_other (x m0 : ascii) (s m : jstring) :
  x <> m0 -> includes (x :: s) (m0 :: m) = includes s (m0 :: m).
Proof.
  intros Hx. simpl.
  destruct (Ascii.eqb_spec m0 x) as [E|E]; [congruence|reflexivity].
Qed.

Lemma includes_prefix_other (pre s m : jstring) (m0 : ascii) :
  Forall (fun x => x <> m0) pre ->
  includes (pre ++ s) (m0 :: m) = includes s (m0 :: m).
Proof.
  induction 1 as [|x pre Hx _ IH]; simpl app.
  - reflexivity.
  - now rewrite includes_cons_other.
Qed.

End StringFacts.
Import StringFacts.

(* ================================================================== *)
(** * Markers never reach the wire of the llama.cpp variant *)
(* ================================================================== *)

Module WireFacts.

Lemma quoteChar_marker (c : ascii) :
  markerChar c = true -> quoteChar c = [c].
Proof.
  destruct c as [[] [] [] [] [] [] [] []]; intros H;
    try discriminate H; reflexivity.
Qed.

Lemma quoteChar_other (c : ascii) :
  markerChar c = false ->
  exists y ys, quoteChar c = y :: ys /\
               forallb (fun x => negb (markerChar x)) (y :: ys) = true.
Proof.
  destruct c as [[] [] [] [] [] [] [] []]; intros H;
    try discriminate H; eexists; eexists; split; reflexivity.
Qed.

Lemma markerChar_neq (x m0 : ascii) :
  markerChar x = false -> markerChar m0 = true -> x <> m0.
Proof. intros Hx Hm ->. congruence. Qed.

(** Quoting maps a marker character to itself and any other character to
    characters that are not marker characters: a run of marker characters
    at the head of the quoted text is at the head of the text. *)
Lemma startsWith_quoted (m c : jstring) :
  forallb markerChar m = true ->
  startsWith (flat_map quoteChar c) m = true ->
  startsWith c m = true.
Proof.
  revert c. induction m as [|x m IH]; intros c Hm H.
  - reflexivity.
  - simpl in Hm. apply andb_true_iff in Hm. destruct Hm as [Hx Hm].
    destruct c as [|ch c]; simpl in H.
    + discriminate.
    + destruct (markerChar ch) eqn:Hch.
      * rewrite (quoteChar_marker _ Hch) in H. simpl in H.
        apply andb_true_iff in H. destruct H as [E H].
        simpl. rewrite E. simpl. now apply IH.
      * destruct (quoteChar_other _ Hch) as [y [ys [E Hall]]].
        rewrite E in H. simpl in H.
        apply andb_true_iff in H. destruct H as [Exy _].
        apply Ascii.eqb_eq in Exy. subst y.
        simpl in Hall. rewrite Hx in Hall. discriminate.
Qed.

Lemma includes_quoted (m0 : ascii) (m c : jstring) :
  forallb markerChar (m0 :: m) = true ->
  includes (flat_map quoteChar c) (m0 :: m) = true ->
  includes c (m0 :: m) = true.
Proof.
  intros Hm. induction c as [|ch c IH]; intros H.
  - exact H.
  - cbn [flat_map] in H.
    assert (Hm0 : markerChar m0 = true).
    { simpl in Hm. now apply andb_true_iff in Hm. }
    destruct (markerChar ch) eqn:Hch.
    + rewrite (quoteChar_marker _ Hch) in H.
      change ([ch] ++ flat_map quoteChar c) with (ch :: flat_map quoteChar c) in H.
      cbn [includes] in H. apply orb_true_iff in H. destruct H as [H | H].
      * assert (S : startsWith (flat_map quoteChar (ch :: c)) (m0 :: m) = true).
        { cbn [flat_map]. now rewrite (quoteChar_marker _ Hch). }
        apply startsWith_quoted in S; [|exact Hm].
        cbn [includes]. now rewrite S.
      * cbn [includes]. rewrite (IH H). apply orb_true_r.
    + destruct (quoteChar_other _ Hch) as [y [ys [E Hall]]].
      rewrite E in H. rewrite includes_prefix_other in H.
      * cbn [includes]. rewrite (IH H). apply orb_true_r.
      * rewrite forallb_forall in Hall. apply Forall_forall. intros x Hx.
        apply markerChar_neq; [|exact Hm0].
        specialize (Hall x Hx). now destruct (markerChar x).
Qed.

(** The shape of a content event. *)
Lemma contentEvent_shape (c : jstring) :
  contentEvent (VStr c) =
  jq "data: {'content':'" ++ flat_map quoteChar c ++ jq "'}" ++ [LF; LF].
Proof.
  unfold contentEvent. cbn [stringify join]. unfold quote.
  repeat rewrite <- app_assoc. vm_compute. reflexivity.
Qed.

Lemma contentEvent_marker_free (m c : jstring) :
  isMarker m -> includes c m = false -> includes (contentEvent (VStr c)) m = false.
Proof.
  intros Hm Hc. rewrite contentEvent_shape.
  assert (exists m0 m', m = m0 :: m' /\ forallb markerChar m = true /\
                        Forall (fun x => x <> m0) (jq "data: {'content':'") /\
                        includes (jq "'}" ++ [LF; LF]) m = false /\ ~ In DQ m)
    as [m0 [m' [E [Hall [Hpre [Hsuf Hq]]]]]].
  { destruct Hm as [-> | ->]; eexists; eexists; (split; [reflexivity|]);
      (split; [reflexivity|]); (split; [|split; [reflexivity|]]).
    - repeat constructor; discriminate.
    - cbv. intuition discriminate.
    - repeat constructor; discriminate.
    - cbv. intuition discriminate. }
  rewrite E. rewrite includes_prefix_other by exact Hpre. rewrite <- E.
  apply includes_app_false.
  - destruct (includes (flat_map quoteChar c) m) eqn:H; [|reflexivity].
    rewrite E in H, Hall. apply includes_quoted in H; [|exact Hall].
    rewrite <- E in H. congruence.
  - exact Hsuf.
  - intros x b' Hb. injection Hb as <- _. exact Hq.
Qed.

Lemma hasMarker_false (c m : jstring) :
  isMarker m -> Optimized.hasMarker c = false -> includes c m = false.
Proof.
  unfold Optimized.hasMarker. intros [-> | ->] H;
    apply orb_false_iff in H; tauto.
Qed.

Lemma cleanChunk_marker_free (m chunk : jstring) :
  isMarker m -> cleanChunk chunk ->
  includes chunk m = false /\ exists r, chunk = "d"%char :: r.
Proof.
  intros Hm [-> | [-> | [c [-> Hc]]]].
  - split; [destruct Hm as [-> | ->]; reflexivity | eexists; reflexivity].
  - split; [destruct Hm as [-> | ->]; reflexivity | eexists; reflexivity].
  - split.
    + apply contentEvent_marker_free; [exact Hm|].
      now apply hasMarker_false.
    + rewrite contentEvent_shape. eexists. reflexivity.
Qed.

Lemma concat_marker_free (m : jstring) (chunks : list jstring) :
  isMarker m -> Forall cleanChunk chunks ->
  includes (List.concat chunks) m = false.
Proof.
  intros Hm. induction 1 as [|ch rest Hch Hrest IH]; simpl.
  - destruct Hm as [-> | ->]; reflexivity.
  - destruct (cleanChunk_marker_free Hm Hch) as [Hfree _].
    apply includes_app_false; [exact Hfree | exact IH |].
    intros c b' Hb.
    assert (c = "d"%char) as ->.
    { destruct Hrest as [|ch' rest' Hch' _]; simpl in Hb; [discriminate|].
      destruct (cleanChunk_marker_free Hm Hch') as [_ [r ->]].
      simpl in Hb. now injection Hb. }
    destruct Hm as [-> | ->]; cbv; intuition discriminate.
Qed.

End WireFacts.

(* ================================================================== *)
(** * The handlers of the llama.cpp variant *)
(* ================================================================== *)

Module OptimizedFacts.
Import Optimized WireFacts.

Section Handlers.

Variable stop : list jstring.
Variable sanitizeResponse : jstring -> jstring.
Variable userPrompt : jstring.
Variable u : userId.

Local Abbreviation onContent := (onContent stop).
Local Abbreviation onLine := (onLine stop).
Local Abbreviation onLines := (onLines stop).
Local Abbreviation onData := (onData stop).
Local Abbreviation onEnd := (onEnd sanitizeResponse userPrompt u).
Local Abbreviation handle := (handle stop sanitizeResponse userPrompt u).
Local Abbreviation run := (run stop sanitizeResponse userPrompt u).

(** ** What is written is clean *)


Lemma res_write_clean (chunk : jstring) (r : response) :
  Forall cleanChunk (written r) -> cleanChunk chunk ->
  Forall cleanChunk (written (res_write chunk r)).
Proof.
  intros Hr Hc. unfold res_write. destruct (finished r); simpl.
  - exact Hr.
  - apply Forall_app. split; [exact Hr | now constructor].
Qed.

Lemma cleanChunk_done : cleanChunk DONE_EVENT.
Proof. now left. Qed.

Lemma cleanChunk_error : cleanChunk errorEvent.
Proof. right. now left. Qed.

Lemma onContent_clean (st : state) (content : jstring) :
  clean st -> clean (fst (onContent st content)).
Proof.
  unfold clean, onContent. intros H.
  destruct (existsb _ stop || _); [exact H|].
  destruct (hasMarker content) eqn:Hm; [exact H|].
  simpl. apply res_write_clean; [exact H|].
  right; right. now exists content.
Qed.

Lemma onLine_clean (st : state) (line : jstring) :
  clean st -> clean (fst (onLine st line)).
Proof.
  unfold onLine. intros H.
  destruct (startsWith line (js "data: ") && _); [|exact H].
  destruct (jstring_eqb _ _); [exact H|].
  destruct (bind _ _) as [[content|]|]; try exact H.
  now apply onContent_clean.
Qed.

Lemma onLines_clean (lines : list jstring) (st : state) :
  clean st -> clean (onLines st lines).
Proof.
  revert st. induction lines as [|line rest IH]; intros st H; simpl.
  - exact H.
  - pose proof (onLine_clean line H) as H'.
    destruct (onLine st line) as [st' stopped]. simpl in H'.
    destruct stopped; [exact H' | now apply IH].
Qed.

Lemma handle_clean (st : state) (ev : upstream_event) :
  clean st -> clean (handle st ev).
Proof.
  intros H. destruct ev as [chunk| |message| |]; simpl.
  - unfold Optimized.onData. destruct (streamEnded st); [exact H|].
    now apply onLines_clean.
  - unfold Optimized.onEnd.
    assert (H1 : clean (if streamEnded st then st
                        else withRes (endStream st)
                               (res_end (res_write DONE_EVENT (res (endStream st)))))).
    { destruct (streamEnded st); [exact H|].
      unfold clean. simpl. apply res_write_clean; [exact H | exact cleanChunk_done]. }
    destruct (trim _); exact H1.
  - unfold onError. destruct (streamEnded st); [exact H|].
    unfold clean. simpl. apply res_write_clean; [exact H | exact cleanChunk_error].
  - unfold onTimeout. destruct (timerArmed st); [|exact H].
    simpl. destruct (streamEnded st); [exact H|].
    unfold clean. simpl. apply res_write_clean; [exact H | exact cleanChunk_done].
  - unfold onClose. destruct (streamEnded st); exact H.
Qed.

Lemma run_clean (evs : list upstream_event) (st : state) :
  clean st -> clean (run st evs).
Proof.
  revert st. induction evs as [|ev evs IH]; intros st H; simpl.
  - exact H.
  - apply IH. now apply handle_clean.
Qed.

(** ** Once stopped, only control events are written *)


Lemma extends_refl (st st' : state) :
  res st' = res st -> extends st st'.
Proof. intros E. exists []. rewrite E, app_nil_r. split; constructor. Qed.

Lemma extends_trans (a b c : state) :
  extends a b -> extends b c -> extends a c.
Proof.
  intros [e1 [E1 F1]] [e2 [E2 F2]]. exists (e1 ++ e2). split.
  - now rewrite E2, E1, app_assoc.
  - apply Forall_app. now split.
Qed.

Lemma extends_write (st st' : state) (chunk : jstring) :
  controlChunk chunk ->
  res st' = res_end (res_write chunk (res st)) -> extends st st'.
Proof.
  intros Hc E. unfold extends. rewrite E. unfold res_write.
  destruct (finished (res st)); simpl.
  - exists []. rewrite app_nil_r. split; constructor.
  - exists [chunk]. split; [reflexivity | now constructor].
Qed.

Lemma stopped_hit (st : state) (content : jstring) :
  stopped stop st ->
  existsb (fun stopSeq => includes (fullContent (accumulate st content)) stopSeq) stop
  = true.
Proof.
  intros [s [Hin Hs]]. apply existsb_exists. exists s. split; [exact Hin|].
  simpl. now apply includes_app_l.
Qed.

Lemma stopped_accumulate (st : state) (content : jstring) :
  stopped stop st -> stopped stop (accumulate st content).
Proof.
  intros [s [Hin Hs]]. exists s. split; [exact Hin|].
  simpl. now apply includes_app_l.
Qed.

Lemma onLine_stopped (st : state) (line : jstring) :
  stopped stop st ->
  stopped stop (fst (onLine st line)) /\ extends st (fst (onLine st line)).
Proof.
  intros H. unfold Optimized.onLine.
  destruct (startsWith line (js "data: ") && _);
    [|split; [exact H | now apply extends_refl]].
  destruct (jstring_eqb _ _); [split; [exact H | now apply extends_refl]|].
  destruct (bind _ _) as [[content|]|];
    try (split; [exact H | now apply extends_refl]).
  unfold Optimized.onContent. rewrite (stopped_hit content H). simpl.
  split; [now apply (stopped_accumulate content) | now apply extends_refl].
Qed.

Lemma onLines_stopped (lines : list jstring) (st : state) :
  stopped stop st ->
  stopped stop (onLines st lines) /\ extends st (onLines st lines).
Proof.
  revert st. induction lines as [|line rest IH]; intros st H; simpl.
  - split; [exact H | now apply extends_refl].
  - destruct (onLine_stopped line H) as [H1 E1].
    destruct (onLine st line) as [st' brk]. simpl in H1, E1.
    destruct brk; [now split|].
    destruct (IH st' H1) as [H2 E2]. split; [exact H2|].
    now apply (extends_trans E1).
Qed.

Lemma handle_stopped (st : state) (ev : upstream_event) :
  stopped stop st ->
  stopped stop (handle st ev) /\ extends st (handle st ev).
Proof.
  intros H. destruct ev as [chunk| |message| |]; simpl.
  - unfold Optimized.onData.
    destruct (streamEnded st); [split; [exact H | now apply extends_refl]|].
    match goal with
    | |- context [onLines ?s ?l] =>
        assert (H0 : stopped stop s) by exact H;
        destruct (onLines_stopped l H0) as [H1 E1]
    end.
    split; [exact H1|]. destruct E1 as [extra [E F]]. now exists extra.
  - unfold Optimized.onEnd.
    match goal with
    | |- context [trim (fullContent ?s)] => set (st1 := s)
    end.
    assert (H1 : stopped stop st1 /\ extends st st1).
    { subst st1. destruct (streamEnded st);
        [split; [exact H | now apply extends_refl]|].
      split; [exact H|]. apply extends_write with (chunk := DONE_EVENT);
        [now left | reflexivity]. }
    destruct (trim (fullContent st1)); [exact H1|].
    destruct H1 as [H1 E1]. split; [exact H1|].
    destruct E1 as [extra [E F]]. now exists extra.
  - unfold onError.
    destruct (streamEnded st); [split; [exact H | now apply extends_refl]|].
    split; [exact H|]. apply extends_write with (chunk := errorEvent);
      [now right | reflexivity].
  - unfold onTimeout.
    destruct (timerArmed st); [|split; [exact H | now apply extends_refl]].
    simpl. destruct (streamEnded st);
      [split; [exact H | now apply extends_refl]|].
    split; [exact H|]. apply extends_write with (chunk := DONE_EVENT);
      [now left | reflexivity].
  - unfold onClose.
    destruct (streamEnded st); split; try exact H; now apply extends_refl.
Qed.

Lemma run_stopped (evs : list upstream_event) (st : state) :
  stopped stop st -> extends st (run st evs).
Proof.
  revert st. induction evs as [|ev evs IH]; intros st H; simpl.
  - now apply extends_refl.
  - destruct (handle_stopped ev H) as [H1 E1].
    apply (extends_trans E1). now apply IH.
Qed.

(** ** The response is open as long as the stream is *)


Lemma res_write_status (chunk : jstring) (r : response) :
  statusCode (res_write chunk r) = statusCode r.
Proof. unfold res_write. now destruct (finished r). Qed.

Lemma res_write_finished (chunk : jstring) (r : response) :
  finished (res_write chunk r) = finished r.
Proof. unfold res_write. now destruct (finished r) eqn:E. Qed.

Lemma onLine_open (st : state) (line : jstring) :
  open st -> open (fst (onLine st line)).
Proof.
  intros [Hs Hf]. unfold Optimized.onLine.
  destruct (startsWith line (js "data: ") && _); [|now split].
  destruct (jstring_eqb _ _); [split; [exact Hs | discriminate]|].
  destruct (bind _ _) as [[content|]|]; try now split.
  unfold Optimized.onContent.
  destruct (existsb _ stop || _); [split; [exact Hs | discriminate]|].
  destruct (hasMarker content); [now split|].
  split; simpl.
  - now rewrite res_write_status.
  - intros E. rewrite res_write_finished. now apply Hf.
Qed.

Lemma onLines_open (lines : list jstring) (st : state) :
  open st -> open (onLines st lines).
Proof.
  revert st. induction lines as [|line rest IH]; intros st H; simpl.
  - exact H.
  - pose proof (onLine_open line H) as H'.
    destruct (onLine st line) as [st' brk]. simpl in H'.
    destruct brk; [exact H' | now apply IH].
Qed.

Lemma handle_open (st : state) (ev : upstream_event) :
  open st -> open (handle st ev).
Proof.
  intros H. destruct ev as [chunk| |message| |]; simpl.
  - unfold Optimized.onData. destruct (streamEnded st) eqn:E; [exact H|].
    apply onLines_open. destruct H as [Hs Hf]. split; [exact Hs|].
    simpl. intros _. now apply Hf.
  - unfold Optimized.onEnd.
    match goal with
    | |- context [trim (fullContent ?s)] => set (st1 := s)
    end.
    assert (H1 : open st1).
    { subst st1. destruct (streamEnded st); [exact H|].
      destruct H as [Hs _]. split; simpl; [|discriminate].
      now rewrite res_write_status. }
    destruct (trim (fullContent st1)); exact H1.
  - unfold onError. destruct (streamEnded st); [exact H|].
    destruct H as [Hs _]. split; simpl; [|discriminate].
    now rewrite res_write_status.
  - unfold onTimeout. destruct (timerArmed st); [|exact H]. simpl.
    destruct (streamEnded st) eqn:E.
    + destruct H as [Hs _]. split; simpl; [exact Hs|]. congruence.
    + destruct H as [Hs _]. split; simpl; [|discriminate].
      now rewrite res_write_status.
  - unfold onClose. destruct (streamEnded st); [exact H|].
    destruct H as [Hs _]. split; simpl; [exact Hs | discriminate].
Qed.

Lemma run_open (evs : list upstream_event) (st : state) :
  open st -> open (run st evs).
Proof.
  revert st. induction evs as [|ev evs IH]; intros st H; simpl.
  - exact H.
  - apply IH. now apply handle_open.
Qed.

Lemma start_open (d : db) : open (start d).
Proof. split; reflexivity. Qed.

End Handlers.

End OptimizedFacts.

(* ================================================================== *)
(** * The handlers of routes/completion.js *)
(* ================================================================== *)

Module CompletionFacts.
Import Completion.

(** ** [extractJsonPattern] never extracts

    The second match of a global marker pattern begins with the marker
    name, which no JSON text does. *)

Lemma trimStart_snoc (l : jstring) (c : ascii) :
  isSpace c = false -> exists l', trimStart (l ++ [c]) = l' ++ [c].
Proof.
  intros Hc. induction l as [|d l [l' IH]]; simpl.
  - rewrite Hc. now exists [].
  - destruct (isSpace d).
    + now exists l'.
    + now exists (d :: l).
Qed.

Lemma trim_head (c : ascii) (r : jstring) :
  isSpace c = false -> exists r', trim (c :: r) = c :: r'.
Proof.
  intros Hc. unfold trim, trimEnd. simpl trimStart. rewrite Hc.
  simpl rev. destruct (trimStart_snoc (rev r) c Hc) as [l' ->].
  rewrite rev_app_distr. simpl. now exists (rev l').
Qed.

Lemma parse_marker_throws (c : ascii) (r : jstring) :
  c = "E"%char \/ c = "T"%char -> JSON_parse (trim (c :: r)) = Throw.
Proof.
  intros Hc.
  assert (Hs : isSpace c = false) by (destruct Hc as [-> | ->]; reflexivity).
  destruct (trim_head c r Hs) as [r' ->].
  unfold JSON_parse.
  replace (2 * List.length (c :: r') + 2) with (S (2 * List.length r' + 3))
    by (simpl; lia).
  destruct Hc as [-> | ->]; reflexivity.
Qed.

Lemma firstn_app_prefix (marker r : jstring) (n : nat) :
  List.length marker <= n ->
  exists t, firstn n (marker ++ r) = marker ++ t.
Proof.
  intros H. exists (firstn (n - List.length marker) r).
  rewrite firstn_app. rewrite firstn_all2 by exact H. reflexivity.
Qed.

Lemma markerWithJsonLen_head (marker s : jstring) (n : nat) :
  markerWithJsonLen marker s = Some n ->
  exists t, firstn n s = marker ++ t.
Proof.
  unfold markerWithJsonLen, markerWithJson.
  destruct (startsWith s marker) eqn:Hs; [|discriminate].
  apply StringFacts.startsWith_spec in Hs. destruct Hs as [r ->].
  destruct (braceRegion _) as [b|]; [|discriminate].
  simpl. intros H. injection H as <-.
  apply firstn_app_prefix. lia.
Qed.

Lemma matchAll_heads (marker : jstring) (s : jstring) (k : nat) (x : jstring) :
  In x (matchAllFrom (markerWithJsonLen marker) k s) ->
  marker <> [] -> exists t, x = marker ++ t.
Proof.
  intros Hin Hne. revert k Hin.
  induction s as [|c s IH]; intros k Hin.
  - destruct k; simpl in Hin; [|contradiction].
    unfold markerWithJsonLen, markerWithJson in Hin.
    destruct marker; [congruence|]. simpl in Hin. contradiction.
  - destruct k as [|k]; simpl in Hin.
    + destruct (markerWithJsonLen marker (c :: s)) as [n|] eqn:E.
      * destruct Hin as [<- | Hin].
        -- now apply markerWithJsonLen_head.
        -- now apply (IH _ Hin).
      * now apply (IH _ Hin).
    + now apply (IH _ Hin).
Qed.

Lemma extractJsonPattern_null (marker content : jstring) :
  marker = EMOTION_LOG \/ marker = TASK_INFERENCE ->
  extractJsonPattern (markerWithJsonLen marker) content = (VNull, content).
Proof.
  intros Hm. unfold extractJsonPattern.
  destruct (matchAllFrom _ 0 content) as [|m0 [|m1 rest]] eqn:E; try reflexivity.
  assert (Hin : In m1 (matchAllFrom (markerWithJsonLen marker) 0 content))
    by (rewrite E; right; now left).
  apply matchAll_heads in Hin; [|destruct Hm as [-> | ->]; discriminate].
  destruct Hin as [t ->].
  destruct Hm as [-> | ->]; simpl app; rewrite parse_marker_throws; auto.
Qed.

(** So the commit step stores the pair and nothing else. *)
Lemma processResponseAndSave_commit (content userPrompt : jstring) (u : userId) (d : db) :
  processResponseAndSave content userPrompt u d =
  (insertMany (memoryPair u userPrompt (cleanResponse content)) d,
   Ok (cleanResponse content)).
Proof.
  unfold processResponseAndSave, METADATA_PATTERNS_emotion, METADATA_PATTERNS_task.
  rewrite !extractJsonPattern_null by auto. reflexivity.
Qed.

(** ** Nothing is written after the response has ended *)

Lemma res_write_after_end (chunk : jstring) (r : response) :
  finished r = true -> res_write chunk r = r.
Proof. unfold res_write. now intros ->. Qed.

Lemma onLine_frozen (st : state) (line : jstring) :
  finished (res st) = true ->
  written (res (fst (onLine st line))) = written (res st) /\
  finished (res (fst (onLine st line))) = true.
Proof.
  intros H. unfold onLine.
  destruct (startsWith line _); [|now split].
  destruct (jstring_eqb _ _).
  - simpl. rewrite res_write_after_end by exact H. now split.
  - destruct (bind _ _) as [[[content text]|]|]; try now split.
    simpl. rewrite res_write_after_end by exact H. now split.
Qed.

Lemma onLines_frozen (lines : list jstring) (st : state) :
  finished (res st) = true ->
  written (res (onLines st lines)) = written (res st) /\
  finished (res (onLines st lines)) = true.
Proof.
  revert st. induction lines as [|line rest IH]; intros st H; simpl.
  - now split.
  - destruct (onLine_frozen st line H) as [W F].
    destruct (onLine st line) as [st' ret]. simpl in W, F.
    destruct ret; [now split|].
    destruct (IH st' F) as [W' F']. split; [congruence | exact F'].
Qed.

Lemma handle_frozen (userPrompt : jstring) (u : userId) (st : state)
                    (ev : upstream_event) :
  finished (res st) = true ->
  written (res (handle userPrompt u st ev)) = written (res st) /\
  finished (res (handle userPrompt u st ev)) = true.
Proof.
  intros H. destruct ev as [chunk| |message| |]; simpl; try now split.
  - unfold onData.
    match goal with
    | |- context [onLines ?s ?l] => exact (onLines_frozen l s H)
    end.
  - rewrite res_write_after_end by exact H. now split.
  - unfold onError. simpl.
    assert (E : headersSent (res st) = true \/ headersSent (res st) = false)
      by (destruct (headersSent (res st)); auto).
    destruct E as [-> | ->].
    + rewrite res_write_after_end by exact H. now split.
    + rewrite res_write_after_end by exact H. now split.
Qed.

Lemma run_frozen (userPrompt : jstring) (u : userId)
                 (evs : list upstream_event) (st : state) :
  finished (res st) = true ->
  written (res (run userPrompt u st evs)) = written (res st).
Proof.
  unfold run. revert st. induction evs as [|ev evs IH]; intros st H; simpl.
  - reflexivity.
  - destruct (handle_frozen userPrompt u st ev H) as [W F].
    rewrite (IH _ F). exact W.
Qed.

(** ** While only data arrives

    The status stays 200, the store is untouched, and the response ends
    only by relaying the upstream [[DONE]]. *)


Lemma res_write_In (chunk x : jstring) (r : response) :
  In x (written r) -> In x (written (res_write chunk r)).
Proof.
  unfold res_write. destruct (finished r); simpl; [auto|].
  intros H. apply in_or_app. now left.
Qed.

Lemma res_write_keeps_status (chunk : jstring) (r : response) :
  statusCode (res_write chunk r) = statusCode r.
Proof. unfold res_write. now destruct (finished r). Qed.

Lemma res_write_keeps_open (chunk : jstring) (r : response) :
  finished (res_write chunk r) = finished r.
Proof. unfold res_write. now destruct (finished r) eqn:E. Qed.

Lemma res_write_done (r : response) :
  In DONE_EVENT (written (res_end (res_write DONE_EVENT r))) \/
  finished r = true.
Proof.
  unfold res_write. destruct (finished r) eqn:E; simpl; [now right|].
  left. apply in_or_app. right. now left.
Qed.

Lemma onLine_relaying (d : db) (st : state) (line : jstring) :
  relaying d st -> relaying d (fst (onLine st line)).
Proof.
  intros [Hs [Hd Hf]]. unfold onLine.
  destruct (startsWith line _); [|now repeat split].
  destruct (jstring_eqb _ _).
  - unfold relaying, withRes.
    cbn [fst res store res_end statusCode written finished].
    repeat split.
    + now rewrite res_write_keeps_status.
    + exact Hd.
    + intros _. destruct (res_write_done (res st)) as [H | H]; [exact H|].
      apply res_write_In. now apply Hf.
  - destruct (bind _ _) as [[[content text]|]|]; try now repeat split.
    unfold relaying. cbn [fst res store].
    repeat split.
    + now rewrite res_write_keeps_status.
    + exact Hd.
    + rewrite res_write_keeps_open. intros H. apply res_write_In. now apply Hf.
Qed.

Lemma onLines_relaying (d : db) (lines : list jstring) (st : state) :
  relaying d st -> relaying d (onLines st lines).
Proof.
  revert st. induction lines as [|line rest IH]; intros st H; simpl.
  - exact H.
  - pose proof (onLine_relaying line H) as H'.
    destruct (onLine st line) as [st' ret]. simpl in H'.
    destruct ret; [exact H' | now apply IH].
Qed.

Lemma run_data_relaying (userPrompt : jstring) (u : userId) (d : db)
                        (chunks : list jstring) (st : state) :
  relaying d st -> relaying d (run userPrompt u st (map Data chunks)).
Proof.
  revert st. induction chunks as [|chunk chunks IH]; intros st H; simpl.
  - exact H.
  - apply IH. unfold onData. apply onLines_relaying. exact H.
Qed.

Lemma start_relaying (d : db) : relaying d (start d).
Proof. repeat split. discriminate. Qed.

(** ** The status of a response whose headers are out *)


Lemma handle_settled (userPrompt : jstring) (u : userId) (st : state)
                     (ev : upstream_event) :
  settled st -> settled (handle userPrompt u st ev).
Proof.
  intros H. destruct ev as [chunk| |message| |]; simpl; try exact H.
  - unfold onData.
    match goal with |- settled (onLines ?s ?l) => generalize l; assert (H0 : settled s) by exact H; revert H0; generalize s end.
    intros s0 H0 l. revert s0 H0.
    induction l as [|line rest IH]; intros s0 H0; simpl; [exact H0|].
    assert (H1 : settled (fst (onLine s0 line))).
    { unfold onLine. destruct (startsWith line _); [|exact H0].
      destruct (jstring_eqb _ _); [now right|].
      destruct (bind _ _) as [[[content text]|]|]; try exact H0.
      destruct H0 as [H0 | H0]; [left | right]; simpl.
      - now rewrite res_write_keeps_status.
      - now rewrite res_write_keeps_open. }
    destruct (onLine s0 line) as [st' ret]. simpl in H1.
    destruct ret; [exact H1 | now apply IH].
  - now right.
  - now right.
Qed.

Lemma run_settled (userPrompt : jstring) (u : userId)
                  (evs : list upstream_event) (st : state) :
  settled st -> settled (run userPrompt u st evs).
Proof.
  revert st. induction evs as [|ev evs IH]; intros st H; simpl.
  - exact H.
  - apply IH. now apply handle_settled.
Qed.

End CompletionFacts.

(* ================================================================== *)
(** * Streaming: what the client receives and what is committed *)
(* ================================================================== *)

Module OptimizedEnded.
Import Optimized.

Lemma handle_ended (stop : list jstring) (sanitizeResponse : jstring -> jstring)
                   (userPrompt : jstring) (u : userId)
                   (st : state) (ev : upstream_event) :
  streamEnded st = true ->
  streamEnded (handle stop sanitizeResponse userPrompt u st ev) = true /\
  res (handle stop sanitizeResponse userPrompt u st ev) = res st.
Proof.
  intros H. destruct ev as [chunk| |message| |]; simpl.
  - unfold onData. rewrite H. now split.
  - unfold onEnd. rewrite H. destruct (trim (fullContent st)); now split.
  - unfold onError. rewrite H. now split.
  - unfold onTimeout. destruct (timerArmed st); [|now split].
    simpl. rewrite H. now split.
  - unfold onClose. rewrite H. now split.
Qed.

Lemma run_ended (stop : list jstring) (sanitizeResponse : jstring -> jstring)
                (userPrompt : jstring) (u : userId)
                (evs : list upstream_event) (st : state) :
  streamEnded st = true ->
  res (run stop sanitizeResponse userPrompt u st evs) = res st.
Proof.
  unfold run. revert st. induction evs as [|ev evs IH]; intros st H; simpl.
  - reflexivity.
  - destruct (handle_ended stop sanitizeResponse userPrompt u st ev H) as [E R].
    rewrite (IH _ E). exact R.
Qed.

End OptimizedEnded.

(** C1, as stated, fails.  routes/completion.js relays a delta that holds a
    marker literal, so the bytes on the wire include [EMOTION_LOG]; and the
    llama.cpp variant forwards both halves of a marker that is split across
    two deltas. *)
Lemma marker_leak_counterexample :
  includes
    (wire (Completion.res
       (Completion.run (js "hi") 0 (Completion.start emptyDb)
          [Data (Completion.deltaChunk (jq "EMOTION_LOG: {'emotion':'sad'}"))])))
    EMOTION_LOG = true /\
  written (Optimized.res
     (Optimized.run Optimized.defaultStop (fun s => s) (js "hi") 0
        (Optimized.start emptyDb)
        [Data (Optimized.deltaChunk (js "EMOTIO"));
         Data (Optimized.deltaChunk (jq "N_LOG: {'emotion':'joy'}"))]))
  = [contentEvent (VStr (js "EMOTIO"));
     contentEvent (VStr (jq "N_LOG: {'emotion':'joy'}"))].
Proof. split; vm_compute; reflexivity. Qed.

(** C1, amended: in the llama.cpp variant, whatever the upstream sends and
    however it is chunked, every chunk written to the client is the
    terminal event, the error event, or a content event whose delta holds
    no marker literal, and the bytes on the wire include neither
    [EMOTION_LOG] nor [TASK_INFERENCE]. *)
Theorem optimized_wire_marker_free :
  forall (stop : list jstring) (sanitizeResponse : jstring -> jstring)
         (userPrompt : jstring) (u : userId) (d : db)
         (evs : list upstream_event),
    Forall cleanChunk
      (written (Optimized.res
         (Optimized.run stop sanitizeResponse userPrompt u (Optimized.start d) evs))) /\
    includes
      (wire (Optimized.res
         (Optimized.run stop sanitizeResponse userPrompt u (Optimized.start d) evs)))
      EMOTION_LOG = false /\
    includes
      (wire (Optimized.res
         (Optimized.run stop sanitizeResponse userPrompt u (Optimized.start d) evs)))
      TASK_INFERENCE = false.
Proof.
  intros stop san prompt u d evs.
  assert (H : clean (Optimized.run stop san prompt u (Optimized.start d) evs)).
  { apply OptimizedFacts.run_clean. constructor. }
  split; [exact H|]. unfold wire. split.
  - apply WireFacts.concat_marker_free; [now left | exact H].
  - apply WireFacts.concat_marker_free; [now right | exact H].
Qed.

(** C5, as stated, fails for routes/completion.js: its handler has no
    stop-sequence check, so after the buffer has come to hold ["Human:"]
    the next delta is still forwarded. *)
Lemma stop_sequence_counterexample :
  includes
    (Completion.fullContent
       (Completion.run (js "hi") 0 (Completion.start emptyDb)
          [Data (Completion.deltaChunk (js "Human:"))]))
    (js "Human:") = true /\
  written (Completion.res
     (Completion.run (js "hi") 0 (Completion.start emptyDb)
        [Data (Completion.deltaChunk (js "Human:"));
         Data (Completion.deltaChunk (js "more"))]))
  = [contentEvent (VStr (js "Human:")); contentEvent (VStr (js "more"))].
Proof. split; vm_compute; reflexivity. Qed.

(** C5, amended: in the llama.cpp variant, once the accumulated buffer
    holds one of the stop sequences, whatever happens next adds no content
    event to what the client was sent: only the terminal event or the error
    event can follow. *)
Theorem optimized_stop_sequence_termination :
  forall (stop : list jstring) (sanitizeResponse : jstring -> jstring)
         (userPrompt : jstring) (u : userId)
         (st : Optimized.state) (evs : list upstream_event),
    (exists s, In s stop /\ includes (Optimized.fullContent st) s = true) ->
    exists extra,
      written (Optimized.res (Optimized.run stop sanitizeResponse userPrompt u st evs))
      = written (Optimized.res st) ++ extra /\
      Forall (fun chunk => chunk = DONE_EVENT \/ chunk = Optimized.errorEvent) extra.
Proof.
  intros stop san prompt u st evs H.
  exact (OptimizedFacts.run_stopped san prompt u evs H).
Qed.

Lemma optimized_stop_sequence_termination_witness :
  (exists s, In s Optimized.defaultStop /\
     includes
       (Optimized.fullContent
          (Optimized.run Optimized.defaultStop (fun s => s) (js "hi") 0
             (Optimized.start emptyDb)
             [Data (Optimized.deltaChunk (js "Answer. "));
              Data (Optimized.deltaChunk (js "Human:"))])) s = true) /\
  exists extra,
    written (Optimized.res
       (Optimized.run Optimized.defaultStop (fun s => s) (js "hi") 0
          (Optimized.run Optimized.defaultStop (fun s => s) (js "hi") 0
             (Optimized.start emptyDb)
             [Data (Optimized.deltaChunk (js "Answer. "));
              Data (Optimized.deltaChunk (js "Human:"))])
          [Data (Optimized.deltaChunk (js "more")); End]))
    = written (Optimized.res
         (Optimized.run Optimized.defaultStop (fun s => s) (js "hi") 0
            (Optimized.start emptyDb)
            [Data (Optimized.deltaChunk (js "Answer. "));
             Data (Optimized.deltaChunk (js "Human:"))])) ++ extra /\
    Forall (fun chunk => chunk = DONE_EVENT \/ chunk = Optimized.errorEvent) extra.
Proof.
  assert (H : exists s, In s Optimized.defaultStop /\
     includes
       (Optimized.fullContent
          (Optimized.run Optimized.defaultStop (fun s => s) (js "hi") 0
             (Optimized.start emptyDb)
             [Data (Optimized.deltaChunk (js "Answer. "));
              Data (Optimized.deltaChunk (js "Human:"))])) s = true).
  { exists (js "Human:"). split; [simpl; tauto | vm_compute; reflexivity]. }
  split; [exact H|].
  exact (@optimized_stop_sequence_termination Optimized.defaultStop
           (fun s => s) (js "hi") 0 _
           [Data (Optimized.deltaChunk (js "more")); End] H).
Defined.

(** C6, as stated, fails: after a mid-stream failure the llama.cpp variant
    writes the error event and ends the response, and routes/completion.js
    writes [data: {"error": "<message>"}] and ends the response; neither
    writes the terminal [data: [DONE]] event.  And once the llama.cpp
    variant has seen the upstream's own [[DONE]] line, which leaves the
    response open, a failure of the upstream is not reported at all. *)
Lemma midstream_error_counterexample :
  written (Optimized.res
     (Optimized.run Optimized.defaultStop (fun s => s) (js "hi") 0
        (Optimized.start emptyDb)
        [Data (Optimized.deltaChunk (js "Hi")); Error (js "boom"); End]))
  = [contentEvent (VStr (js "Hi"));
     jq "data: {'error':true,'message':'Stream error. Please try again.'}"
       ++ [LF; LF]] /\
  written (Completion.res
     (Completion.run (js "hi") 0 (Completion.start emptyDb)
        [Data (Completion.deltaChunk (js "Hi")); Error (js "boom"); End]))
  = [contentEvent (VStr (js "Hi")); jq "data: {'error': 'boom'}" ++ [LF; LF]] /\
  Optimized.res
    (Optimized.run Optimized.defaultStop (fun s => s) (js "hi") 0
       (Optimized.start emptyDb)
       [Data (Optimized.deltaChunk (js "Hi"));
        Data (js "data: [DONE]" ++ [LF]); Error (js "boom")])
  = {| statusCode := 200; headersSent := true;
       written := [contentEvent (VStr (js "Hi"))]; finished := false |}.
Proof. split; [|split]; vm_compute; reflexivity. Qed.

(** C6, amended.  In the llama.cpp variant, when the upstream fails while
    the handlers have not yet marked the stream as ended, the client
    receives one in-band error event that carries
    [{"error":true,"message":"Stream error. Please try again."}] and the
    response is ended with status 200; no [data: [DONE]] event follows,
    whatever happens later.  When the stream is already marked as ended,
    the failure is not reported: the response stays as it was, also after
    any later event, and so also when it is still open, as it is after the
    upstream's [[DONE]] line.  In routes/completion.js, when the upstream
    fails while the headers are out and the response is not ended, the
    client receives [data: {"error": "<message>"}] and the response is
    ended with status 200; no [data: [DONE]] event follows.  Each variant
    is taken on its own events. *)
Theorem midstream_error_framing :
  (forall (stop : list jstring) (sanitizeResponse : jstring -> jstring)
          (userPrompt : jstring) (u : userId) (d : db)
          (evs later : list upstream_event) (message : jstring),
     let st := Optimized.run stop sanitizeResponse userPrompt u
                 (Optimized.start d) evs in
     let st' := Optimized.handle stop sanitizeResponse userPrompt u st
                  (Error message) in
     (Optimized.streamEnded st = false ->
      written (Optimized.res st')
        = written (Optimized.res st) ++
          [jq "data: {'error':true,'message':'Stream error. Please try again.'}"
             ++ [LF; LF]] /\
      finished (Optimized.res st') = true /\
      statusCode (Optimized.res st') = 200 /\
      written (Optimized.res
         (Optimized.run stop sanitizeResponse userPrompt u st' later))
        = written (Optimized.res st')) /\
     (Optimized.streamEnded st = true ->
      Optimized.res
        (Optimized.run stop sanitizeResponse userPrompt u st' later)
      = Optimized.res st)) /\
  (forall (userPrompt : jstring) (u : userId) (d : db)
          (evs later : list upstream_event) (message : jstring),
     let st := Completion.run userPrompt u (Completion.start d) evs in
     let st' := Completion.handle userPrompt u st (Error message) in
     headersSent (Completion.res st) = true ->
     finished (Completion.res st) = false ->
     written (Completion.res st')
       = written (Completion.res st) ++
         [jq "data: {'error': '" ++ message ++ jq "'}" ++ [LF; LF]] /\
     finished (Completion.res st') = true /\
     statusCode (Completion.res st') = 200 /\
     written (Completion.res (Completion.run userPrompt u st' later))
       = written (Completion.res st')).
Proof.
  split.
  - intros stop san prompt u d evs later message ost ost'. split.
    + intros Hopen.
      assert (Ho : open ost).
      { apply OptimizedFacts.run_open. apply OptimizedFacts.start_open. }
      destruct Ho as [Hs Hf]. specialize (Hf Hopen).
      assert (E : ost' = Optimized.withRes (Optimized.endStream ost)
                    (res_end (res_write Optimized.errorEvent (Optimized.res ost)))).
      { subst ost'. simpl. unfold Optimized.onError. now rewrite Hopen. }
      assert (W : res_write Optimized.errorEvent (Optimized.res ost)
                  = {| statusCode := statusCode (Optimized.res ost);
                       headersSent := true;
                       written := written (Optimized.res ost)
                                  ++ [Optimized.errorEvent];
                       finished := false |}).
      { unfold res_write. now rewrite Hf. }
      rewrite E, W. simpl. repeat split.
      * exact Hs.
      * now rewrite OptimizedEnded.run_ended.
    + intros Hended.
      destruct (OptimizedEnded.handle_ended stop san prompt u ost
                  (Error message) Hended) as [E R].
      fold ost' in E, R.
      rewrite (OptimizedEnded.run_ended stop san prompt u later ost' E).
      exact R.
  - intros prompt u d evs later message cst cst' Hsent Hfin.
    assert (Hc : settled cst).
    { apply CompletionFacts.run_settled. now left. }
    assert (Hs : statusCode (Completion.res cst) = 200).
    { destruct Hc as [Hc | Hc]; [exact Hc | congruence]. }
    assert (E : Completion.res cst'
                = res_end (res_write (Completion.errorEvent message)
                                     (Completion.res cst))).
    { subst cst'. simpl. unfold Completion.onError. now rewrite Hsent. }
    assert (W : res_write (Completion.errorEvent message) (Completion.res cst)
                = {| statusCode := statusCode (Completion.res cst);
                     headersSent := true;
                     written := written (Completion.res cst)
                                ++ [Completion.errorEvent message];
                     finished := false |}).
    { unfold res_write. now rewrite Hfin. }
    assert (F : finished (Completion.res cst') = true) by now rewrite E.
    rewrite (CompletionFacts.run_frozen prompt u later cst' F).
    rewrite E, W. simpl. repeat split. exact Hs.
Qed.

Lemma midstream_error_framing_witness :
  (Optimized.streamEnded
     (Optimized.run Optimized.defaultStop (fun s => s) (js "hi") 0
        (Optimized.start emptyDb) [Data (Optimized.deltaChunk (js "Hi"))])
   = false /\
   written
     (Optimized.res
        (Optimized.handle Optimized.defaultStop (fun s => s) (js "hi") 0
           (Optimized.run Optimized.defaultStop (fun s => s) (js "hi") 0
              (Optimized.start emptyDb) [Data (Optimized.deltaChunk (js "Hi"))])
           (Error (js "boom"))))
   = written
       (Optimized.res
          (Optimized.run Optimized.defaultStop (fun s => s) (js "hi") 0
             (Optimized.start emptyDb) [Data (Optimized.deltaChunk (js "Hi"))]))
     ++ [jq "data: {'error':true,'message':'Stream error. Please try again.'}"
           ++ [LF; LF]]) /\
  (Optimized.streamEnded
     (Optimized.run Optimized.defaultStop (fun s => s) (js "hi") 0
        (Optimized.start emptyDb)
        [Data (Optimized.deltaChunk (js "Hi")); Data (js "data: [DONE]" ++ [LF])])
   = true /\
   Optimized.res
     (Optimized.run Optimized.defaultStop (fun s => s) (js "hi") 0
        (Optimized.handle Optimized.defaultStop (fun s => s) (js "hi") 0
           (Optimized.run Optimized.defaultStop (fun s => s) (js "hi") 0
              (Optimized.start emptyDb)
              [Data (Optimized.deltaChunk (js "Hi"));
               Data (js "data: [DONE]" ++ [LF])])
           (Error (js "boom")))
        [End])
   = Optimized.res
       (Optimized.run Optimized.defaultStop (fun s => s) (js "hi") 0
          (Optimized.start emptyDb)
          [Data (Optimized.deltaChunk (js "Hi"));
           Data (js "data: [DONE]" ++ [LF])])) /\
  (headersSent
     (Completion.res
        (Completion.run (js "hi") 0 (Completion.start emptyDb)
           [Data (Completion.deltaChunk (js "Hi"))])) = true /\
   finished
     (Completion.res
        (Completion.run (js "hi") 0 (Completion.start emptyDb)
           [Data (Completion.deltaChunk (js "Hi"))])) = false /\
   written
     (Completion.res
        (Completion.handle (js "hi") 0
           (Completion.run (js "hi") 0 (Completion.start emptyDb)
              [Data (Completion.deltaChunk (js "Hi"))])
           (Error (js "boom"))))
   = written
       (Completion.res
          (Completion.run (js "hi") 0 (Completion.start emptyDb)
             [Data (Completion.deltaChunk (js "Hi"))]))
     ++ [jq "data: {'error': '" ++ js "boom" ++ jq "'}" ++ [LF; LF]]).
Proof.
  assert (H1 : Optimized.streamEnded
     (Optimized.run Optimized.defaultStop (fun s => s) (js "hi") 0
        (Optimized.start emptyDb) [Data (Optimized.deltaChunk (js "Hi"))])
   = false) by (vm_compute; reflexivity).
  assert (H2 : Optimized.streamEnded
     (Optimized.run Optimized.defaultStop (fun s => s) (js "hi") 0
        (Optimized.start emptyDb)
        [Data (Optimized.deltaChunk (js "Hi")); Data (js "data: [DONE]" ++ [LF])])
   = true) by (vm_compute; reflexivity).
  assert (H3 : headersSent
     (Completion.res
        (Completion.run (js "hi") 0 (Completion.start emptyDb)
           [Data (Completion.deltaChunk (js "Hi"))])) = true)
    by (vm_compute; reflexivity).
  assert (H4 : finished
     (Completion.res
        (Completion.run (js "hi") 0 (Completion.start emptyDb)
           [Data (Completion.deltaChunk (js "Hi"))])) = false)
    by (vm_compute; reflexivity).
  split; [|split].
  - split; [exact H1|].
    exact (proj1 (proj1 (proj1 midstream_error_framing
                           Optimized.defaultStop (fun s => s) (js "hi") 0 emptyDb
                           [Data (Optimized.deltaChunk (js "Hi"))] [End]
                           (js "boom")) H1)).
  - split; [exact H2|].
    exact (proj2 (proj1 midstream_error_framing
                    Optimized.defaultStop (fun s => s) (js "hi") 0 emptyDb
                    [Data (Optimized.deltaChunk (js "Hi"));
                     Data (js "data: [DONE]" ++ [LF])] [End]
                    (js "boom")) H2).
  - split; [exact H3 | split; [exact H4|]].
    exact (proj1 (proj2 midstream_error_framing (js "hi") 0 emptyDb
                    [Data (Completion.deltaChunk (js "Hi"))] [End]
                    (js "boom") H3 H4)).
Defined.

(** C2, as stated, fails: when the upstream ends without any content the
    client receives [data: [DONE]] and no memory message is stored. *)
Lemma memory_pairing_counterexample :
  written (Completion.res
     (Completion.run (js "hello") 7 (Completion.start emptyDb) [End]))
  = [DONE_EVENT] /\
  memories (Completion.store
     (Completion.run (js "hello") 7 (Completion.start emptyDb) [End]))
  = [].
Proof. split; vm_compute; reflexivity. Qed.

(** C2, amended: a streaming completion of routes/completion.js whose
    upstream delivers data and then ends sends the client the terminal
    [data: [DONE]] and ends the response.  If the accumulated content is not
    blank, it appends exactly one [user] memory holding the prompt followed
    by exactly one [assistant] memory for the same user, holding
    [cleanResponse] of the accumulated content; if the accumulated content
    is empty or blank, it appends no memory at all. *)
Theorem memory_pairing :
  forall (userPrompt : jstring) (u : userId) (d : db) (chunks : list jstring),
    let st := Completion.run userPrompt u (Completion.start d) (map Data chunks) in
    let st' := Completion.handle userPrompt u st End in
    In DONE_EVENT (written (Completion.res st')) /\
    finished (Completion.res st') = true /\
    memories (Completion.store st')
    = memories d ++
      match trim (Completion.fullContent st) with
      | [] => []
      | _ => [ {| mem_userId := u; mem_content := userPrompt; mem_role := user |};
               {| mem_userId := u;
                  mem_content := cleanResponse (Completion.fullContent st);
                  mem_role := assistant |} ]
      end.
Proof.
  intros prompt u d chunks st st'.
  assert (R : relaying d st).
  { apply CompletionFacts.run_data_relaying. apply CompletionFacts.start_relaying. }
  destruct R as [_ [Hd Hf]].
  subst st'. simpl. repeat split.
  - destruct (CompletionFacts.res_write_done (Completion.res st)) as [H | H];
      [exact H|].
    rewrite CompletionFacts.res_write_after_end by exact H. now apply Hf.
  - rewrite Hd. destruct (trim (Completion.fullContent st)).
    + now rewrite app_nil_r.
    + now rewrite CompletionFacts.processResponseAndSave_commit.
Qed.

(* ================================================================== *)
(** * The response cleaner *)
(* ================================================================== *)

Module CleanFacts.

Lemma trimStart_blank (s : jstring) :
  Forall (fun c => isSpace c = true) s -> trimStart s = [].
Proof.
  induction 1 as [|c s Hc _ IH]; simpl.
  - reflexivity.
  - now rewrite Hc.
Qed.

Lemma trim_blank (s : jstring) :
  Forall (fun c => isSpace c = true) s -> trim s = [].
Proof.
  intros H. unfold trim, trimEnd. now rewrite (trimStart_blank H).
Qed.

Lemma fallbackText_nonempty : fallbackText <> [].
Proof. discriminate. Qed.

End CleanFacts.

(** C7, as stated, fails: on the empty string the cleaner returns the
    empty string. *)
Lemma cleanResponse_empty_counterexample : cleanResponse [] = [].
Proof. reflexivity. Qed.

(** C7, amended: for every non-empty input string the response cleaner
    returns a non-empty result, and when stripping markers, model tokens,
    fenced blocks and blank-line runs leaves an empty or blank string, the
    result is the fixed apology string.  (On the empty input it returns the
    empty string.) *)
Theorem cleanResponse_nonempty :
  forall content : jstring,
    content <> [] ->
    cleanResponse content <> [] /\
    (Forall (fun c => isSpace c = true) (stripChrome content) ->
     cleanResponse content = fallbackText).
Proof.
  intros content Hne. unfold cleanResponse.
  destruct content as [|c content]; [congruence|].
  split.
  - destruct (mentionsMarker _).
    + destruct (trim (join _ _)); [apply CleanFacts.fallbackText_nonempty | discriminate].
    + destruct (trim (stripChrome _)); [apply CleanFacts.fallbackText_nonempty | discriminate].
  - intros Hblank. rewrite (CleanFacts.trim_blank Hblank). reflexivity.
Qed.

Lemma cleanResponse_nonempty_witness :
  jq "EMOTION_LOG: {'emotion':'sad'}" <> [] /\
  cleanResponse (jq "EMOTION_LOG: {'emotion':'sad'}") <> [] /\
  (Forall (fun c => isSpace c = true)
     (stripChrome (jq "EMOTION_LOG: {'emotion':'sad'}")) ->
   cleanResponse (jq "EMOTION_LOG: {'emotion':'sad'}") = fallbackText).
Proof.
  assert (H : jq "EMOTION_LOG: {'emotion':'sad'}" <> []) by discriminate.
  split; [exact H|].
  exact (@cleanResponse_nonempty (jq "EMOTION_LOG: {'emotion':'sad'}") H).
Defined.

(* ================================================================== *)
(** * Metadata extraction *)
(* ================================================================== *)

Module ExtractFacts.
Import StringFacts.












Lemma skipn_app_exact (a b : jstring) : skipn (List.length a) (a ++ b) = b.
Proof. induction a; simpl; auto. Qed.








(** ** The cleaned text holds no marker *)

Lemma replaceAllFrom_skip (m : jstring -> option nat) (rep : jstring)
                          (k : nat) (s : jstring) :
  k <= List.length s ->
  replaceAllFrom m rep k s = replaceAllFrom m rep 0 (skipn k s).
Proof.
  revert s. induction k as [|k IH]; intros s H.
  - reflexivity.
  - destruct s as [|c s]; simpl in H; [lia|].
    simpl. apply IH. lia.
Qed.









Lemma trimStart_suffix (s : jstring) : exists a, s = a ++ trimStart s.
Proof.
  induction s as [|c s [a IH]]; simpl.
  - now exists [].
  - destruct (isSpace c).
    + exists (c :: a). simpl. now f_equal.
    + now exists [].
Qed.

Lemma trim_substring (s : jstring) : exists a b, s = a ++ trim s ++ b.
Proof.
  destruct (trimStart_suffix s) as [a Ha].
  destruct (trimStart_suffix (rev (trimStart s))) as [b Hb].
  exists a, (rev b). unfold trim, trimEnd.
  rewrite <- rev_app_distr, <- Hb, rev_involutive. exact Ha.
Qed.

Lemma trim_includes (s p : jstring) :
  includes (trim s) p = true -> includes s p = true.
Proof.
  rewrite !includes_spec. intros [pre [post H]].
  destruct (trim_substring s) as [a [b E]].
  exists (a ++ pre), (post ++ b). rewrite E at 1. rewrite H.
  repeat rewrite <- app_assoc. reflexivity.
Qed.




End ExtractFacts.



(* ================================================================== *)
(** * Intensity of committed emotions *)
(* ================================================================== *)

Module IntensityFacts.

(** routes/emotions.js accepts an intensity only if it is a number between
    1 and 10. *)
Lemma postEmotion_in_range (body : value) (userFound : bool) (entry : value) :
  Emotions.pushed (Emotions.postEmotion body userFound) = Some entry ->
  intensityInRange entry.
Proof.
  unfold Emotions.postEmotion.
  destruct (getProp body "mood") as [mood|]; [|discriminate].
  destruct (getProp body "intensity") as [intensity|]; [|discriminate].
  destruct (getProp body "notes") as [notes|]; [|discriminate].
  destruct (negb _); [discriminate|].
  destruct intensity as [| | |m e| | |]; try discriminate.
  destruct (negb (num_lt _ _) && negb (num_gt _ _)) eqn:R; [|discriminate].
  simpl negb. cbv iota.
  destruct (negb userFound); [discriminate|].
  destruct (Emotions.notesContext notes) as [context|]; [|discriminate].
  destruct mood; try discriminate.
  simpl. intros H. inversion H as [E]. clear H E entry.
  unfold intensityInRange. simpl lookup. cbv iota.
  apply andb_true_iff in R. destruct R as [R1 R2].
  unfold num_gt, num_lt, numOfZ in R1, R2.
  rewrite negb_involutive in R1, R2.
  apply Qle_bool_iff in R1. apply Qle_bool_iff in R2. now split.
Qed.

(** The emotion branch of [processResponseAndSave] in routes/completion.js
    keeps an intensity only when it compares as between 1 and 10. *)
Lemma completion_emotionToLog_in_range (inferredEmotion : value)
                                       (userPrompt : jstring) (entry : value) :
  Completion.emotionToLog inferredEmotion userPrompt = Ok (Some entry) ->
  exists l, entry = VObj l /\
    match lookup (js "intensity") l with
    | None => True
    | Some v => exists x, toNumber v = Ok x /\
                          num_ge x (numOfZ 1) = true /\ num_le x (numOfZ 10) = true
    end.
Proof.
  unfold Completion.emotionToLog.
  destruct (truthy _); [|discriminate].
  unfold geNumber, leNumber.
  destruct (toNumber (getOwn inferredEmotion (js "intensity"))) as [x|] eqn:N;
    [|discriminate].
  cbn [bind].
  destruct (num_ge x (numOfZ 1)) eqn:G; cbn [bind].
  - destruct (num_le x (numOfZ 10)) eqn:L; cbn [bind];
      intros H; inversion H as [E]; clear H E entry;
      eexists; (split; [reflexivity|]).
    + simpl lookup. cbv iota. exists x. now repeat split.
    + exact I.
  - intros H. inversion H as [E]. clear H E entry.
    eexists. split; [reflexivity|]. exact I.
Qed.

End IntensityFacts.

(** C4 holds for [POST /emotions] and for the commit of routes/completion.js
    (see [IntensityFacts]), but not for the commit of the llama.cpp variant:
    its [processStreamResponse] pushes the intensity of the marker as it
    is.  Here the upstream sends an [EMOTION_LOG] marker with intensity 99
    and the entry is stored with intensity 99. *)
Theorem optimized_commit_unclamped_intensity :
  forall sanitizeResponse : jstring -> jstring,
    emotionalLog
      (Optimized.store
         (Optimized.run Optimized.defaultStop sanitizeResponse (js "hello") 7
            (Optimized.start emptyDb)
            [Data (Optimized.deltaChunk
                     (jq "EMOTION_LOG: {'emotion':'sad','intensity':99}"));
             End]))
    = [(7, VObj [ (js "emotion", VStr (js "sad"));
                  (js "intensity", VNum 99 0);
                  (js "context", VStr (js "hello")) ])] /\
    ~ intensityInRange
        (VObj [ (js "emotion", VStr (js "sad"));
                (js "intensity", VNum 99 0);
                (js "context", VStr (js "hello")) ]).
Proof.
  intros san. split.
  - vm_compute. reflexivity.
  - simpl. intros [_ H]. revert H. vm_compute. intros H. now apply H.
Qed.

(* ================================================================== *)
(** * The intelligence compressor *)
(* ================================================================== *)

Module CompressorFacts.
Import Compressor.

(** ** Comparisons with a token count *)

Lemma num_gt_nat (n limit : nat) :
  num_gt (numOfNat n) (numOfNat limit) = Nat.ltb limit n.
Proof.
  unfold num_gt, num_lt, numOfNat, numOfZ.
  destruct (Nat.ltb_spec limit n) as [H | H].
  - apply negb_true_iff. destruct (Qle_bool _ _) eqn:E; [|reflexivity].
    apply Qle_bool_iff in E. rewrite <- Zle_Qle in E. lia.
  - apply negb_false_iff. apply Qle_bool_iff. rewrite <- Zle_Qle. lia.
Qed.

Lemma estimate_le (text : jstring) (n : nat) :
  List.length text <= 4 * n -> estimateTokenCount text <= n.
Proof.
  unfold estimateTokenCount. intros H.
  assert (L : (List.length text + 3) / 4 < S n).
  { apply Nat.Div0.div_lt_upper_bound. lia. }
  lia.
Qed.

Lemma estimate_length (text : jstring) :
  List.length text <= 4 * estimateTokenCount text.
Proof.
  unfold estimateTokenCount.
  pose proof (Nat.div_mod (List.length text + 3) 4 ltac:(lia)) as E.
  pose proof (Nat.mod_upper_bound (List.length text + 3) 4 ltac:(lia)) as M.
  lia.
Qed.

(** ** Truncation honours its limit *)

Lemma truncateLoop_bound (parts : list jstring) (limit : nat)
                         (result : jstring) (tokenCount : nat) :
  List.length result <= 4 * tokenCount ->
  tokenCount <= limit ->
  estimateTokenCount (truncateLoop parts (numOfNat limit) result tokenCount) <= limit.
Proof.
  revert result tokenCount.
  induction parts as [|part rest IH]; intros result tokenCount Hlen Hcount;
    cbn [truncateLoop].
  - apply Nat.le_trans with tokenCount; [now apply estimate_le | exact Hcount].
  - rewrite num_gt_nat.
    destruct (Nat.ltb_spec limit (tokenCount + estimateTokenCount (part ++ js ","))) as [H | H].
    + apply Nat.le_trans with tokenCount; [now apply estimate_le | exact Hcount].
    + apply IH; [|exact H].
      pose proof (estimate_length (part ++ js ",")) as E.
      rewrite length_app in E. simpl in E.
      rewrite !length_app.
      destruct result; simpl in *; lia.
Qed.

Lemma truncate_bound (text : jstring) (limit : nat) :
  estimateTokenCount (truncateToTokenLimit text (numOfNat limit)) <= limit.
Proof.
  unfold truncateToTokenLimit. apply truncateLoop_bound; simpl; lia.
Qed.

Lemma compressDataSemantically_bound (data : list (jstring * value))
                                     (limit : nat) (s : jstring) :
  compressDataSemantically data (numOfNat limit) = Ok s ->
  estimateTokenCount s <= limit.
Proof.
  unfold compressDataSemantically.
  destruct (compressedParts data) as [parts|]; [|discriminate].
  cbn [bind]. rewrite num_gt_nat.
  destruct (Nat.ltb_spec limit (estimateTokenCount (joinParts parts))) as [H | H];
    intros E; inversion E; subst.
  - apply truncate_bound.
  - exact H.
Qed.

Lemma formatSemanticCompressed_bound (data : list (jstring * value))
                                     (limit : nat) (s : jstring) :
  formatSemanticCompressed data (numOfNat limit) = Ok s ->
  estimateTokenCount s <= limit.
Proof.
  unfold formatSemanticCompressed. destruct data.
  - intros E. inversion E. unfold estimateTokenCount. simpl. lia.
  - apply compressDataSemantically_bound.
Qed.


(** ** The assembled prompt *)

Lemma join_weight (l : list jstring) :
  List.length (join (js " ") l) <= weight l.
Proof.
  induction l as [|x [|y l] IH]; simpl in *.
  - lia.
  - lia.
  - rewrite length_app. simpl. lia.
Qed.

Lemma weight_app (a b : list jstring) : weight (a ++ b) = weight a + weight b.
Proof. induction a as [|x a IH]; simpl; [reflexivity | lia]. Qed.

Lemma pushSection_weight (tag : string) (text : jstring) (limit : nat)
                         (l : list jstring) :
  pushSection tag text (Z.of_nat limit) = Ok l ->
  weight l <= 4 * limit + List.length (js tag) + 3.
Proof.
  unfold pushSection. destruct text as [|c text].
  - intros E. inversion E. simpl. lia.
  - change (numOfZ (Z.of_nat limit)) with (numOfNat limit).
    destruct (formatSemanticCompressed _ _) as [compressed|] eqn:F; [|discriminate].
    apply formatSemanticCompressed_bound in F.
    pose proof (estimate_length compressed) as L.
    cbn [bind]. destruct compressed as [|d compressed].
    + intros E. inversion E. simpl. lia.
    + intros E. inversion E. subst l. unfold weight. cbn [fold_right].
      rewrite length_app. cbn [List.length] in *. rewrite length_app.
      cbn [List.length]. lia.
Qed.

(** Whatever was compressed before, the prompt holds at most six sections,
    each within its own fixed limit. *)
Lemma generateOptimizedPrompt_bound
    (compressedContext : list (jstring * option jstring)) (strategy : value)
    (prompt : jstring) :
  generateOptimizedPrompt compressedContext strategy = Ok prompt ->
  estimateTokenCount prompt <= 146.
Proof.
  unfold generateOptimizedPrompt.
  change 30%Z with (Z.of_nat 30). change 25%Z with (Z.of_nat 25).
  change 20%Z with (Z.of_nat 20). change 15%Z with (Z.of_nat 15).
  destruct (pushSection "MICRO" _ _) as [micro|] eqn:E1; [|discriminate].
  destruct (pushSection "TOPIC" _ _) as [topic|] eqn:E2; [|discriminate].
  destruct (pushSection "CORE" _ _) as [core|] eqn:E3; [|discriminate].
  cbn [bind].
  apply pushSection_weight in E1, E2, E3.
  assert (B : forall (b : bool) text (l : list jstring),
             (if b then pushSection "BEHAV" text (Z.of_nat 20) else Ok []) = Ok l ->
             weight l <= 88).
  { intros [] text l E; [apply pushSection_weight in E; simpl in E; lia|].
    inversion E. simpl. lia. }
  assert (C : forall (b : bool) text (l : list jstring),
             (if b then pushSection "COG" text (Z.of_nat 20) else Ok []) = Ok l ->
             weight l <= 86).
  { intros [] text l E; [apply pushSection_weight in E; simpl in E; lia|].
    inversion E. simpl. lia. }
  assert (P : forall (b : bool) text (l : list jstring),
             (if b then pushSection "PRED" text (Z.of_nat 15) else Ok []) = Ok l ->
             weight l <= 67).
  { intros [] text l E; [apply pushSection_weight in E; simpl in E; lia|].
    inversion E. simpl. lia. }
  destruct (if negb (isString strategy "minimal") then pushSection "BEHAV" _ _ else _)
    as [behav|] eqn:E4; [|discriminate].
  cbn [bind].
  destruct (if negb (isString strategy "minimal") then pushSection "COG" _ _ else _)
    as [cog|] eqn:E5; [|discriminate].
  cbn [bind].
  destruct (if isString strategy "comprehensive" then _ else _)
    as [pred|] eqn:E6; [|discriminate].
  cbn [bind].
  apply B in E4. apply C in E5. apply P in E6.
  intros E. inversion E. subst prompt.
  apply estimate_le.
  eapply Nat.le_trans; [apply join_weight|].
  rewrite !weight_app. simpl in E1, E2, E3. lia.
Qed.

(** ** What a successful run returns *)

Lemma compressSteps_ok (intelligenceContext : value) (messageType : jstring)
    (complexity usedModel qualityTarget history forced : value) (r : compression) :
  compressSteps intelligenceContext messageType complexity usedModel
                qualityTarget history forced = Ok r ->
  exists budget compressedContext clusters,
    calculateOptimalTokenBudget usedModel messageType complexity history = Ok budget /\
    generateOptimizedPrompt compressedContext
      (if truthy forced then forced else VStr (selectOptimalStrategy budget))
    = Ok (compressedPrompt r) /\
    meta r = Compressed
               (if truthy forced then forced else VStr (selectOptimalStrategy budget))
               budget (estimateTokenCount (compressedPrompt r)) usedModel clusters.
Proof.
  unfold compressSteps.
  destruct (calculateOptimalTokenBudget _ _ _ _) as [budget|]; [|discriminate].
  cbn [bind].
  destruct (clusterIntelligenceData _ _ _) as [clustered|]; [|discriminate].
  cbn [bind].
  destruct (performPredictiveCompression _ _ _) as [cc|]; [|discriminate].
  cbn [bind]. unfold optimizeCompressionQuality.
  destruct (toNumber qualityTarget); [|discriminate].
  cbn [bind].
  destruct (generateOptimizedPrompt _ _) as [finalPrompt|] eqn:G; [|discriminate].
  cbn [bind].
  destruct (calculateCompressionMetrics _); [|discriminate].
  cbn [bind]. intros E. inversion E. subst r. cbn [compressedPrompt meta].
  exists budget, cc, (map fst clustered). repeat split. exact G.
Qed.

Lemma compressForLLM_cases (intelligenceContext : value) (messageType : jstring)
                           (complexity : value) (opts : options) :
  compressForLLM intelligenceContext messageType complexity opts
  = getFallbackCompression messageType \/
  compressSteps intelligenceContext messageType
    (orDefault complexity (VNum 5 0))
    (orDefault (model opts) (str "gpt-4o"))
    (orDefault (qualityTarget opts) (dec2 85))
    (orDefault (conversationHistory opts) (VArr []))
    (orDefault (forceStrategy opts) VNull)
  = Ok (compressForLLM intelligenceContext messageType complexity opts).
Proof.
  unfold compressForLLM. destruct (compressSteps _ _ _ _ _ _ _); auto.
Qed.

Lemma selectOptimalStrategy_integer (z : Z) :
  selectOptimalStrategy (numOfZ z)
  = if (z <? 50)%Z then js "minimal"
    else if (150 <? z)%Z then js "comprehensive"
    else js "balanced".
Proof.
  unfold selectOptimalStrategy, num_gt, num_lt, numOfZ.
  assert (L : forall a b : Z, negb (Qle_bool (inject_Z b) (inject_Z a)) = (a <? b)%Z).
  { intros a b. destruct (Z.ltb_spec a b) as [H | H].
    - apply negb_true_iff. destruct (Qle_bool _ _) eqn:E; [|reflexivity].
      apply Qle_bool_iff in E. rewrite <- Zle_Qle in E. lia.
    - apply negb_false_iff. apply Qle_bool_iff. now rewrite <- Zle_Qle. }
  now rewrite !L.
Qed.

End CompressorFacts.

(** C8, as stated, fails: the sections of the prompt are cut to fixed
    limits, whatever the budget.  With an empty intelligence context, a
    [greeting] and no options the budget is 36 and the prompt is estimated
    at 74 tokens. *)
Lemma compressor_budget_counterexample :
  Compressor.calculateOptimalTokenBudget
    (Compressor.str "gpt-4o") (js "greeting") (VNum 5 0) (VArr [])
  = Ok (numOfZ 36) /\
  match Compressor.meta
          (Compressor.compressForLLM (VObj []) (js "greeting") VUndef
                                     Compressor.noOptions) with
  | Compressor.Compressed strategy budget actualTokens _ _ =>
      strategy = VStr (js "minimal") /\ budget = numOfZ 36 /\ actualTokens = 74
  | Compressor.Fallback => False
  end /\
  Compressor.estimateTokenCount
    (Compressor.compressedPrompt
       (Compressor.compressForLLM (VObj []) (js "greeting") VUndef
                                  Compressor.noOptions))
  = 74 /\
  num_gt (Compressor.numOfNat 74) (numOfZ 36) = true.
Proof.
  split; [vm_compute; reflexivity|].
  split; [vm_compute; repeat split; reflexivity|].
  split; vm_compute; reflexivity.
Qed.

(** C8, amended: the prompt [compressForLLM] returns is estimated at 146
    tokens at most when the compression succeeds, which is also the
    [actualTokens] of its metadata; when the compression throws, the prompt
    is the fallback sentence around the message type. *)
Theorem compressor_prompt_bound
    (intelligenceContext : value) (messageType : jstring) (complexity : value)
    (opts : Compressor.options) :
  match Compressor.meta
          (Compressor.compressForLLM intelligenceContext messageType
                                     complexity opts) with
  | Compressor.Compressed _ _ actualTokens _ _ =>
      actualTokens
      = Compressor.estimateTokenCount
          (Compressor.compressedPrompt
             (Compressor.compressForLLM intelligenceContext messageType
                                        complexity opts)) /\
      actualTokens <= 146
  | Compressor.Fallback =>
      Compressor.compressedPrompt
        (Compressor.compressForLLM intelligenceContext messageType
                                   complexity opts)
      = js "User shows " ++ messageType ++ js " communication pattern."
  end.
Proof.
  destruct (CompressorFacts.compressForLLM_cases
              intelligenceContext messageType complexity opts) as [E | E].
  - rewrite E. reflexivity.
  - apply CompressorFacts.compressSteps_ok in E.
    destruct E as (budget & cc & clusters & _ & G & M).
    rewrite M. split; [reflexivity|].
    exact (CompressorFacts.generateOptimizedPrompt_bound _ _ G).
Qed.

(** C9, as stated, fails at both thresholds: the code compares with [<] and
    [>].  With the default model, complexity 5 and a history of five
    messages the budget is 150 and the strategy is [balanced]; with
    [gpt-4], complexity 0 and the same history the budget is 50 and the
    strategy is [balanced] again. *)
Lemma strategy_threshold_counterexample :
  let history := VArr [VNum 1 0; VNum 2 0; VNum 3 0; VNum 4 0; VNum 5 0] in
  match Compressor.meta
          (Compressor.compressForLLM (VObj []) (js "standard") VUndef
             {| Compressor.model := VUndef;
                Compressor.tokenBudget := VUndef;
                Compressor.qualityTarget := VUndef;
                Compressor.conversationHistory := history;
                Compressor.userPreferences := VUndef;
                Compressor.forceStrategy := VUndef |}) with
  | Compressor.Compressed strategy budget _ _ _ =>
      budget = numOfZ 150 /\ strategy = VStr (js "balanced") /\
      specStrategy budget = js "comprehensive"
  | Compressor.Fallback => False
  end /\
  match Compressor.meta
          (Compressor.compressForLLM (VObj []) (js "standard") (VNum 0 0)
             {| Compressor.model := Compressor.str "gpt-4";
                Compressor.tokenBudget := VUndef;
                Compressor.qualityTarget := VUndef;
                Compressor.conversationHistory := history;
                Compressor.userPreferences := VUndef;
                Compressor.forceStrategy := VUndef |}) with
  | Compressor.Compressed strategy budget _ _ _ =>
      budget = numOfZ 50 /\ strategy = VStr (js "balanced") /\
      specStrategy budget = js "minimal"
  | Compressor.Fallback => False
  end.
Proof.
  split; vm_compute; repeat split; reflexivity.
Qed.

(** C9, amended: when the caller forces no strategy (the option is left out
    or falsy) and the compression succeeds, the budget of the metadata is
    the computed one and the strategy depends on it alone: [minimal] below
    50, [comprehensive] above 150, [balanced] otherwise, 50 and 150
    included. *)
Theorem strategy_selection
    (intelligenceContext : value) (messageType : jstring) (complexity : value)
    (opts : Compressor.options)
    (strategy : value) (budget : num) (actualTokens : nat) (usedModel : value)
    (clusters : list jstring) :
  truthy (Compressor.orDefault (Compressor.forceStrategy opts) VNull) = false ->
  Compressor.meta
    (Compressor.compressForLLM intelligenceContext messageType complexity opts)
  = Compressor.Compressed strategy budget actualTokens usedModel clusters ->
  Compressor.calculateOptimalTokenBudget
    usedModel messageType
    (Compressor.orDefault complexity (VNum 5 0))
    (Compressor.orDefault (Compressor.conversationHistory opts) (VArr []))
  = Ok budget /\
  strategy = VStr (Compressor.selectOptimalStrategy budget) /\
  forall z : Z,
    budget = numOfZ z ->
    strategy = VStr (if (z <? 50)%Z then js "minimal"
                     else if (150 <? z)%Z then js "comprehensive"
                     else js "balanced").
Proof.
  intros F M.
  destruct (CompressorFacts.compressForLLM_cases
              intelligenceContext messageType complexity opts) as [E | E].
  - rewrite E in M. discriminate.
  - apply CompressorFacts.compressSteps_ok in E.
    destruct E as (budget' & cc & clusters' & B & _ & M').
    rewrite M' in M. rewrite F in M. inversion M. subst.
    split; [exact B|]. split; [reflexivity|].
    intros z ->. now rewrite CompressorFacts.selectOptimalStrategy_integer.
Qed.

Lemma strategy_selection_witness :
  Compressor.calculateOptimalTokenBudget
    (Compressor.str "gpt-4o") (js "greeting")
    (Compressor.orDefault VUndef (VNum 5 0))
    (Compressor.orDefault (Compressor.conversationHistory Compressor.noOptions)
                          (VArr []))
  = Ok (numOfZ 36) /\
  VStr (js "minimal") = VStr (Compressor.selectOptimalStrategy (numOfZ 36)) /\
  forall z : Z,
    numOfZ 36 = numOfZ z ->
    VStr (js "minimal")
    = VStr (if (z <? 50)%Z then js "minimal"
            else if (150 <? z)%Z then js "comprehensive"
            else js "balanced").
Proof.
  apply (@strategy_selection (VObj []) (js "greeting") VUndef Compressor.noOptions
           (VStr (js "minimal")) (numOfZ 36) 74 (Compressor.str "gpt-4o")
           (map js ["core"; "dynamic"; "contextual"; "predictive"; "behavioral";
                    "emotional"; "cognitive"]%string)).
  - vm_compute. reflexivity.
  - vm_compute. reflexivity.
Defined.

(** C10: the [tokenBudget] of the options has no effect.  Two calls of
    [compressForLLM] whose options differ in [tokenBudget] only return the
    same result, prompt and metadata; the budget of the metadata is the one
    [calculateOptimalTokenBudget] computes from the model, the message
    type, the complexity and the history. *)
Theorem tokenBudget_noninterference
    (intelligenceContext : value) (messageType : jstring) (complexity : value)
    (model tokenBudget1 tokenBudget2 qualityTarget conversationHistory
     userPreferences forceStrategy : value) :
  let call tokenBudget :=
    Compressor.compressForLLM intelligenceContext messageType complexity
      {| Compressor.model := model;
         Compressor.tokenBudget := tokenBudget;
         Compressor.qualityTarget := qualityTarget;
         Compressor.conversationHistory := conversationHistory;
         Compressor.userPreferences := userPreferences;
         Compressor.forceStrategy := forceStrategy |} in
  call tokenBudget1 = call tokenBudget2 /\
  match Compressor.meta (call tokenBudget1) with
  | Compressor.Compressed _ budget _ _ _ =>
      Compressor.calculateOptimalTokenBudget
        (Compressor.orDefault model (Compressor.str "gpt-4o")) messageType
        (Compressor.orDefault complexity (VNum 5 0))
        (Compressor.orDefault conversationHistory (VArr []))
      = Ok budget
  | Compressor.Fallback => True
  end.
Proof.
  intros call. split; [reflexivity|].
  destruct (CompressorFacts.compressForLLM_cases
              intelligenceContext messageType complexity
              {| Compressor.model := model;
                 Compressor.tokenBudget := tokenBudget1;
                 Compressor.qualityTarget := qualityTarget;
                 Compressor.conversationHistory := conversationHistory;
                 Compressor.userPreferences := userPreferences;
                 Compressor.forceStrategy := forceStrategy |}) as [E | E].
  - unfold call. rewrite E. exact I.
  - apply CompressorFacts.compressSteps_ok in E.
    destruct E as (budget & cc & clusters & B & _ & M).
    unfold call. rewrite M. exact B.
Qed.

(* ================================================================== *)
(** * The response cleaner, continued *)
(* ================================================================== *)

Module CleanerFacts.
Import StringFacts.

(** ** [trim] *)

Lemma trimStart_idem (s : jstring) : trimStart (trimStart s) = trimStart s.
Proof.
  induction s as [|c s IH]; simpl; [reflexivity|].
  destruct (isSpace c) eqn:E; [exact IH|]. simpl. now rewrite E.
Qed.

Lemma trimStart_head (c : ascii) (r : jstring) :
  isSpace c = false -> trimStart (c :: r) = c :: r.
Proof. intros E. simpl. now rewrite E. Qed.

Lemma trimStart_cases (s : jstring) :
  trimStart s = [] \/ exists c r, trimStart s = c :: r /\ isSpace c = false.
Proof.
  induction s as [|c s IH]; simpl; [now left|].
  destruct (isSpace c) eqn:E; [exact IH|]. right. now exists c, s.
Qed.

Lemma trim_idem (s : jstring) : trim (trim s) = trim s.
Proof.
  unfold trim at 2 3.
  destruct (trimStart_cases s) as [-> | (c & r & -> & C)]; [reflexivity|].
  destruct (@CompletionFacts.trim_head c r C) as [r' E].
  unfold trim in E at 1. rewrite (@trimStart_head c r C) in E.
  unfold trim. rewrite E, (@trimStart_head c r' C), <- E.
  unfold trimEnd. now rewrite rev_involutive, trimStart_idem.
Qed.

(** ** Lower case *)

Lemma toLowerCase_app (a b : jstring) :
  toLowerCase (a ++ b) = toLowerCase a ++ toLowerCase b.
Proof. apply map_app. Qed.

Lemma substring_of_lower (p s : jstring) :
  substring_of p s -> substring_of (toLowerCase p) (toLowerCase s).
Proof.
  intros (pre & post & ->). exists (toLowerCase pre), (toLowerCase post).
  now rewrite !toLowerCase_app.
Qed.

Lemma toLowerCase_join (parts : list jstring) :
  toLowerCase (join [LF] parts) = join [LF] (map toLowerCase parts).
Proof.
  induction parts as [|p [|q ps] IH]; [reflexivity | reflexivity |].
  change (join [LF] (p :: q :: ps)) with (p ++ [LF] ++ join [LF] (q :: ps)).
  rewrite !toLowerCase_app, IH. reflexivity.
Qed.

(** ** Lines *)

(** A text without line feed that occurs in the joined lines occurs in
    one of them. *)
Lemma includes_join (m0 : ascii) (m : jstring) (parts : list jstring) :
  ~ In LF (m0 :: m) ->
  includes (join [LF] parts) (m0 :: m) = true ->
  exists part, In part parts /\ includes part (m0 :: m) = true.
Proof.
  intros F. induction parts as [|p [|q ps] IH].
  - discriminate.
  - intros H. exists p. split; [now left | exact H].
  - change (join [LF] (p :: q :: ps)) with (p ++ LF :: join [LF] (q :: ps)).
    intros H. apply includes_spec, substring_of_app_cases in H.
    destruct H as [H | [H | (c & b' & E & I)]].
    + exists p. split; [now left | now apply includes_spec].
    + apply includes_spec in H.
      rewrite includes_cons_other in H by (intros E0; apply F; left; symmetry; exact E0).
      destruct (IH H) as (part & P & Q). exists part. split; [now right | exact Q].
    + inversion E. subst. contradiction.
Qed.

Lemma mentionsMarker_spec (lower : jstring) :
  mentionsMarker lower = false <->
  includes lower (js "task_inference") = false /\
  includes lower (js "emotion_log") = false.
Proof. unfold mentionsMarker. apply orb_false_iff. Qed.

Lemma mentionsMarker_filtered (cleaned : jstring) :
  mentionsMarker
    (toLowerCase
       (trim (join [LF]
                (filter (fun line => negb (mentionsMarker (toLowerCase line)))
                        (split LF cleaned))))) = false.
Proof.
  set (kept := filter _ _).
  assert (K : forall line, In line kept -> mentionsMarker (toLowerCase line) = false).
  { intros line H. apply filter_In in H. now apply negb_true_iff. }
  assert (G : forall m0 m, ~ In LF (m0 :: m) ->
              (forall line, In line kept -> includes (toLowerCase line) (m0 :: m) = false) ->
              includes (toLowerCase (trim (join [LF] kept))) (m0 :: m) = false).
  { intros m0 m F A.
    destruct (includes _ _) eqn:E; [|reflexivity]. exfalso.
    assert (E' : includes (toLowerCase (join [LF] kept)) (m0 :: m) = true).
    { apply includes_spec. apply includes_spec in E.
      destruct (ExtractFacts.trim_substring (join [LF] kept)) as (a & b & T).
      rewrite T at 1. rewrite !toLowerCase_app.
      now apply substring_of_app_r, substring_of_app_l. }
    rewrite toLowerCase_join in E'.
    destruct (includes_join _ F E') as (part & P & Q).
    apply in_map_iff in P. destruct P as (line & <- & L).
    rewrite (A line L) in Q. discriminate. }
  apply mentionsMarker_spec. split.
  - apply G.
    + intros H. vm_compute in H. repeat (destruct H as [H|H]; [discriminate|]). exact H.
    + intros line L. now apply (proj1 (mentionsMarker_spec _) (K line L)).
  - apply G.
    + intros H. vm_compute in H. repeat (destruct H as [H|H]; [discriminate|]). exact H.
    + intros line L. now apply (proj1 (mentionsMarker_spec _) (K line L)).
Qed.

Lemma cleanResponse_cases (content : jstring) :
  cleanResponse content = [] \/
  cleanResponse content = fallbackText \/
  (exists x, cleanResponse content = trim x /\
             mentionsMarker (toLowerCase (trim x)) = false).
Proof.
  unfold cleanResponse. destruct content as [|c content]; [now left|].
  right.
  destruct (mentionsMarker (toLowerCase (trim (stripChrome (c :: content))))) eqn:M.
  - destruct (trim (join _ _)) eqn:T; [now left|]. right.
    eexists. split; [symmetry; exact T|]. apply mentionsMarker_filtered.
  - destruct (trim (stripChrome (c :: content))) eqn:T; [now left|]. right.
    exists (stripChrome (c :: content)). split; [symmetry; exact T|].
    rewrite T. exact M.
Qed.

End CleanerFacts.

(** X3: What [cleanResponse] returns never names a marker, in any letter
    case: neither [task_inference] nor [emotion_log] occurs in its lower
    case, hence neither marker literal occurs in it. *)
Theorem cleanResponse_no_marker (content : jstring) :
  includes (toLowerCase (cleanResponse content)) (js "task_inference") = false /\
  includes (toLowerCase (cleanResponse content)) (js "emotion_log") = false /\
  includes (cleanResponse content) TASK_INFERENCE = false /\
  includes (cleanResponse content) EMOTION_LOG = false.
Proof.
  assert (L : mentionsMarker (toLowerCase (cleanResponse content)) = false).
  { destruct (CleanerFacts.cleanResponse_cases content) as [-> | [-> | (x & -> & M)]];
      [reflexivity | vm_compute; reflexivity | exact M]. }
  apply CleanerFacts.mentionsMarker_spec in L. destruct L as [T E].
  split; [exact T|]. split; [exact E|].
  split.
  - destruct (includes (cleanResponse content) TASK_INFERENCE) eqn:I; [|reflexivity].
    apply StringFacts.includes_spec, CleanerFacts.substring_of_lower,
      StringFacts.includes_spec in I.
    change (toLowerCase TASK_INFERENCE) with (js "task_inference") in I. congruence.
  - destruct (includes (cleanResponse content) EMOTION_LOG) eqn:I; [|reflexivity].
    apply StringFacts.includes_spec, CleanerFacts.substring_of_lower,
      StringFacts.includes_spec in I.
    change (toLowerCase EMOTION_LOG) with (js "emotion_log") in I. congruence.
Qed.

(** X4: What [cleanResponse] returns has no white space at its ends. *)
Theorem cleanResponse_trimmed (content : jstring) :
  trim (cleanResponse content) = cleanResponse content.
Proof.
  destruct (CleanerFacts.cleanResponse_cases content) as [-> | [-> | (x & -> & _)]].
  - reflexivity.
  - vm_compute. reflexivity.
  - apply CleanerFacts.trim_idem.
Qed.

(* ================================================================== *)
(** * Metadata extraction, continued *)
(* ================================================================== *)

Module PlainFacts.
Import StringFacts.

Lemma replaceAll_none (m : jstring -> option nat) (rep s : jstring) :
  (forall i, m (skipn i s) = None) -> replaceAll m rep s = s.
Proof.
  unfold replaceAll. induction s as [|c s IH]; intros N.
  - cbn. now rewrite (N 0 : m [] = None).
  - cbn [replaceAllFrom]. rewrite (N 0 : m (c :: s) = None).
    f_equal. apply IH. intros i. exact (N (S i)).
Qed.

Lemma firstMatch_none_intro (A : Type) (m : jstring -> option A) (s : jstring) :
  (forall i, m (skipn i s) = None) -> firstMatch m s = None.
Proof.
  induction s as [|c s IH]; intros N.
  - cbn. now rewrite (N 0 : m [] = None).
  - cbn [firstMatch]. rewrite (N 0 : m (c :: s) = None).
    rewrite IH; [reflexivity|]. intros i. exact (N (S i)).
Qed.

Lemma startsWith_skipn_includes (s p : jstring) (i : nat) :
  startsWith (skipn i s) p = true -> includes s p = true.
Proof.
  intros H. apply startsWith_spec in H. destruct H as [r H].
  apply includes_spec. exists (firstn i s), r.
  now rewrite <- H, firstn_skipn.
Qed.

Lemma startsWith_prefix (s p q : jstring) :
  startsWith s (p ++ q) = true -> startsWith s p = true.
Proof.
  intros H. apply startsWith_spec in H. destruct H as [r ->].
  apply startsWith_spec. exists (q ++ r). now rewrite app_assoc.
Qed.

Lemma absent_startsWith (s p : jstring) (i : nat) :
  includes s p = false -> startsWith (skipn i s) p = false.
Proof.
  intros H. destruct (startsWith (skipn i s) p) eqn:E; [|reflexivity].
  apply startsWith_skipn_includes in E. congruence.
Qed.

Lemma markerWithJson_absent (marker s : jstring) (i : nat) :
  includes s marker = false -> markerWithJson marker (skipn i s) = None.
Proof.
  intros H. unfold markerWithJson. now rewrite (@absent_startsWith s marker i H).
Qed.

Lemma markerOptJson_absent (marker s : jstring) (i : nat) :
  includes s marker = false -> markerOptJson marker (skipn i s) = None.
Proof.
  intros H. unfold markerOptJson. now rewrite (@absent_startsWith s marker i H).
Qed.

Lemma markerLine_absent (s : jstring) (i : nat) :
  Optimized.hasMarker s = false -> markerLine (skipn i s) = None.
Proof.
  intros H. apply orb_false_iff in H. destruct H as [E T].
  unfold markerLine.
  now rewrite (@absent_startsWith s EMOTION_LOG i E), (@absent_startsWith s TASK_INFERENCE i T).
Qed.

Lemma matchMarker_absent (marker s : jstring) :
  includes s marker = false -> matchMarker marker s = None.
Proof.
  intros H. unfold matchMarker.
  rewrite firstMatch_none_intro; [reflexivity|].
  intros i. now apply markerWithJson_absent.
Qed.

End PlainFacts.

(** X15: A reply without marker name goes through [extractMetadata] unharmed:
    nothing is inferred, and the clean content is the reply with its runs
    of line feeds collapsed and its ends trimmed. *)
Theorem extractMetadata_no_marker (content : jstring) :
  Optimized.hasMarker content = false ->
  extractMetadata content
  = {| inferredTask := VNull;
       inferredEmotion := VNull;
       cleanContent := trim (replaceAll newlineRun [LF] content) |}.
Proof.
  intros H. pose proof H as H'. apply orb_false_iff in H'. destruct H' as [E T].
  unfold extractMetadata, extractMetadataWith, extractOneWith.
  rewrite (@PlainFacts.matchMarker_absent EMOTION_LOG content E),
    (@PlainFacts.matchMarker_absent TASK_INFERENCE content T).
  rewrite (@PlainFacts.replaceAll_none markerLine [] content); [reflexivity|].
  intros i. now apply PlainFacts.markerLine_absent.
Qed.

Lemma extractMetadata_no_marker_witness :
  Optimized.hasMarker (js "Hello there.") = false /\
  extractMetadata (js "Hello there.")
  = {| inferredTask := VNull;
       inferredEmotion := VNull;
       cleanContent := trim (replaceAll newlineRun [LF] (js "Hello there.")) |}.
Proof.
  assert (H : Optimized.hasMarker (js "Hello there.") = false) by reflexivity.
  split; [exact H|]. exact (@extractMetadata_no_marker (js "Hello there.") H).
Defined.


Module NewlineFacts.
Import StringFacts.

Lemma newlineRun_lfRun (s : jstring) :
  newlineRun s = if Nat.leb 2 (lfRun s) then Some (lfRun s) else None.
Proof. reflexivity. Qed.

Lemma lfRun_le (s : jstring) : lfRun s <= List.length s.
Proof.
  induction s as [|c s IH]; cbn; [lia|]. destruct (Ascii.eqb c LF); lia.
Qed.

Lemma lfRun_skip (s : jstring) : lfRun (skipn (lfRun s) s) = 0.
Proof.
  induction s as [|c s IH]; [reflexivity|].
  cbn [lfRun]. destruct (Ascii.eqb c LF) eqn:E; [exact IH|].
  cbn [skipn lfRun]. now rewrite E.
Qed.

Lemma collapsed_head (s : jstring) :
  lfRun s = 0 -> startsWith (replaceAllFrom newlineRun [LF] 0 s) [LF] = false.
Proof.
  destruct s as [|c s]; intros H; [reflexivity|].
  cbn [replaceAllFrom]. rewrite newlineRun_lfRun, H. cbn [Nat.leb].
  cbn [lfRun] in H. destruct (Ascii.eqb c LF) eqn:E; [discriminate|].
  cbn [startsWith]. rewrite Ascii.eqb_sym, E. reflexivity.
Qed.

Lemma collapsed (n : nat) (s : jstring) :
  List.length s <= n ->
  includes (replaceAllFrom newlineRun [LF] 0 s) [LF; LF] = false.
Proof.
  revert s. induction n as [|n IH]; intros s L.
  - destruct s; [reflexivity | cbn in L; lia].
  - destruct s as [|c s]; [reflexivity|]. cbn [List.length] in L.
    cbn [replaceAllFrom]. rewrite newlineRun_lfRun. cbn [lfRun].
    destruct (Ascii.eqb c LF) eqn:E.
    + apply Ascii.eqb_eq in E. subst c.
      destruct (lfRun s) as [|k] eqn:R.
      * cbn [Nat.leb]. cbn [includes startsWith].
        rewrite Ascii.eqb_refl. cbn [andb].
        change (match replaceAllFrom newlineRun [LF] 0 s with
                | [] => false
                | d :: s' => (LF =? d)%char && true
                end)
          with (startsWith (replaceAllFrom newlineRun [LF] 0 s) [LF]).
        rewrite (collapsed_head s R). cbn [orb]. apply IH. lia.
      * cbn [Nat.leb]. pose proof (lfRun_le s) as K. rewrite R in K.
        rewrite ExtractFacts.replaceAllFrom_skip by exact K.
        change ([LF] ++ ?x) with (LF :: x).
        cbn [includes startsWith]. rewrite Ascii.eqb_refl. cbn [andb].
        change (match replaceAllFrom newlineRun [LF] 0 (skipn (S k) s) with
                | [] => false
                | d :: s' => (LF =? d)%char && true
                end)
          with (startsWith (replaceAllFrom newlineRun [LF] 0 (skipn (S k) s)) [LF]).
        rewrite collapsed_head by (rewrite <- R; apply lfRun_skip).
        cbn [orb]. apply IH. rewrite length_skipn. lia.
    + cbn [Nat.leb]. cbn [includes startsWith]. rewrite Ascii.eqb_sym, E.
      cbn [andb orb]. apply IH. lia.
Qed.

End NewlineFacts.

(** X16: What [extractMetadata] returns as clean content has no white space at
    its ends and no empty line: two line feeds never follow each other. *)
Theorem extractMetadata_tidy (content : jstring) :
  trim (cleanContent (extractMetadata content)) = cleanContent (extractMetadata content) /\
  includes (cleanContent (extractMetadata content)) [LF; LF] = false.
Proof.
  unfold extractMetadata, extractMetadataWith.
  destruct (extractOneWith VNull JSON_parse EMOTION_LOG content content)
    as [emotion clean1].
  destruct (extractOneWith VNull JSON_parse TASK_INFERENCE content clean1)
    as [task clean2].
  cbn [cleanContent]. split; [apply CleanerFacts.trim_idem|].
  destruct (includes (trim _) [LF; LF]) eqn:E; [|reflexivity].
  apply ExtractFacts.trim_includes in E. unfold replaceAll in E at 1.
  now rewrite (@NewlineFacts.collapsed _ _ (le_n _)) in E.
Qed.

Module PlainReply.
Import StringFacts PlainFacts.

Lemma lineBreak_some (s : jstring) (n : nat) :
  lineBreak s = Some n ->
  (exists r, s = LF :: r /\ n = 1) \/ (exists r, s = CR :: LF :: r /\ n = 2).
Proof.
  unfold lineBreak. destruct s as [|c r]; [discriminate|].
  destruct (Ascii.eqb_spec c LF) as [->|_].
  - intros H. inversion H. left. now exists r.
  - destruct (Ascii.eqb_spec c CR) as [->|_]; [|discriminate].
    destruct r as [|d r]; [discriminate|].
    destruct (Ascii.eqb_spec d LF) as [->|_]; [|discriminate].
    intros H. inversion H. right. now exists r.
Qed.

Lemma lineBreaks_two (fuel : nat) (s : jstring) (k len : nat) :
  lineBreaks fuel s = (k, len) -> 2 <= k ->
  exists n1 n2, lineBreak s = Some n1 /\ lineBreak (skipn n1 s) = Some n2.
Proof.
  destruct fuel as [|fuel]; cbn [lineBreaks].
  - intros H. inversion H. lia.
  - destruct (lineBreak s) as [n1|] eqn:E1; [|intros H; inversion H; lia].
    destruct fuel as [|fuel]; cbn [lineBreaks].
    + intros H. inversion H. lia.
    + destruct (lineBreak (skipn n1 s)) as [n2|] eqn:E2.
      * intros _ _. now exists n1, n2.
      * intros H. inversion H. lia.
Qed.

Lemma blankLines_absent (s : jstring) (i : nat) :
  includes s [LF; LF] = false -> includes s [LF; CR; LF] = false ->
  blankLines (skipn i s) = None.
Proof.
  intros A B. unfold blankLines.
  destruct (lineBreaks _ _) as [k len] eqn:E.
  destruct (Nat.leb 2 k) eqn:K; [|reflexivity]. exfalso.
  apply Nat.leb_le in K.
  destruct (lineBreaks_two _ _ E K) as (n1 & n2 & E1 & E2).
  assert (X : forall p, substring_of p (skipn i s) -> includes s p = true).
  { intros p (pre & post & P). apply includes_spec.
    exists (firstn i s ++ pre), post.
    rewrite <- app_assoc, <- P. symmetry. apply firstn_skipn. }
  apply lineBreak_some in E1.
  destruct E1 as [(r & S & ->) | (r & S & ->)]; rewrite S in E2; cbn [skipn] in E2;
    apply lineBreak_some in E2;
    destruct E2 as [(r' & -> & _) | (r' & -> & _)].
  - rewrite (X [LF; LF]) in A; [discriminate|]. rewrite S. now exists [], r'.
  - rewrite (X [LF; CR; LF]) in B; [discriminate|]. rewrite S. now exists [], r'.
  - rewrite (X [LF; LF]) in A; [discriminate|]. rewrite S. now exists [CR], r'.
  - rewrite (X [LF; CR; LF]) in B; [discriminate|]. rewrite S. now exists [CR], r'.
Qed.

Lemma imToken_absent (s : jstring) (i : nat) :
  includes s (js "<|im_") = false -> imToken (skipn i s) = None.
Proof.
  intros A. unfold imToken.
  destruct (startsWith (skipn i s) (js "<|im_start|>")) eqn:E1.
  { apply (@startsWith_prefix _ (js "<|im_") (js "start|>")) in E1.
    apply startsWith_skipn_includes in E1. congruence. }
  destruct (startsWith (skipn i s) (js "<|im_end|>")) eqn:E2; [|reflexivity].
  apply (@startsWith_prefix _ (js "<|im_") (js "end|>")) in E2.
  apply startsWith_skipn_includes in E2. congruence.
Qed.

Lemma jsonFence_absent (s : jstring) (i : nat) :
  includes s (js "```json") = false -> jsonFence (skipn i s) = None.
Proof.
  intros A. unfold jsonFence. now rewrite (@absent_startsWith s _ i A).
Qed.

Lemma upper_absent (s : jstring) :
  mentionsMarker (toLowerCase s) = false ->
  includes s TASK_INFERENCE = false /\ includes s EMOTION_LOG = false.
Proof.
  intros M. apply CleanerFacts.mentionsMarker_spec in M. destruct M as [T E].
  split.
  - destruct (includes s TASK_INFERENCE) eqn:I; [|reflexivity].
    apply includes_spec, CleanerFacts.substring_of_lower, includes_spec in I.
    change (toLowerCase TASK_INFERENCE) with (js "task_inference") in I. congruence.
  - destruct (includes s EMOTION_LOG) eqn:I; [|reflexivity].
    apply includes_spec, CleanerFacts.substring_of_lower, includes_spec in I.
    change (toLowerCase EMOTION_LOG) with (js "emotion_log") in I. congruence.
Qed.

Lemma cleanup_absent (s : jstring) (i : nat) :
  mentionsMarker (toLowerCase s) = false -> CLEANUP_REGEX (skipn i s) = None.
Proof.
  intros M. destruct (upper_absent s M) as [T E]. unfold CLEANUP_REGEX.
  now rewrite (@markerOptJson_absent _ s i T), (@markerOptJson_absent _ s i E).
Qed.

Lemma stripChrome_plain (s : jstring) :
  includes s (js "<|im_") = false ->
  includes s (js "```json") = false ->
  includes s [LF; LF] = false ->
  includes s [LF; CR; LF] = false ->
  mentionsMarker (toLowerCase s) = false ->
  stripChrome s = s.
Proof.
  intros A B C D M. unfold stripChrome.
  rewrite (@replaceAll_none imToken [] s) by (intros i; now apply imToken_absent).
  rewrite (@replaceAll_none CLEANUP_REGEX [] s) by (intros i; now apply cleanup_absent).
  rewrite (@replaceAll_none jsonFence [] s) by (intros i; now apply jsonFence_absent).
  apply replaceAll_none. intros i. now apply blankLines_absent.
Qed.

End PlainReply.

(** X5: The cleaner leaves a plain reply alone: a text without white space at
    its ends, without model token, fenced JSON block, empty line or marker
    name in any letter case is returned as it is. *)
Theorem cleanResponse_plain (content : jstring) :
  trim content = content ->
  includes content (js "<|im_") = false ->
  includes content (js "```json") = false ->
  includes content [LF; LF] = false ->
  includes content [LF; CR; LF] = false ->
  mentionsMarker (toLowerCase content) = false ->
  cleanResponse content = content.
Proof.
  intros T A B C D M. unfold cleanResponse.
  destruct content as [|c content]; [reflexivity|].
  rewrite (PlainReply.stripChrome_plain _ A B C D M), T, M. reflexivity.
Qed.

Lemma cleanResponse_plain_witness :
  cleanResponse (js "I hear you." ++ [LF] ++ js "That sounds hard.")
  = js "I hear you." ++ [LF] ++ js "That sounds hard.".
Proof.
  apply cleanResponse_plain; vm_compute; reflexivity.
Defined.

(* ================================================================== *)
(** * What the streaming endpoint of routes/completion.js stores *)
(* ================================================================== *)

Module StoreFacts.
Import Completion.

Lemma onLine_store (st : state) (line : jstring) :
  store (fst (onLine st line)) = store st.
Proof.
  unfold onLine.
  destruct (startsWith line (js "data: ")); [|reflexivity].
  destruct (jstring_eqb _ _); [reflexivity|].
  now destruct (bind _ _) as [[[content text]|]|].
Qed.

Lemma onLines_store (lines : list jstring) (st : state) :
  store (onLines st lines) = store st.
Proof.
  revert st. induction lines as [|line rest IH]; intros st; [reflexivity|].
  cbn [onLines]. pose proof (onLine_store st line) as S.
  destruct (onLine st line) as [st' returned]. cbn [fst] in S.
  destruct returned; [exact S | now rewrite IH].
Qed.

Lemma handle_store (userPrompt : jstring) (u : userId) (st : state)
                   (ev : upstream_event) :
  emotionalLog (store (handle userPrompt u st ev)) = emotionalLog (store st) /\
  tasks (store (handle userPrompt u st ev)) = tasks (store st) /\
  exists added,
    memories (store (handle userPrompt u st ev)) = memories (store st) ++ added /\
    (added = [] \/
     exists reply,
       reply <> [] /\
       added = [ {| mem_userId := u; mem_content := userPrompt; mem_role := user |};
                 {| mem_userId := u; mem_content := reply; mem_role := assistant |} ]).
Proof.
  destruct ev as [chunk| |message| |]; cbn [handle];
    try (repeat split; exists []; rewrite app_nil_r; split; [reflexivity | now left]).
  - unfold onData. rewrite onLines_store. cbn [store].
    repeat split. exists []. rewrite app_nil_r. split; [reflexivity | now left].
  - unfold onEnd. cbn [store].
    destruct (trim (fullContent st)) eqn:T.
    + repeat split. exists []. rewrite app_nil_r. split; [reflexivity | now left].
    + rewrite CompletionFacts.processResponseAndSave_commit. cbn [fst].
      unfold insertMany. cbn [emotionalLog tasks memories]. repeat split.
      eexists. split; [reflexivity|]. right.
      exists (cleanResponse (fullContent st)). split; [|reflexivity].
      destruct (fullContent st) as [|c r] eqn:F; [discriminate|].
      unfold cleanResponse.
      destruct (mentionsMarker _).
      * destruct (trim (join _ _));
          [apply CleanFacts.fallbackText_nonempty | discriminate].
      * destruct (trim (stripChrome _));
          [apply CleanFacts.fallbackText_nonempty | discriminate].
Qed.

End StoreFacts.

(** X2: [processResponseAndSave] of routes/completion.js stores the pair of
    the prompt and the cleaned reply and nothing else: whatever the reply
    holds, no emotion is logged and no task is created, and the cleaned
    reply is returned. *)
Theorem processResponseAndSave_stores_pair_only
    (fullContent userPrompt : jstring) (u : userId) (d : db) :
  snd (Completion.processResponseAndSave fullContent userPrompt u d)
  = Ok (cleanResponse fullContent) /\
  memories (fst (Completion.processResponseAndSave fullContent userPrompt u d))
  = memories d ++
    [ {| mem_userId := u; mem_content := userPrompt; mem_role := user |};
      {| mem_userId := u; mem_content := cleanResponse fullContent;
         mem_role := assistant |} ] /\
  emotionalLog (fst (Completion.processResponseAndSave fullContent userPrompt u d))
  = emotionalLog d /\
  tasks (fst (Completion.processResponseAndSave fullContent userPrompt u d))
  = tasks d.
Proof.
  rewrite CompletionFacts.processResponseAndSave_commit. now repeat split.
Qed.

(** X1: [extractJsonPattern] with either of [METADATA_PATTERNS] never extracts
    anything: the regular expressions are global, so [match[1]] is the
    second whole match, which starts with the marker name and is no JSON
    text. *)
Theorem extractJsonPattern_never_extracts (content : jstring) :
  extractJsonPattern METADATA_PATTERNS_emotion content = (VNull, content) /\
  extractJsonPattern METADATA_PATTERNS_task content = (VNull, content).
Proof.
  split; apply CompletionFacts.extractJsonPattern_null; [now left | now right].
Qed.

(** X9: The streaming endpoint of routes/completion.js, whatever the upstream
    does: the emotional log and the tasks are never touched, and the
    memories only grow, by pairs of the prompt and a non-empty reply. *)
Theorem completion_stream_store
    (userPrompt : jstring) (u : userId) (d : db) (evs : list upstream_event) :
  emotionalLog (Completion.store (Completion.run userPrompt u (Completion.start d) evs))
  = emotionalLog d /\
  tasks (Completion.store (Completion.run userPrompt u (Completion.start d) evs))
  = tasks d /\
  exists replies,
    Forall (fun reply => reply <> []) replies /\
    memories (Completion.store (Completion.run userPrompt u (Completion.start d) evs))
    = memories d ++
      flat_map (fun reply =>
                  [ {| mem_userId := u; mem_content := userPrompt; mem_role := user |};
                    {| mem_userId := u; mem_content := reply; mem_role := assistant |} ])
               replies.
Proof.
  assert (G : forall evs st,
             emotionalLog (Completion.store (Completion.run userPrompt u st evs))
             = emotionalLog (Completion.store st) /\
             tasks (Completion.store (Completion.run userPrompt u st evs))
             = tasks (Completion.store st) /\
             exists replies,
               Forall (fun reply => reply <> []) replies /\
               memories (Completion.store (Completion.run userPrompt u st evs))
               = memories (Completion.store st) ++
                 flat_map (fun reply =>
                   [ {| mem_userId := u; mem_content := userPrompt; mem_role := user |};
                     {| mem_userId := u; mem_content := reply; mem_role := assistant |} ])
                   replies).
  { clear evs. induction evs as [|ev evs IH]; intros st.
    - repeat split. exists []. split; [constructor | now rewrite app_nil_r].
    - cbn [Completion.run fold_left].
      destruct (IH (Completion.handle userPrompt u st ev)) as (E & T & replies & N & M).
      destruct (StoreFacts.handle_store userPrompt u st ev) as (E' & T' & added & M' & A).
      split; [unfold Completion.run in E; congruence|].
      split; [unfold Completion.run in T; congruence|].
      unfold Completion.run in M. rewrite M, M'.
      destruct A as [-> | (reply & R & ->)].
      + exists replies. split; [exact N | now rewrite app_nil_r].
      + exists (reply :: replies). split; [now constructor|].
        cbn [flat_map]. now rewrite <- app_assoc. }
  apply (G evs (Completion.start d)).
Qed.

(* ================================================================== *)
(** * Framing of the wire *)
(* ================================================================== *)

Module FramingFacts.
Import Completion.


Lemma inv_new : completionInv newResponse.
Proof.
  split; [|split].
  - exists []. left. now split.
  - now split.
  - now left.
Qed.

Lemma inv_write_content (content : value) (r : response) :
  completionInv r -> completionInv (res_write (contentEvent content) r).
Proof.
  intros I. unfold res_write.
  destruct (finished r) eqn:E; [exact I|].
  destruct I as (F & H & S).
  split; [|split].
  - destruct F as (contents & [[_ W] | [F _]]); [|congruence].
    exists (contents ++ [content]). left. cbn. split; [reflexivity|].
    now rewrite W, map_app.
  - discriminate.
  - destruct S as [S | (_ & F' & _)]; [now left | congruence].
Qed.

Lemma inv_end (t : jstring) (r : response) :
  completionTerminal t -> completionInv r -> statusCode r = 200 ->
  completionInv (res_end (res_write t r)).
Proof.
  intros T (F & H & S) C. unfold res_write.
  destruct (finished r) eqn:E.
  - split; [|split].
    + destruct F as (contents & [[F _] | [_ F]]); [congruence|].
      exists contents. right. cbn. now split.
    + discriminate.
    + now left.
  - split; [|split].
    + destruct F as (contents & [[_ W] | [F _]]); [|congruence].
      exists contents. right. cbn. split; [reflexivity|].
      exists t. split; [exact T | now rewrite W].
    + discriminate.
    + now left.
Qed.

Lemma inv_ended (r : response) :
  completionInv r -> finished r = true -> forall t, completionInv (res_end (res_write t r)).
Proof.
  intros (F & H & S) E t. unfold res_write. rewrite E.
  split; [|split].
  - destruct F as (contents & [[F _] | [_ F]]); [congruence|].
    exists contents. right. cbn. now split.
  - discriminate.
  - destruct S as [S | (S & _ & M)]; [now left|]. right. cbn. now repeat split.
Qed.

Lemma inv_status (r : response) :
  completionInv r -> finished r = false -> statusCode r = 200.
Proof. intros (_ & _ & [S | (_ & F & _)]) E; [exact S | congruence]. Qed.

Lemma inv_done (r : response) : completionInv r -> completionInv (res_end (res_write DONE_EVENT r)).
Proof.
  intros I. destruct (finished r) eqn:E.
  - now apply inv_ended.
  - apply inv_end; [now left | exact I | now apply inv_status].
Qed.

Lemma inv_error (message : jstring) (r : response) :
  completionInv r ->
  completionInv (res_end (res_write (errorEvent message)
                  (if headersSent r then r else res_writeHead 500 r))).
Proof.
  intros I. destruct (headersSent r) eqn:Hs.
  - destruct (finished r) eqn:E.
    + now apply inv_ended.
    + apply inv_end; [right; now exists message | exact I | now apply inv_status].
  - destruct I as (_ & H & _). destruct (H Hs) as [W F].
    unfold res_write, res_writeHead. cbn. rewrite F. cbn. rewrite W.
    split; [|split].
    + exists []. right. cbn. split; [reflexivity|].
      exists (errorEvent message). split; [right; now exists message | reflexivity].
    + discriminate.
    + right. cbn. repeat split. now exists message.
Qed.

Lemma onLine_inv (st : state) (line : jstring) :
  completionInv (res st) -> completionInv (res (fst (onLine st line))).
Proof.
  intros I. unfold onLine.
  destruct (startsWith line (js "data: ")); [|exact I].
  destruct (jstring_eqb _ _); [now apply inv_done|].
  destruct (bind _ _) as [[[content text]|]|]; try exact I.
  now apply inv_write_content.
Qed.

Lemma onLines_inv (lines : list jstring) (st : state) :
  completionInv (res st) -> completionInv (res (onLines st lines)).
Proof.
  revert st. induction lines as [|line rest IH]; intros st I; [exact I|].
  cbn [onLines]. pose proof (@onLine_inv st line I) as I'.
  destruct (onLine st line) as [st' returned]. cbn [fst] in I'.
  destruct returned; [exact I' | now apply IH].
Qed.

Lemma handle_inv (userPrompt : jstring) (u : userId) (st : state)
                 (ev : upstream_event) :
  completionInv (res st) -> completionInv (res (handle userPrompt u st ev)).
Proof.
  intros I. destruct ev as [chunk| |message| |]; cbn [handle]; try exact I.
  - unfold onData. now apply onLines_inv.
  - unfold onEnd. cbn [res]. now apply inv_done.
  - unfold onError, withRes. cbn [res]. now apply inv_error.
Qed.

Lemma run_inv (userPrompt : jstring) (u : userId)
              (evs : list upstream_event) (st : state) :
  completionInv (res st) -> completionInv (res (run userPrompt u st evs)).
Proof.
  revert st. induction evs as [|ev evs IH]; intros st I; [exact I|].
  cbn [run fold_left]. apply IH. now apply handle_inv.
Qed.

End FramingFacts.

(** X6: The wire of the streaming endpoint of routes/completion.js is well
    framed, whatever the upstream does: content events only, then at most
    one terminal event, [[DONE]] or the error event, which is there exactly
    when the response has ended.  The status is 200, or 500 when the error
    event is all that was sent. *)
Theorem completion_wire_framed
    (userPrompt : jstring) (u : userId) (d : db) (evs : list upstream_event) :
  (exists contents,
      framed completionTerminal contents
        (Completion.res (Completion.run userPrompt u (Completion.start d) evs))) /\
  completionStatus
    (Completion.res (Completion.run userPrompt u (Completion.start d) evs)).
Proof.
  destruct (@FramingFacts.run_inv userPrompt u evs (Completion.start d)
              FramingFacts.inv_new) as (F & _ & S).
  now split.
Qed.


Module CapFacts.
Import Optimized.

Section Handlers.

Variable stop : list jstring.
Variable sanitizeResponse : jstring -> jstring.
Variable userPrompt : jstring.
Variable u : userId.

Local Abbreviation onContent := (Optimized.onContent stop).
Local Abbreviation onLine := (Optimized.onLine stop).
Local Abbreviation onLines := (Optimized.onLines stop).
Local Abbreviation handle := (Optimized.handle stop sanitizeResponse userPrompt u).
Local Abbreviation run := (Optimized.run stop sanitizeResponse userPrompt u).

Lemma start_capped (d : db) : capped (start d).
Proof.
  exists []. split; [cbn; lia|]. split.
  - left. now split.
  - intros _. cbn. unfold tokenCap. repeat split; lia.
Qed.

Lemma capped_ended (st st' : state) :
  capped st -> res st' = res st -> streamEnded st' = true -> capped st'.
Proof.
  intros (contents & L & F & _) R E. exists contents.
  split; [exact L|]. split; [now rewrite R|]. congruence.
Qed.

(** Closing an open stream with a terminal event. *)
Lemma capped_close (st st' : state) (t : jstring) :
  capped st -> streamEnded st = false -> controlChunk t ->
  res st' = res_end (res_write t (res st)) -> streamEnded st' = true ->
  capped st'.
Proof.
  intros (contents & L & F & O) E T R E'. destruct (O E) as (Fin & _ & _).
  exists contents. split; [exact L|]. split; [|congruence].
  rewrite R. unfold res_write. rewrite Fin. right. cbn. split; [reflexivity|].
  exists t. split; [exact T|].
  destruct F as [[_ W] | [F _]]; [now rewrite W | congruence].
Qed.

Lemma onContent_capped (st : state) (content : jstring) :
  capped st -> streamEnded st = false ->
  capped (fst (onContent st content)) /\
  (snd (onContent st content) = false ->
   streamEnded (fst (onContent st content)) = false).
Proof.
  intros (contents & L & F & O) E. destruct (O E) as (Fin & C & T).
  unfold Optimized.onContent.
  destruct (existsb _ stop || Nat.ltb tokenCap (tokenCount (accumulate st content)))
    eqn:Stop.
  - cbn [fst snd]. split; [|discriminate].
    exists contents. split; [exact L|]. split; [exact F|]. discriminate.
  - apply orb_false_iff in Stop. destruct Stop as [_ Over].
    apply Nat.ltb_ge in Over. cbn [accumulate tokenCount] in Over.
    destruct (hasMarker content); cbn [fst snd].
    + split; [|intros _; exact E].
      exists contents. split; [exact L|]. split; [exact F|].
      intros _. cbn. repeat split; [exact Fin | lia | lia].
    + split; [|intros _; exact E].
      exists (contents ++ [content]). rewrite length_app. cbn [List.length].
      split; [lia|]. split.
      * left. cbn. unfold res_write. rewrite Fin. cbn. split; [reflexivity|].
        destruct F as [[_ W] | [F _]]; [|congruence].
        now rewrite W, !map_app.
      * intros _. cbn. unfold res_write. rewrite Fin. cbn.
        repeat split; lia.
Qed.

Lemma onLine_capped (st : state) (line : jstring) :
  capped st -> streamEnded st = false ->
  capped (fst (onLine st line)) /\
  (snd (onLine st line) = false -> streamEnded (fst (onLine st line)) = false).
Proof.
  intros K E. unfold Optimized.onLine.
  destruct (startsWith line (js "data: ") && Nat.ltb 6 (List.length line));
    [|now split].
  destruct (jstring_eqb _ _).
  - cbn [fst snd]. split; [|discriminate].
    now apply (@capped_ended st).
  - destruct (bind _ _) as [[content|]|]; [|now split..].
    now apply onContent_capped.
Qed.

Lemma onLines_capped (lines : list jstring) (st : state) :
  capped st -> streamEnded st = false -> capped (onLines st lines).
Proof.
  revert st. induction lines as [|line rest IH]; intros st K E; [exact K|].
  cbn [Optimized.onLines].
  destruct (@onLine_capped st line K E) as [K' E'].
  destruct (Optimized.onLine stop st line) as [st' stopped]. cbn [fst snd] in *.
  destruct stopped; [exact K' | now apply IH; [|apply E']].
Qed.

Lemma handle_capped (st : state) (ev : upstream_event) :
  capped st -> capped (handle st ev).
Proof.
  intros K. destruct ev as [chunk| |message| |]; cbn [Optimized.handle].
  - unfold onData. destruct (streamEnded st) eqn:E; [exact K|].
    apply onLines_capped; [|reflexivity].
    destruct K as (contents & L & F & O). exists contents.
    split; [exact L|]. split; [exact F|]. intros _. exact (O E).
  - unfold onEnd.
    assert (K1 : capped (if streamEnded st then st
                         else withRes (endStream st)
                                (res_end (res_write DONE_EVENT (res (endStream st)))))).
    { destruct (streamEnded st) eqn:E; [exact K|].
      apply (@capped_close st _ DONE_EVENT); auto. now left. }
    destruct (streamEnded st) eqn:E.
    + destruct (trim (fullContent st)); [exact K|].
      now apply (@capped_ended st).
    + cbn [fullContent withRes endStream].
      destruct (trim (fullContent st)); [exact K1|].
      destruct K1 as (contents & L & F & O). exists contents.
      split; [exact L|]. split; [exact F|]. discriminate.
  - unfold onError. destruct (streamEnded st) eqn:E; [exact K|].
    apply (@capped_close st _ errorEvent); auto. now right.
  - unfold onTimeout. destruct (timerArmed st); [|exact K].
    cbn [streamEnded]. destruct (streamEnded st) eqn:E.
    + now apply (@capped_ended st).
    + apply (@capped_close st _ DONE_EVENT); auto. now left.
  - unfold onClose. destruct (streamEnded st) eqn:E; [exact K|].
    now apply (@capped_ended st).
Qed.

Lemma run_capped (evs : list upstream_event) (st : state) :
  capped st -> capped (run st evs).
Proof.
  revert st. induction evs as [|ev evs IH]; intros st K; [exact K|].
  cbn [Optimized.run fold_left]. apply IH. now apply handle_capped.
Qed.

End Handlers.

End CapFacts.

(** X11: The wire of the llama.cpp variant is well framed, whatever the
    upstream does: content events carrying strings, then at most one
    terminal event, [[DONE]] or the error event, which is there exactly
    when the response has ended. *)
Theorem optimized_wire_framed
    (stop : list jstring) (sanitizeResponse : jstring -> jstring)
    (userPrompt : jstring) (u : userId) (d : db) (evs : list upstream_event) :
  exists contents : list jstring,
    framed controlChunk (map VStr contents)
      (Optimized.res
         (Optimized.run stop sanitizeResponse userPrompt u (Optimized.start d) evs)).
Proof.
  destruct (@CapFacts.run_capped stop sanitizeResponse userPrompt u evs
              (Optimized.start d) (CapFacts.start_capped d))
    as (contents & _ & F & _).
  now exists contents.
Qed.

(** X12: The token cap of the llama.cpp variant: whatever the upstream sends, at
    most 800 of the chunks written are content events (chunks other than the
    two terminal events), and at most 801 chunks are written in all. *)
Theorem optimized_token_cap
    (stop : list jstring) (sanitizeResponse : jstring -> jstring)
    (userPrompt : jstring) (u : userId) (d : db) (evs : list upstream_event) :
  List.length
    (filter (fun chunk => negb (jstring_eqb chunk DONE_EVENT
                                || jstring_eqb chunk Optimized.errorEvent))
       (written
          (Optimized.res
             (Optimized.run stop sanitizeResponse userPrompt u
                (Optimized.start d) evs))))
  <= 800 /\
  List.length
    (written
       (Optimized.res
          (Optimized.run stop sanitizeResponse userPrompt u (Optimized.start d) evs)))
  <= 801.
Proof.
  destruct (@CapFacts.run_capped stop sanitizeResponse userPrompt u evs
              (Optimized.start d) (CapFacts.start_capped d))
    as (contents & L & F & _).
  unfold Optimized.tokenCap in L.
  assert (K : forall l : list jstring, List.length (filter
            (fun chunk => negb (jstring_eqb chunk DONE_EVENT
                                || jstring_eqb chunk Optimized.errorEvent)) l)
            <= List.length l).
  { intros l. apply filter_length_le. }
  destruct F as [[_ W] | [_ (t & T & W)]]; rewrite W.
  - split.
    + eapply Nat.le_trans; [apply K|]. rewrite !length_map. lia.
    + rewrite !length_map. lia.
  - split.
    + rewrite filter_app, length_app.
      assert (Z : filter (fun chunk => negb (jstring_eqb chunk DONE_EVENT
                                || jstring_eqb chunk Optimized.errorEvent)) [t] = []).
      { destruct T as [-> | ->]; reflexivity. }
      rewrite Z. cbn [List.length].
      pose proof (K (map contentEvent (map VStr contents))) as K'.
      rewrite !length_map in K'. lia.
    + rewrite length_app, !length_map. cbn. lia.
Qed.

(* ================================================================== *)
(** * Independence from the chunking *)
(* ================================================================== *)

Module SplitFacts.

Lemma split_nonempty (sep : ascii) (s : jstring) : split sep s <> [].
Proof.
  destruct s as [|c s]; cbn [split]; [discriminate|].
  destruct (Ascii.eqb c sep); [discriminate|].
  destruct (split sep s); discriminate.
Qed.

Lemma last_app_nonempty (A : Type) (l l' : list A) (d : A) :
  l' <> [] -> last (l ++ l') d = last l' d.
Proof.
  intros N. induction l as [|x l IH]; [reflexivity|].
  cbn [app]. destruct (l ++ l') eqn:E.
  - apply app_eq_nil in E. destruct E. congruence.
  - rewrite <- E in *. cbn [last]. rewrite E. rewrite <- E. exact IH.
Qed.

(** Splitting a text in two pieces: the lines that are complete in the
    first piece, then the lines of the unfinished one followed by the
    second piece. *)
Lemma split_app (a b : jstring) :
  split LF (a ++ b)
  = removelast (split LF a) ++ split LF (last (split LF a) [] ++ b).
Proof.
  induction a as [|c a IH]; [reflexivity|].
  cbn [app split]. destruct (Ascii.eqb c LF) eqn:E.
  - rewrite IH.
    destruct (split LF a) as [|l ls] eqn:S; [now destruct (split_nonempty LF a)|].
    reflexivity.
  - rewrite IH.
    destruct (split LF a) as [|l ls] eqn:S; [now destruct (split_nonempty LF a)|].
    destruct ls as [|l2 ls].
    + cbn [removelast last app split]. rewrite E. reflexivity.
    + reflexivity.
Qed.

Lemma split_lineFree (s line : jstring) : In line (split LF s) -> ~ In LF line.
Proof.
  revert line. induction s as [|c s IH]; intros line; cbn [split].
  - intros [<-|[]] [].
  - destruct (Ascii.eqb_spec c LF) as [E|E].
    + intros [<-|H]; [intros [] | now apply IH].
    + destruct (split LF s) as [|l ls] eqn:S.
      * intros [<-|[]] [H|[]]. congruence.
      * intros [<-|H].
        -- intros [H|H]; [congruence|]. apply (IH l); [now left | exact H].
        -- apply IH. now right.
Qed.

Lemma split_one (s : jstring) : ~ In LF s -> split LF s = [s].
Proof.
  induction s as [|c s IH]; intros N; [reflexivity|].
  cbn [split]. destruct (Ascii.eqb_spec c LF) as [E|E].
  - exfalso. apply N. left. now symmetry.
  - rewrite IH; [reflexivity|]. intros H. apply N. now right.
Qed.

Lemma last_lineFree (s : jstring) : ~ In LF (last (split LF s) []).
Proof.
  apply (@split_lineFree s).
  pose proof (split_nonempty LF s) as N.
  rewrite (app_removelast_last [] N) at 2.
  apply in_or_app. right. now left.
Qed.

End SplitFacts.

Module ChunkFacts.
Import Completion SplitFacts.

(** The response is ended: nothing can change it any more. *)
Lemma res_write_ended (chunk : jstring) (r : response) :
  finished r = true -> res_write chunk r = r.
Proof. unfold res_write. now intros ->. Qed.

Lemma res_end_ended (r : response) :
  finished r = true -> headersSent r = true -> res_end r = r.
Proof. destruct r. cbn. now intros -> ->. Qed.

(** What a line does to the response depends on the response alone. *)
Lemma onLine_res (st1 st2 : state) (line : jstring) :
  res st1 = res st2 ->
  res (fst (onLine st1 line)) = res (fst (onLine st2 line)) /\
  snd (onLine st1 line) = snd (onLine st2 line).
Proof.
  intros R. unfold onLine.
  destruct (startsWith line (js "data: ")); [|now split].
  destruct (jstring_eqb _ _); [cbn; now rewrite R|].
  destruct (bind _ _) as [[[content text]|]|]; cbn; [now rewrite R | now split..].
Qed.

Lemma onLine_buffer (st : state) (line : jstring) :
  buffer (fst (onLine st line)) = buffer st.
Proof.
  unfold onLine.
  destruct (startsWith line (js "data: ")); [|reflexivity].
  destruct (jstring_eqb _ _); [reflexivity|].
  now destruct (bind _ _) as [[[content text]|]|].
Qed.

Lemma onLine_returned (st : state) (line : jstring) :
  snd (onLine st line) = true ->
  finished (res (fst (onLine st line))) = true /\
  headersSent (res (fst (onLine st line))) = true.
Proof.
  unfold onLine.
  destruct (startsWith line (js "data: ")); [|discriminate].
  destruct (jstring_eqb _ _); [now split|].
  destruct (bind _ _) as [[[content text]|]|]; discriminate.
Qed.

Lemma onLine_ended (st : state) (line : jstring) :
  finished (res st) = true -> headersSent (res st) = true ->
  res (fst (onLine st line)) = res st.
Proof.
  intros F H. unfold onLine.
  destruct (startsWith line (js "data: ")); [|reflexivity].
  destruct (jstring_eqb _ _).
  - cbn. rewrite (res_write_ended _ _ F). now apply res_end_ended.
  - destruct (bind _ _) as [[[content text]|]|]; cbn; [|reflexivity..].
    now apply res_write_ended.
Qed.

Lemma onLines_buffer (lines : list jstring) (st : state) :
  buffer (onLines st lines) = buffer st.
Proof.
  revert st. induction lines as [|line rest IH]; intros st; [reflexivity|].
  cbn [onLines]. pose proof (onLine_buffer st line) as B.
  destruct (onLine st line) as [st' returned]. cbn [fst] in B.
  destruct returned; [exact B | now rewrite IH].
Qed.

Lemma onLines_ended (lines : list jstring) (st : state) :
  finished (res st) = true -> headersSent (res st) = true ->
  res (onLines st lines) = res st.
Proof.
  revert st. induction lines as [|line rest IH]; intros st F H; [reflexivity|].
  cbn [onLines]. pose proof (onLine_ended st line F H) as R.
  destruct (onLine st line) as [st' returned]. cbn [fst] in R.
  destruct returned; [exact R|]. rewrite IH; rewrite ?R; auto.
Qed.

Lemma onLines_res (lines : list jstring) (st1 st2 : state) :
  res st1 = res st2 -> res (onLines st1 lines) = res (onLines st2 lines).
Proof.
  revert st1 st2. induction lines as [|line rest IH]; intros st1 st2 R; [exact R|].
  cbn [onLines]. destruct (onLine_res st1 st2 line R) as [R' S].
  destruct (onLine st1 line) as [st1' r1], (onLine st2 line) as [st2' r2].
  cbn [fst snd] in *. subst r2. destruct r1; [exact R' | now apply IH].
Qed.

(** Handing the lines over in two batches: the second batch finds the
    response ended if the first one returned early. *)
Lemma onLines_app (l1 l2 : list jstring) (st : state) :
  res (onLines st (l1 ++ l2)) = res (onLines (onLines st l1) l2).
Proof.
  revert st. induction l1 as [|line rest IH]; intros st; [reflexivity|].
  cbn [app onLines]. pose proof (onLine_returned st line) as E.
  destruct (onLine st line) as [st' returned]. cbn [fst snd] in E.
  destruct returned; [|apply IH].
  destruct (E eq_refl) as [F H]. symmetry. now apply onLines_ended.
Qed.

Lemma onData_buffer (st : state) (chunk : jstring) :
  buffer (onData st chunk) = last (split LF (buffer st ++ chunk)) [].
Proof. unfold onData. now rewrite onLines_buffer. Qed.

Lemma onData_res (st : state) (chunk : jstring) :
  res (onData st chunk)
  = res (onLines st (removelast (split LF (buffer st ++ chunk)))).
Proof. unfold onData. now apply onLines_res. Qed.

Lemma onData_two (st : state) (c1 c2 : jstring) :
  res (onData (onData st c1) c2) = res (onData st (c1 ++ c2)) /\
  buffer (onData (onData st c1) c2) = buffer (onData st (c1 ++ c2)).
Proof.
  rewrite !onData_buffer, !onData_res, !onData_buffer.
  rewrite app_assoc, (split_app (buffer st ++ c1) c2).
  set (l1 := removelast (split LF (buffer st ++ c1))).
  set (r1 := last (split LF (buffer st ++ c1)) []).
  rewrite (removelast_app l1 (@split_nonempty LF (r1 ++ c2))).
  rewrite (last_app_nonempty l1 [] (@split_nonempty LF (r1 ++ c2))).
  split; [|reflexivity].
  rewrite onLines_app. apply onLines_res.
  now rewrite onData_res.
Qed.

Lemma handle_wire (userPrompt : jstring) (u : userId) (st1 st2 : state)
                  (ev : upstream_event) :
  res st1 = res st2 -> buffer st1 = buffer st2 ->
  res (handle userPrompt u st1 ev) = res (handle userPrompt u st2 ev) /\
  buffer (handle userPrompt u st1 ev) = buffer (handle userPrompt u st2 ev).
Proof.
  intros R B. destruct ev as [chunk| |message| |]; cbn [handle]; try now split.
  - unfold onData. rewrite !onLines_buffer. cbn [buffer]. rewrite B.
    split; [|reflexivity]. now apply onLines_res.
  - unfold onEnd. cbn [res buffer]. now rewrite R, B.
  - unfold onError, withRes. cbn [res buffer]. now rewrite R, B.
Qed.

Lemma run_wire (userPrompt : jstring) (u : userId) (evs : list upstream_event)
               (st1 st2 : state) :
  res st1 = res st2 -> buffer st1 = buffer st2 ->
  res (run userPrompt u st1 evs) = res (run userPrompt u st2 evs).
Proof.
  revert st1 st2. induction evs as [|ev evs IH]; intros st1 st2 R B; [exact R|].
  cbn [run fold_left]. destruct (handle_wire userPrompt u st1 st2 ev R B) as [R' B'].
  now apply IH.
Qed.

Lemma onData_nothing (st : state) :
  ~ In LF (buffer st) ->
  res (onData st []) = res st /\ buffer (onData st []) = buffer st.
Proof.
  intros N. unfold onData. rewrite app_nil_r, (split_one _ N). now split.
Qed.

Lemma onData_lineFree (st : state) (chunk : jstring) :
  ~ In LF (buffer (onData st chunk)).
Proof.
  unfold onData. rewrite onLines_buffer. cbn [buffer]. apply last_lineFree.
Qed.

Lemma run_chunks (userPrompt : jstring) (u : userId) (chunks : list jstring)
                 (st : state) :
  ~ In LF (buffer st) ->
  res (run userPrompt u st (map Data chunks)) = res (onData st (List.concat chunks)) /\
  buffer (run userPrompt u st (map Data chunks))
  = buffer (onData st (List.concat chunks)).
Proof.
  revert st. induction chunks as [|c chunks IH]; intros st N.
  - cbn [map run fold_left List.concat].
    destruct (onData_nothing st N) as [R B]. now split.
  - cbn [map run fold_left List.concat handle].
    destruct (IH (onData st c) (onData_lineFree st c)) as [R B].
    destruct (onData_two st c (List.concat chunks)) as [R' B'].
    unfold run in R, B. split; congruence.
Qed.

End ChunkFacts.

(** X7: For an upstream of routes/completion.js that sends ASCII bytes only,
    what the client receives does not depend on where the bytes are cut into
    chunks: two ways of cutting the same bytes give the same response, also
    after any further events.  (Bytes from 0x80 on are left out: the handler
    decodes each chunk on its own, and a cut inside a UTF-8 sequence
    changes the decoded text.) *)
Theorem completion_chunking
    (userPrompt : jstring) (u : userId) (d : db)
    (chunks chunks' : list jstring) (later : list upstream_event) :
  asciiText (List.concat chunks) = true ->
  List.concat chunks = List.concat chunks' ->
  Completion.res
    (Completion.run userPrompt u (Completion.start d) (map Data chunks ++ later))
  = Completion.res
      (Completion.run userPrompt u (Completion.start d)
         (map Data chunks' ++ later)).
Proof.
  intros _ E.
  assert (W : forall l : list jstring,
             Completion.res
               (Completion.run userPrompt u (Completion.start d)
                  (map Data l ++ later))
             = Completion.res
                 (Completion.run userPrompt u (Completion.start d)
                    (Data (List.concat l) :: later))).
  { intros l. unfold Completion.run. rewrite fold_left_app.
    cbn [fold_left Completion.handle].
    destruct (@ChunkFacts.run_chunks userPrompt u l (Completion.start d))
      as [R B]; [intros []|].
    now apply ChunkFacts.run_wire. }
  rewrite (W chunks), (W chunks'), E. reflexivity.
Qed.

Lemma completion_chunking_witness :
  asciiText
    (List.concat [firstn 20 (Completion.deltaChunk (js "Hi"));
                  skipn 20 (Completion.deltaChunk (js "Hi"))]) = true /\
  List.concat [firstn 20 (Completion.deltaChunk (js "Hi"));
               skipn 20 (Completion.deltaChunk (js "Hi"))]
  = List.concat [Completion.deltaChunk (js "Hi")] /\
  Completion.res
    (Completion.run (js "hi") 0 (Completion.start emptyDb)
       (map Data [firstn 20 (Completion.deltaChunk (js "Hi"));
                  skipn 20 (Completion.deltaChunk (js "Hi"))] ++ [End]))
  = Completion.res
      (Completion.run (js "hi") 0 (Completion.start emptyDb)
         (map Data [Completion.deltaChunk (js "Hi")] ++ [End])).
Proof.
  assert (H1 : asciiText
    (List.concat [firstn 20 (Completion.deltaChunk (js "Hi"));
                  skipn 20 (Completion.deltaChunk (js "Hi"))]) = true)
    by (vm_compute; reflexivity).
  assert (H2 : List.concat [firstn 20 (Completion.deltaChunk (js "Hi"));
                            skipn 20 (Completion.deltaChunk (js "Hi"))]
               = List.concat [Completion.deltaChunk (js "Hi")])
    by (vm_compute; reflexivity).
  split; [exact H1 | split; [exact H2|]].
  exact (@completion_chunking (js "hi") 0 emptyDb
           [firstn 20 (Completion.deltaChunk (js "Hi"));
            skipn 20 (Completion.deltaChunk (js "Hi"))]
           [Completion.deltaChunk (js "Hi")] [End] H1 H2).
Defined.


Module OptimizedChunkFacts.
Import Optimized SplitFacts.

Lemma sameRequest_refl (a : state) : sameRequest a a.
Proof. now repeat split. Qed.

Lemma sameRequest_trans (a b c : state) :
  sameRequest a b -> sameRequest b c -> sameRequest a c.
Proof.
  intros (F & T & E & A & U & R & S & B) (F' & T' & E' & A' & U' & R' & S' & B').
  repeat split; try congruence.
  intros H. rewrite B by exact H. apply B'. congruence.
Qed.

Lemma sameRequest_eq (a b : state) :
  sameRequest a b -> buffer a = buffer b -> a = b.
Proof.
  destruct a, b. unfold sameRequest. cbn.
  intros (-> & -> & -> & -> & -> & -> & -> & _) ->. reflexivity.
Qed.

Lemma sameRequest_setBuffer (b1 b2 : jstring) (st : state) :
  streamEnded st = true -> sameRequest (setBuffer b1 st) (setBuffer b2 st).
Proof. intros E. repeat split. cbn. congruence. Qed.

Lemma setBuffer_same (st : state) : setBuffer (buffer st) st = st.
Proof. now destruct st. Qed.

Lemma setBuffer_twice (b1 b2 : jstring) (st : state) :
  setBuffer b2 (setBuffer b1 st) = setBuffer b2 st.
Proof. reflexivity. Qed.

Section Handlers.

Variable stop : list jstring.
Variable sanitizeResponse : jstring -> jstring.
Variable userPrompt : jstring.
Variable u : userId.

Local Abbreviation onContent := (Optimized.onContent stop).
Local Abbreviation onLine := (Optimized.onLine stop).
Local Abbreviation onLines := (Optimized.onLines stop).
Local Abbreviation onData := (Optimized.onData stop).
Local Abbreviation handle := (Optimized.handle stop sanitizeResponse userPrompt u).
Local Abbreviation run := (Optimized.run stop sanitizeResponse userPrompt u).

(** The line buffer plays no part in the processing of a line. *)
Lemma onLine_setBuffer (b : jstring) (st : state) (line : jstring) :
  onLine (setBuffer b st) line
  = (setBuffer b (fst (onLine st line)), snd (onLine st line)).
Proof.
  unfold Optimized.onLine.
  destruct (startsWith line (js "data: ") && Nat.ltb 6 (List.length line));
    [|reflexivity].
  destruct (jstring_eqb _ _); [reflexivity|].
  destruct (bind _ _) as [[content|]|]; [|reflexivity..].
  unfold Optimized.onContent. cbn [accumulate setBuffer fullContent tokenCount].
  destruct (existsb _ stop || _); [reflexivity|].
  destruct (hasMarker content); reflexivity.
Qed.

Lemma onLines_setBuffer (b : jstring) (lines : list jstring) (st : state) :
  onLines (setBuffer b st) lines = setBuffer b (onLines st lines).
Proof.
  revert st. induction lines as [|line rest IH]; intros st; [reflexivity|].
  cbn [Optimized.onLines]. rewrite onLine_setBuffer.
  destruct (Optimized.onLine stop st line) as [st' stopped]. cbn [fst snd].
  destruct stopped; [reflexivity | apply IH].
Qed.

(** On an open stream, a line breaks the loop exactly when it ends the
    stream. *)
Lemma onLine_break (st : state) (line : jstring) :
  streamEnded st = false ->
  streamEnded (fst (onLine st line)) = snd (onLine st line).
Proof.
  intros E. unfold Optimized.onLine.
  destruct (startsWith line (js "data: ") && Nat.ltb 6 (List.length line));
    [|exact E].
  destruct (jstring_eqb _ _); [reflexivity|].
  destruct (bind _ _) as [[content|]|]; [|exact E..].
  unfold Optimized.onContent.
  destruct (existsb _ stop || _); [reflexivity|].
  destruct (hasMarker content); exact E.
Qed.

Lemma onLines_break_app (l1 l2 : list jstring) (st : state) :
  streamEnded st = false ->
  onLines st (l1 ++ l2)
  = if streamEnded (onLines st l1) then onLines st l1
    else onLines (onLines st l1) l2.
Proof.
  revert st. induction l1 as [|line rest IH]; intros st E.
  - cbn [app Optimized.onLines]. now rewrite E.
  - cbn [app Optimized.onLines]. pose proof (onLine_break st line E) as B.
    destruct (Optimized.onLine stop st line) as [st' stopped]. cbn [fst snd] in B.
    destruct stopped; [now rewrite B | now apply IH].
Qed.

Lemma onData_open (st : state) (chunk : jstring) :
  streamEnded st = false ->
  onData st chunk
  = setBuffer (last (split LF (buffer st ++ chunk)) [])
      (onLines st (removelast (split LF (buffer st ++ chunk)))).
Proof.
  intros E. unfold Optimized.onData. rewrite E, <- onLines_setBuffer.
  unfold setBuffer. now rewrite E.
Qed.

Lemma onData_two_same (st : state) (c1 c2 : jstring) :
  sameRequest (onData (onData st c1) c2) (onData st (c1 ++ c2)).
Proof.
  destruct (streamEnded st) eqn:E.
  - unfold Optimized.onData. rewrite E. cbn. rewrite E. apply sameRequest_refl.
  - rewrite (onData_open st (c1 ++ c2) E), (onData_open st c1 E).
    rewrite app_assoc, (split_app (buffer st ++ c1) c2).
    set (l1 := removelast (split LF (buffer st ++ c1))).
    set (r1 := last (split LF (buffer st ++ c1)) []).
    rewrite (removelast_app l1 (@split_nonempty LF (r1 ++ c2))).
    rewrite (last_app_nonempty l1 [] (@split_nonempty LF (r1 ++ c2))).
    rewrite (onLines_break_app l1 _ st E).
    destruct (streamEnded (Optimized.onLines stop st l1)) eqn:E1.
    + unfold Optimized.onData at 1. cbn [setBuffer streamEnded]. rewrite E1.
      now apply sameRequest_setBuffer.
    + rewrite onData_open by exact E1. cbn [setBuffer buffer].
      rewrite onLines_setBuffer, setBuffer_twice. apply sameRequest_refl.
Qed.

Lemma handle_same (a b : state) (ev : upstream_event) :
  sameRequest a b -> sameRequest (handle a ev) (handle b ev).
Proof.
  intros S. destruct (streamEnded a) eqn:E.
  - pose proof S as (F & T & E' & A & U & R & D & _).
    assert (Eb : streamEnded b = true) by congruence.
    destruct ev as [chunk| |message| |]; cbn [Optimized.handle].
    + unfold Optimized.onData. now rewrite E, Eb.
    + unfold onEnd. rewrite E, Eb, <- F, <- D.
      destruct (trim (fullContent a)); [exact S|].
      unfold withStore. repeat split; cbn; try assumption. congruence.
    + unfold onError. now rewrite E, Eb.
    + unfold onTimeout. rewrite <- A. destruct (timerArmed a); [|exact S].
      cbn [streamEnded]. rewrite E, Eb.
      repeat split; cbn; try assumption. congruence.
    + unfold onClose. now rewrite E, Eb.
  - assert (a = b) as ->.
    { apply sameRequest_eq; [exact S|]. destruct S as (_ & _ & _ & _ & _ & _ & _ & B).
      now apply B. }
    apply sameRequest_refl.
Qed.

Lemma run_same (evs : list upstream_event) (a b : state) :
  sameRequest a b -> sameRequest (run a evs) (run b evs).
Proof.
  revert a b. induction evs as [|ev evs IH]; intros a b S; [exact S|].
  cbn [Optimized.run fold_left]. apply IH. now apply handle_same.
Qed.

Lemma onData_buffer_lineFree (st : state) (chunk : jstring) :
  ~ In LF (buffer st) -> ~ In LF (buffer (onData st chunk)).
Proof.
  intros N. destruct (streamEnded st) eqn:E.
  - unfold Optimized.onData. now rewrite E.
  - rewrite onData_open by exact E. cbn [setBuffer buffer]. apply last_lineFree.
Qed.

Lemma run_chunks_same (chunks : list jstring) (st : state) :
  ~ In LF (buffer st) ->
  sameRequest (run st (map Data chunks)) (onData st (List.concat chunks)).
Proof.
  revert st. induction chunks as [|c chunks IH]; intros st N.
  - cbn [map Optimized.run fold_left List.concat].
    destruct (streamEnded st) eqn:E.
    + unfold Optimized.onData. rewrite E. apply sameRequest_refl.
    + rewrite onData_open by exact E. rewrite app_nil_r, (split_one _ N).
      cbn [removelast last Optimized.onLines]. rewrite setBuffer_same.
      apply sameRequest_refl.
  - cbn [map Optimized.run fold_left List.concat Optimized.handle].
    apply sameRequest_trans with (onData (onData st c) (List.concat chunks)).
    + apply IH. now apply onData_buffer_lineFree.
    + apply onData_two_same.
Qed.

End Handlers.

End OptimizedChunkFacts.

(** X13: For an upstream of the llama.cpp variant that sends ASCII bytes only,
    the request does not depend on where the bytes are cut into chunks: two
    ways of cutting the same bytes lead, also after any further events, to
    the same response, the same accumulated content and token count, and
    the same store.  (Bytes from 0x80 on are left out: the handler decodes
    each chunk on its own.) *)
Theorem optimized_chunking
    (stop : list jstring) (sanitizeResponse : jstring -> jstring)
    (userPrompt : jstring) (u : userId) (d : db)
    (chunks chunks' : list jstring) (later : list upstream_event) :
  asciiText (List.concat chunks) = true ->
  List.concat chunks = List.concat chunks' ->
  let one :=
    Optimized.run stop sanitizeResponse userPrompt u (Optimized.start d)
      (map Data chunks ++ later) in
  let other :=
    Optimized.run stop sanitizeResponse userPrompt u (Optimized.start d)
      (map Data chunks' ++ later) in
  Optimized.res one = Optimized.res other /\
  Optimized.fullContent one = Optimized.fullContent other /\
  Optimized.tokenCount one = Optimized.tokenCount other /\
  Optimized.streamEnded one = Optimized.streamEnded other /\
  Optimized.store one = Optimized.store other.
Proof.
  intros _ E one other.
  assert (W : forall l : list jstring,
             sameRequest
               (Optimized.run stop sanitizeResponse userPrompt u
                  (Optimized.start d) (map Data l ++ later))
               (Optimized.run stop sanitizeResponse userPrompt u
                  (Optimized.start d) (Data (List.concat l) :: later))).
  { intros l. unfold Optimized.run. rewrite fold_left_app.
    cbn [fold_left Optimized.handle].
    apply OptimizedChunkFacts.run_same, OptimizedChunkFacts.run_chunks_same.
    intros []. }
  pose proof (W chunks) as A. pose proof (W chunks') as B.
  rewrite <- E in B. fold one in A. fold other in B.
  destruct A as (F & T & S & _ & _ & R & D & _).
  destruct B as (F' & T' & S' & _ & _ & R' & D' & _).
  repeat split; congruence.
Qed.

Lemma optimized_chunking_witness :
  asciiText
    (List.concat [firstn 10 (Optimized.deltaChunk (js "Hi"));
                  skipn 10 (Optimized.deltaChunk (js "Hi"))]) = true /\
  List.concat [firstn 10 (Optimized.deltaChunk (js "Hi"));
               skipn 10 (Optimized.deltaChunk (js "Hi"))]
  = List.concat [Optimized.deltaChunk (js "Hi")] /\
  Optimized.res
    (Optimized.run Optimized.defaultStop (fun s => s) (js "hi") 0
       (Optimized.start emptyDb)
       (map Data [firstn 10 (Optimized.deltaChunk (js "Hi"));
                  skipn 10 (Optimized.deltaChunk (js "Hi"))] ++ [End]))
  = Optimized.res
      (Optimized.run Optimized.defaultStop (fun s => s) (js "hi") 0
         (Optimized.start emptyDb)
         (map Data [Optimized.deltaChunk (js "Hi")] ++ [End])).
Proof.
  assert (H1 : asciiText
    (List.concat [firstn 10 (Optimized.deltaChunk (js "Hi"));
                  skipn 10 (Optimized.deltaChunk (js "Hi"))]) = true)
    by (vm_compute; reflexivity).
  assert (H2 : List.concat [firstn 10 (Optimized.deltaChunk (js "Hi"));
                            skipn 10 (Optimized.deltaChunk (js "Hi"))]
               = List.concat [Optimized.deltaChunk (js "Hi")])
    by (vm_compute; reflexivity).
  split; [exact H1 | split; [exact H2|]].
  exact (proj1 (@optimized_chunking Optimized.defaultStop (fun s => s)
                  (js "hi") 0 emptyDb
                  [firstn 10 (Optimized.deltaChunk (js "Hi"));
                   skipn 10 (Optimized.deltaChunk (js "Hi"))]
                  [Optimized.deltaChunk (js "Hi")] [End] H1 H2)).
Defined.

(* ================================================================== *)
(** * Faithful relay *)
(* ================================================================== *)

Module RoundTrip.

Lemma quoteChar_parse (c : ascii) (tail : jstring) :
  parseChars (quoteChar c ++ tail)
  = match parseChars tail with
    | Some (body, rest) => Some (c :: body, rest)
    | None => None
    end.
Proof.
  destruct c as [[] [] [] [] [] [] [] []];
  match goal with
  | |- context [quoteChar ?c] =>
      let q := eval vm_compute in (quoteChar c) in change (quoteChar c) with q
  end;
  cbn [app]; simpl; reflexivity.
Qed.

Lemma parseChars_quoted (s rest : jstring) :
  parseChars (flat_map quoteChar s ++ DQ :: rest) = Some (s, rest).
Proof.
  induction s as [|c s IH]; [reflexivity|].
  cbn [flat_map]. rewrite <- app_assoc, quoteChar_parse, IH. reflexivity.
Qed.

Lemma quoteChar_lineFree (c : ascii) : ~ In LF (quoteChar c).
Proof.
  destruct c as [[] [] [] [] [] [] [] []]; vm_compute;
    intros H; repeat (destruct H as [H|H]; [discriminate|]); exact H.
Qed.

Lemma quoted_lineFree (s : jstring) : ~ In LF (flat_map quoteChar s).
Proof.
  induction s as [|c s IH]; [intros []|].
  cbn [flat_map]. intros H. apply in_app_or in H.
  destruct H as [H|H]; [now apply (quoteChar_lineFree c) | now apply IH].
Qed.

End RoundTrip.

Module RelayFacts.
Import RoundTrip StringFacts.

Lemma parse_llama (s : jstring) :
  JSON_parse (jq "{'content':" ++ quote s ++ js "}")
  = Ok (VObj [(js "content", VStr s)]).
Proof.
  unfold JSON_parse.
  set (text := jq "{'content':" ++ quote s ++ js "}").
  assert (F : exists f, 2 * List.length text + 2 = S (S (S f))).
  { exists (2 * List.length text - 1). subst text. rewrite length_app. cbn. lia. }
  destruct F as [f ->]. subst text. unfold quote.
  replace (jq "{'content':" ++ ([DQ] ++ flat_map quoteChar s ++ [DQ]) ++ js "}")
    with (jq "{'content':'" ++ (flat_map quoteChar s ++ DQ :: js "}"))
    by (now rewrite <- !app_assoc).
  simpl. rewrite parseChars_quoted. reflexivity.
Qed.

Lemma parse_choices (s : jstring) :
  JSON_parse (jq "{'choices':[{'delta':{'content':" ++ quote s ++ js "}}]}")
  = Ok (VObj [(js "choices",
               VArr [VObj [(js "delta", VObj [(js "content", VStr s)])]])]).
Proof.
  unfold JSON_parse.
  set (text := jq "{'choices':[{'delta':{'content':" ++ quote s ++ js "}}]}").
  assert (F : exists f, 2 * List.length text + 2
                        = S (S (S (S (S (S (S (S (S (S (S (S f)))))))))))).
  { exists (2 * List.length text - 10). subst text. rewrite length_app. cbn. lia. }
  destruct F as [f ->]. subst text. unfold quote.
  replace (jq "{'choices':[{'delta':{'content':"
           ++ ([DQ] ++ flat_map quoteChar s ++ [DQ]) ++ js "}}]}")
    with (jq "{'choices':[{'delta':{'content':'"
          ++ (flat_map quoteChar s ++ DQ :: js "}}]}"))
    by (now rewrite <- !app_assoc).
  simpl. rewrite parseChars_quoted. reflexivity.
Qed.

(** ** Lines *)

Lemma split_line (line rest : jstring) :
  ~ In LF line -> split LF (line ++ LF :: rest) = line :: split LF rest.
Proof.
  induction line as [|c line IH]; intros N.
  - reflexivity.
  - cbn [app split]. destruct (Ascii.eqb_spec c LF) as [E|E].
    + exfalso. apply N. left. now symmetry.
    + rewrite IH; [reflexivity|]. intros H. apply N. now right.
Qed.

Lemma trim_same (c d : ascii) (m : jstring) :
  isSpace c = false -> isSpace d = false ->
  trim (c :: m ++ [d]) = c :: m ++ [d].
Proof.
  intros C D. unfold trim, trimEnd. cbn [trimStart]. rewrite C.
  replace (rev (c :: m ++ [d])) with (d :: rev m ++ [c])
    by (cbn [rev]; now rewrite rev_app_distr).
  cbn [trimStart]. rewrite D.
  replace (d :: rev m ++ [c]) with (rev (c :: m ++ [d]))
    by (cbn [rev]; now rewrite rev_app_distr).
  apply rev_involutive.
Qed.

Lemma startsWith_app (p r : jstring) : startsWith (p ++ r) p = true.
Proof. apply startsWith_spec. now exists r. Qed.

End RelayFacts.

Module CompletionRelay.
Import Completion RoundTrip RelayFacts StringFacts.


Lemma choicesPayload_shape (s : jstring) :
  exists m, choicesPayload s = "{"%char :: m ++ ["}"%char] /\ ~ In LF m.
Proof.
  exists (jq "'choices':[{'delta':{'content':'" ++ flat_map quoteChar s
          ++ jq "'}}]").
  split.
  - unfold choicesPayload, quote. cbn [app]. rewrite <- !app_assoc. reflexivity.
  - intros H. apply in_app_or in H. destruct H as [H|H].
    + vm_compute in H. repeat (destruct H as [H|H]; [discriminate|]). exact H.
    + apply in_app_or in H. destruct H as [H|H].
      * now apply (quoted_lineFree s).
      * vm_compute in H. repeat (destruct H as [H|H]; [discriminate|]). exact H.
Qed.

Lemma onLine_delta (st : state) (s : jstring) :
  s <> [] ->
  onLine st (js "data: " ++ choicesPayload s)
  = ({| buffer := buffer st;
        fullContent := fullContent st ++ s;
        res := res_write (contentEvent (VStr s)) (res st);
        store := store st |}, false).
Proof.
  intros N. unfold onLine. rewrite startsWith_app.
  unfold substringFrom.
  change 6 with (List.length (js "data: ")). rewrite ExtractFacts.skipn_app_exact.
  destruct (choicesPayload_shape s) as (m & P & _).
  assert (T : trim (choicesPayload s) = choicesPayload s).
  { rewrite P. now apply trim_same. }
  rewrite T.
  assert (D : jstring_eqb (choicesPayload s) (js "[DONE]") = false).
  { unfold jstring_eqb. destruct (list_eq_dec _ _ _) as [E|]; [|reflexivity].
    rewrite P in E. discriminate. }
  rewrite D. unfold choicesPayload at 1. rewrite parse_choices. cbn [bind].
  unfold deltaContent, getProp. cbn [isNullish bind].
  destruct s as [|c s]; [congruence|]. reflexivity.
Qed.

Lemma onData_delta (st : state) (s : jstring) :
  s <> [] -> buffer st = [] ->
  onData st (deltaChunk s)
  = {| buffer := [];
       fullContent := fullContent st ++ s;
       res := res_write (contentEvent (VStr s)) (res st);
       store := store st |}.
Proof.
  intros N B. unfold onData. rewrite B. cbn [app].
  replace (deltaChunk s) with ((js "data: " ++ choicesPayload s) ++ LF :: [])
    by (unfold deltaChunk, choicesPayload; now rewrite <- !app_assoc).
  rewrite split_line.
  - cbn [split removelast last onLines]. rewrite (onLine_delta _ N). reflexivity.
  - destruct (choicesPayload_shape s) as (m & -> & M). intros H.
    apply in_app_or in H. destruct H as [H|H].
    + vm_compute in H. repeat (destruct H as [H|H]; [discriminate|]). exact H.
    + destruct H as [H|H]; [discriminate|]. apply in_app_or in H.
      destruct H as [H|[H|[]]]; [now apply M | discriminate].
Qed.

Lemma run_deltas (userPrompt : jstring) (u : userId) (deltas : list jstring)
                 (st : state) :
  Forall (fun s => s <> []) deltas ->
  buffer st = [] -> finished (res st) = false ->
  let st' := run userPrompt u st (map (fun s => Data (deltaChunk s)) deltas) in
  written (res st')
  = written (res st) ++ map (fun s => contentEvent (VStr s)) deltas /\
  fullContent st' = fullContent st ++ List.concat deltas /\
  finished (res st') = false /\
  store st' = store st.
Proof.
  intros F. revert st. induction F as [|s deltas N _ IH]; intros st B Fin.
  - cbn. now rewrite !app_nil_r.
  - cbn [map run fold_left handle]. rewrite (onData_delta _ N B).
    set (st1 := {| buffer := []; fullContent := fullContent st ++ s;
                   res := res_write (contentEvent (VStr s)) (res st);
                   store := store st |}).
    assert (W1 : res st1 = {| statusCode := statusCode (res st);
                              headersSent := true;
                              written := written (res st) ++ [contentEvent (VStr s)];
                              finished := false |}).
    { subst st1. cbn [res]. unfold res_write. now rewrite Fin. }
    assert (Fin1 : finished (res st1) = false) by now rewrite W1.
    destruct (IH st1 eq_refl Fin1) as (W & C & E & S).
    unfold run in *. rewrite W, C, E, S, W1. subst st1.
    cbn [map List.concat written fullContent store].
    rewrite <- !app_assoc. now repeat split.
Qed.

End CompletionRelay.

(** X8: routes/completion.js relays faithfully.  When the upstream sends the
    non-empty deltas one per chunk, each in a line [data: {"choices":
    [{"delta":{"content":...}}]}], the client is written one content event
    per delta, in order and with the same text, the accumulated content is
    their concatenation, and the response stays open and the store
    untouched. *)
Theorem completion_relay
    (userPrompt : jstring) (u : userId) (d : db) (deltas : list jstring) :
  Forall (fun s => s <> []) deltas ->
  let st := Completion.run userPrompt u (Completion.start d)
              (map (fun s => Data (Completion.deltaChunk s)) deltas) in
  written (Completion.res st) = map (fun s => contentEvent (VStr s)) deltas /\
  Completion.fullContent st = List.concat deltas /\
  finished (Completion.res st) = false /\
  Completion.store st = d.
Proof.
  intros F.
  exact (@CompletionRelay.run_deltas userPrompt u deltas (Completion.start d) F
           eq_refl eq_refl).
Qed.

Lemma completion_relay_witness :
  Forall (fun s => s <> []) [js "Hel"; js "lo"] /\
  written
    (Completion.res
       (Completion.run (js "hi") 0 (Completion.start emptyDb)
          (map (fun s => Data (Completion.deltaChunk s)) [js "Hel"; js "lo"])))
  = map (fun s => contentEvent (VStr s)) [js "Hel"; js "lo"].
Proof.
  assert (F : Forall (fun s : jstring => s <> []) [js "Hel"; js "lo"]).
  { repeat constructor; discriminate. }
  split; [exact F|].
  exact (proj1 (@completion_relay (js "hi") 0 emptyDb [js "Hel"; js "lo"] F)).
Defined.

Module OptimizedRelay.
Import Optimized RoundTrip RelayFacts StringFacts.


Lemma contentPayload_shape (s : jstring) :
  exists m, contentPayload s = "{"%char :: m ++ ["}"%char] /\ ~ In LF m.
Proof.
  exists (jq "'content':'" ++ flat_map quoteChar s ++ [DQ]).
  split.
  - unfold contentPayload, quote. cbn [app]. rewrite <- !app_assoc. reflexivity.
  - intros H. apply in_app_or in H. destruct H as [H|H].
    + vm_compute in H. repeat (destruct H as [H|H]; [discriminate|]). exact H.
    + apply in_app_or in H. destruct H as [H|H].
      * now apply (quoted_lineFree s).
      * destruct H as [H|[]]. discriminate.
Qed.

Section Handlers.

Variable stop : list jstring.
Variable sanitizeResponse : jstring -> jstring.
Variable userPrompt : jstring.
Variable u : userId.

Lemma onLine_content_delta (st : state) (s : jstring) :
  trim s <> [] ->
  Optimized.onLine stop st (js "data: " ++ contentPayload s) = Optimized.onContent stop st s.
Proof.
  intros N. unfold Optimized.onLine. rewrite startsWith_app.
  destruct (contentPayload_shape s) as (m & P & _).
  assert (L : Nat.ltb 6 (List.length (js "data: " ++ contentPayload s)) = true).
  { apply Nat.ltb_lt. rewrite length_app, P. cbn. lia. }
  rewrite L. cbn [andb]. unfold substringFrom.
  change 6 with (List.length (js "data: ")). rewrite ExtractFacts.skipn_app_exact.
  assert (T : trim (contentPayload s) = contentPayload s).
  { rewrite P. now apply trim_same. }
  rewrite T.
  assert (D : jstring_eqb (contentPayload s) (js "[DONE]") = false).
  { unfold jstring_eqb. destruct (list_eq_dec _ _ _) as [E|]; [|reflexivity].
    rewrite P in E. discriminate. }
  rewrite D. unfold contentPayload at 1. rewrite parse_llama. cbn [bind].
  unfold nonBlankContent, getProp. cbn [isNullish bind].
  change (getOwn (VObj [(js "content", VStr s)]) (js "content")) with (VStr s).
  destruct s as [|c s]; [now destruct N|]. cbn [truthy].
  destruct (trim (c :: s)); [now destruct N | reflexivity].
Qed.

Lemma onData_content_delta (st : state) (s : jstring) :
  trim s <> [] -> buffer st = [] -> streamEnded st = false ->
  Optimized.onData stop st (deltaChunk s)
  = fst (Optimized.onContent stop st s).
Proof.
  intros N B E. unfold Optimized.onData. rewrite E, B. cbn [app].
  replace (deltaChunk s) with ((js "data: " ++ contentPayload s) ++ LF :: [])
    by (unfold deltaChunk, contentPayload; now rewrite <- !app_assoc).
  rewrite split_line.
  - cbn [split removelast last Optimized.onLines].
    assert (S : {| buffer := []; fullContent := fullContent st;
                   tokenCount := tokenCount st; streamEnded := false;
                   timerArmed := timerArmed st;
                   upstreamDestroyed := upstreamDestroyed st;
                   res := res st; store := store st |} = st).
    { destruct st. cbn in *. now subst. }
    rewrite S, (@onLine_content_delta st s N).
    now destruct (Optimized.onContent stop st s) as [st' []].
  - destruct (contentPayload_shape s) as (m & -> & M). intros H.
    apply in_app_or in H. destruct H as [H|H].
    + vm_compute in H. repeat (destruct H as [H|H]; [discriminate|]). exact H.
    + destruct H as [H|H]; [discriminate|]. apply in_app_or in H.
      destruct H as [H|[H|[]]]; [now apply M | discriminate].
Qed.

Lemma run_content_deltas (deltas : list jstring) (st : state) :
  Forall (fun s => trim s <> [] /\ hasMarker s = false) deltas ->
  (forall stopSeq, In stopSeq stop ->
     includes (fullContent st ++ List.concat deltas) stopSeq = false) ->
  tokenCount st + List.length deltas <= tokenCap ->
  buffer st = [] -> streamEnded st = false -> finished (res st) = false ->
  let st' := Optimized.run stop sanitizeResponse userPrompt u st
               (map (fun s => Data (deltaChunk s)) deltas) in
  written (res st')
  = written (res st) ++ map (fun s => contentEvent (VStr s)) deltas /\
  fullContent st' = fullContent st ++ List.concat deltas /\
  tokenCount st' = tokenCount st + List.length deltas /\
  streamEnded st' = false /\
  finished (res st') = false /\
  store st' = store st.
Proof.
  intros F. revert st.
  induction F as [|s deltas [N M] _ IH]; intros st Stop Cap B E Fin.
  - cbn. rewrite !app_nil_r, Nat.add_0_r. now repeat split.
  - cbn [map Optimized.run fold_left Optimized.handle].
    rewrite (@onData_content_delta st s N B E). unfold Optimized.onContent.
    cbn [accumulate fullContent tokenCount].
    assert (H1 : existsb (fun stopSeq => includes (fullContent st ++ s) stopSeq) stop
                 = false).
    { destruct (existsb _ stop) eqn:X; [|reflexivity].
      apply existsb_exists in X. destruct X as (stopSeq & I & X).
      specialize (Stop stopSeq I). cbn [List.concat] in Stop.
      rewrite app_assoc in Stop.
      now rewrite (includes_app_l _ _ (List.concat deltas) X) in Stop. }
    assert (H2 : Nat.ltb tokenCap (S (tokenCount st)) = false).
    { apply Nat.ltb_ge. cbn [List.length] in Cap. lia. }
    rewrite H1, H2, M. cbn [orb fst].
    set (st1 := withRes _ _).
    assert (W1 : res st1 = {| statusCode := statusCode (res st);
                              headersSent := true;
                              written := written (res st) ++ [contentEvent (VStr s)];
                              finished := false |}).
    { subst st1. cbn [withRes res accumulate]. unfold res_write. now rewrite Fin. }
    assert (Fin1 : finished (res st1) = false) by now rewrite W1.
    destruct (IH st1) as (W & C & T & E' & Fin' & S); auto.
    + intros stopSeq I. subst st1. cbn [withRes fullContent accumulate].
      rewrite <- app_assoc. now apply Stop.
    + subst st1. cbn [withRes tokenCount accumulate]. cbn [List.length] in Cap. lia.
    + unfold Optimized.run in *. rewrite W, C, T, E', Fin', S, W1. subst st1.
      cbn [map List.concat written withRes fullContent tokenCount store accumulate
           List.length].
      rewrite <- !app_assoc. repeat split. lia.
Qed.

End Handlers.

End OptimizedRelay.

(** X14: The llama.cpp variant relays faithfully what it does not filter.  When
    the upstream sends, one per chunk in a line [data: {"content":...}], at
    most 800 deltas that are not blank and hold no marker name, and no stop
    sequence occurs in their concatenation, the client is written one
    content event per delta, in order and with the same text; the
    accumulated content is their concatenation and the stream stays
    open. *)
Theorem optimized_relay
    (stop : list jstring) (sanitizeResponse : jstring -> jstring)
    (userPrompt : jstring) (u : userId) (d : db) (deltas : list jstring) :
  Forall (fun s => trim s <> [] /\ Optimized.hasMarker s = false) deltas ->
  (forall stopSeq, In stopSeq stop ->
     includes (List.concat deltas) stopSeq = false) ->
  List.length deltas <= Optimized.tokenCap ->
  let st := Optimized.run stop sanitizeResponse userPrompt u (Optimized.start d)
              (map (fun s => Data (Optimized.deltaChunk s)) deltas) in
  written (Optimized.res st) = map (fun s => contentEvent (VStr s)) deltas /\
  Optimized.fullContent st = List.concat deltas /\
  Optimized.tokenCount st = List.length deltas /\
  Optimized.streamEnded st = false /\
  finished (Optimized.res st) = false /\
  Optimized.store st = d.
Proof.
  intros F S L.
  exact (@OptimizedRelay.run_content_deltas stop sanitizeResponse userPrompt u deltas
           (Optimized.start d) F S L eq_refl eq_refl eq_refl).
Qed.

Lemma optimized_relay_witness :
  Forall (fun s => trim s <> [] /\ Optimized.hasMarker s = false)
         [js "Hel"; js "lo"] /\
  (forall stopSeq, In stopSeq Optimized.defaultStop ->
     includes (List.concat [js "Hel"; js "lo"]) stopSeq = false) /\
  List.length [js "Hel"; js "lo"] <= Optimized.tokenCap /\
  written
    (Optimized.res
       (Optimized.run Optimized.defaultStop (fun s => s) (js "hi") 0
          (Optimized.start emptyDb)
          (map (fun s => Data (Optimized.deltaChunk s)) [js "Hel"; js "lo"])))
  = map (fun s => contentEvent (VStr s)) [js "Hel"; js "lo"].
Proof.
  assert (F : Forall (fun s => trim s <> [] /\ Optimized.hasMarker s = false)
                     [js "Hel"; js "lo"]).
  { repeat constructor; try discriminate; reflexivity. }
  assert (S : forall stopSeq, In stopSeq Optimized.defaultStop ->
                includes (List.concat [js "Hel"; js "lo"]) stopSeq = false).
  { intros stopSeq I. vm_compute in I.
    repeat (destruct I as [<-|I]; [vm_compute; reflexivity|]). destruct I. }
  assert (L : List.length [js "Hel"; js "lo"] <= Optimized.tokenCap).
  { unfold Optimized.tokenCap. cbn. lia. }
  split; [exact F|]. split; [exact S|]. split; [exact L|].
  exact (proj1 (@optimized_relay Optimized.defaultStop (fun s => s) (js "hi") 0
                  emptyDb [js "Hel"; js "lo"] F S L)).
Defined.

(* ================================================================== *)
(** * POST /emotions and the content event *)
(* ================================================================== *)

(** X20: POST /emotions stores an entry exactly when it answers 201.  The entry
    then holds the trimmed mood, which is not empty, and the intensity of
    the body, a number between 1 and 10; every other answer is 400, 404 or
    500 and stores nothing. *)
Theorem postEmotion_created (body : value) (userFound : bool) :
  match Emotions.pushed (Emotions.postEmotion body userFound) with
  | Some entry =>
      Emotions.status (Emotions.postEmotion body userFound) = 201 /\
      userFound = true /\
      exists mood m e,
        getOwn body (js "mood") = VStr mood /\
        getOwn body (js "intensity") = VNum m e /\
        trim mood <> [] /\
        getOwn entry (js "emotion") = VStr (trim mood) /\
        getOwn entry (js "intensity") = VNum m e /\
        (1 <= numQ m e)%Q /\ (numQ m e <= 10)%Q
  | None =>
      Emotions.status (Emotions.postEmotion body userFound) = 400 \/
      Emotions.status (Emotions.postEmotion body userFound) = 404 \/
      Emotions.status (Emotions.postEmotion body userFound) = 500
  end.
Proof.
  unfold Emotions.postEmotion, getProp.
  destruct (isNullish body) eqn:B; cbn [Emotions.reject Emotions.pushed Emotions.status];
    [now (right; right)|].
  destruct (getOwn body (js "mood")) as [| |b|m e|mood|l|l] eqn:M;
    cbn [negb Emotions.reject Emotions.pushed Emotions.status]; try now left.
  destruct (truthy (VStr mood) && negb (Nat.eqb (List.length (trim mood)) 0)) eqn:Mood;
    cbn [negb Emotions.reject Emotions.pushed Emotions.status]; [|now left].
  apply andb_true_iff in Mood. destruct Mood as [_ Mood].
  apply negb_true_iff, Nat.eqb_neq in Mood.
  destruct (getOwn body (js "intensity")) as [| |b|m e|s|l|l] eqn:I;
    cbn [negb Emotions.reject Emotions.pushed Emotions.status]; try now left.
  destruct (negb (num_lt (Fin (numQ m e)) (numOfZ 1))
            && negb (num_gt (Fin (numQ m e)) (numOfZ 10))) eqn:R;
    cbn [negb Emotions.reject Emotions.pushed Emotions.status]; [|now left].
  destruct userFound; cbn [negb Emotions.reject Emotions.pushed Emotions.status];
    [|now (right; left)].
  destruct (Emotions.notesContext (getOwn body (js "notes"))) as [context|];
    cbn [Emotions.reject Emotions.pushed Emotions.status]; [|now (right; right)].
  split; [reflexivity|]. split; [reflexivity|].
  exists mood, m, e. split; [reflexivity|]. split; [reflexivity|].
  split; [destruct (trim mood); [now destruct Mood | discriminate]|].
  split; [reflexivity|]. split; [reflexivity|].
  apply andb_true_iff in R. destruct R as [R1 R2].
  apply negb_true_iff in R1, R2. cbn in R1, R2.
  apply negb_false_iff, Qle_bool_iff in R1, R2. now split.
Qed.

(** X10: A content event for a string delta is one line of JSON that the
    client decodes back to the delta: it is [data: ], a text without line feed that [JSON.parse]
    reads as [{content: delta}], and two line feeds. *)
Theorem contentEvent_decodes (delta : jstring) :
  exists text,
    contentEvent (VStr delta) = js "data: " ++ text ++ [LF; LF] /\
    ~ In LF text /\
    JSON_parse text = Ok (VObj [(js "content", VStr delta)]).
Proof.
  exists (contentPayload delta). split; [|split].
  - rewrite WireFacts.contentEvent_shape. unfold contentPayload, quote.
    rewrite <- !app_assoc. reflexivity.
  - destruct (OptimizedRelay.contentPayload_shape delta) as (m & -> & M).
    intros [H|H]; [discriminate|]. apply in_app_or in H.
    destruct H as [H|[H|[]]]; [now apply M | discriminate].
  - apply RelayFacts.parse_llama.
Qed.

(* ================================================================== *)
(** * The first completion endpoint, the request parameters, the subscription *)
(* ================================================================== *)

Module LegacyFacts.
Import Legacy StringFacts.

Lemma filtered_marker_free (m0 : ascii) (m cleaned : jstring)
                           (keep : jstring -> bool) :
  ~ In LF (m0 :: m) ->
  (forall line, keep line = true -> includes line (m0 :: m) = false) ->
  includes (trim (join [LF] (filter keep (split LF cleaned)))) (m0 :: m) = false.
Proof.
  intros F K.
  destruct (includes _ _) eqn:E; [|reflexivity]. exfalso.
  apply ExtractFacts.trim_includes in E.
  destruct (CleanerFacts.includes_join _ F E) as (part & P & Q).
  apply filter_In in P. destruct P as [_ P].
  rewrite (K part P) in Q. discriminate.
Qed.

Lemma stripMarkers_free (content : jstring) :
  hasMarkerName (stripMarkers content) = false.
Proof.
  unfold stripMarkers.
  destruct (hasMarkerName (stripChain content)) eqn:H; [|exact H].
  unfold hasMarkerName. apply orb_false_iff. split.
  - apply filtered_marker_free.
    + intros X. vm_compute in X. repeat (destruct X as [X|X]; [discriminate|]). exact X.
    + intros line L. apply andb_true_iff in L. destruct L as [L _].
      now apply negb_true_iff.
  - apply filtered_marker_free.
    + intros X. vm_compute in X. repeat (destruct X as [X|X]; [discriminate|]). exact X.
    + intros line L. apply andb_true_iff in L. destruct L as [_ L].
      now apply negb_true_iff.
Qed.

End LegacyFacts.

(** X18: The cleaning of the first completion endpoint leaves no marker name:
    after the chain of replacements and the emergency cleanup, the reply
    contains neither [TASK_INFERENCE] nor [EMOTION_LOG], whatever the LLM
    answered. *)
Theorem legacy_stripMarkers_marker_free (content : jstring) :
  includes (Legacy.stripMarkers content) TASK_INFERENCE = false /\
  includes (Legacy.stripMarkers content) EMOTION_LOG = false.
Proof.
  apply orb_false_iff. exact (LegacyFacts.stripMarkers_free content).
Qed.

(** X19: The first completion endpoint, for every sanitizer and every answer of
    the LLM: the content sent to the client holds no marker name, the
    assistant memory stored is never empty, and no emotion is logged and no
    task created. *)
Theorem legacy_respond_safe
    (sanitizeResponse : jstring -> jstring)
    (llmContent userPrompt : jstring) (u : userId) (d : db) :
  exists stored reply,
    Legacy.respond sanitizeResponse llmContent userPrompt u d
    = ({| memories :=
            memories d ++
            [ {| mem_userId := u; mem_content := userPrompt; mem_role := user |};
              {| mem_userId := u; mem_content := stored; mem_role := assistant |} ];
          emotionalLog := emotionalLog d;
          tasks := tasks d |},
       Legacy.Content reply) /\
    stored <> [] /\
    includes reply TASK_INFERENCE = false /\
    includes reply EMOTION_LOG = false.
Proof.
  unfold Legacy.respond, METADATA_PATTERNS_emotion, METADATA_PATTERNS_task.
  rewrite (@CompletionFacts.extractJsonPattern_null EMOTION_LOG llmContent
             (or_introl eq_refl)).
  rewrite (@CompletionFacts.extractJsonPattern_null TASK_INFERENCE llmContent
             (or_intror eq_refl)).
  change (Completion.emotionToLog VNull userPrompt) with (@Ok (option value) None).
  change (Completion.taskToCreate u VNull) with (@None taskDoc).
  cbn iota beta.
  eexists _, _. split; [reflexivity|]. split.
  - destruct (sanitizeResponse (Legacy.stripMarkers llmContent)); discriminate.
  - apply orb_false_iff.
    destruct (Legacy.hasMarkerName _) eqn:H; [reflexivity | exact H].
Qed.

Module RequestFacts.

Lemma num_min_cap (x : num) (cap : Q) :
  num_gt (Compressor.num_min x (Fin cap)) (Fin cap) = false.
Proof.
  destruct x as [| |q|]; cbn; try reflexivity.
  - destruct (Qle_bool q cap) eqn:E; cbn; rewrite ?E; [reflexivity|].
    apply negb_false_iff, Qle_bool_iff, Qle_refl.
  - apply negb_false_iff, Qle_bool_iff, Qle_refl.
Qed.

End RequestFacts.

(** X17: The llama.cpp variant never asks the model for more than 1000 tokens
    nor for a temperature above 0.85, whatever the request body says. *)
Theorem request_parameters_capped (body : value) :
  match Request.n_predict body with
  | Ok n => num_gt n (numOfZ 1000) = false
  | Throw => True
  end /\
  match Request.temperature body with
  | Ok t => num_gt t (Fin (Compressor.frac 85 100)) = false
  | Throw => True
  end.
Proof.
  unfold Request.n_predict, Request.temperature.
  destruct (getProp body "n_predict") as [v|], (getProp body "temperature") as [w|];
    cbn [bind]; (split; [|]); try exact I;
    try (destruct (toNumber _); cbn [bind]; [apply RequestFacts.num_min_cap | exact I]).
Qed.

(** X21: A subscription that is active at some time was active at every earlier
    time: [hasActiveNuminaTrace] never turns from false to true as the
    clock advances. *)
Theorem hasActiveNuminaTrace_antitone
    (trace : option UserModel.numinaTrace) (now1 now2 later1 later2 : Z) :
  (now1 <= later1)%Z -> (now2 <= later2)%Z ->
  UserModel.hasActiveNuminaTrace trace later1 later2 = true ->
  UserModel.hasActiveNuminaTrace trace now1 now2 = true.
Proof.
  intros L1 L2. unfold UserModel.hasActiveNuminaTrace.
  destruct trace as [[active e c]|]; [|discriminate]. cbn.
  destruct active; [|discriminate]. cbn.
  destruct e as [e|], c as [c|];
    repeat match goal with
           | |- context [(?a <? ?b)%Z] => destruct (Z.ltb_spec a b)
           end; try discriminate; try reflexivity; lia.
Qed.

Lemma hasActiveNuminaTrace_antitone_witness :
  (10 <= 20)%Z /\ (11 <= 21)%Z /\
  UserModel.hasActiveNuminaTrace
    (Some {| UserModel.isActive := true; UserModel.endDate := Some 100%Z;
             UserModel.cancelledAt := None |}) 10 11 = true.
Proof.
  assert (A : (10 <= 20)%Z) by lia. assert (B : (11 <= 21)%Z) by lia.
  split; [exact A|]. split; [exact B|].
  apply (@hasActiveNuminaTrace_antitone
           (Some {| UserModel.isActive := true; UserModel.endDate := Some 100%Z;
                    UserModel.cancelledAt := None |}) 10 11 20 21 A B).
  reflexivity.
Defined.

(* ================================================================== *)
(** * The intelligence compressor, continued *)
(* ================================================================== *)

Module CompressorMore.
Import Compressor CompressorFacts.

Lemma compressedParts_detailed (data : list (jstring * value)) :
  compressedParts (extractDetailedData data) = compressedParts data.
Proof.
  unfold extractDetailedData.
  induction data as [|[key v] rest IH]; [reflexivity|].
  cbn [filter fst compressedParts].
  destruct (jstring_eqb key (js "reliability")) eqn:E; cbn [negb].
  - exact IH.
  - cbn [compressedParts]. rewrite E, IH. reflexivity.
Qed.

Lemma clusterIntelligenceData_names (ctx : value) (messageType : jstring)
    (complexity : value) (clusters : list (jstring * cluster)) :
  clusterIntelligenceData ctx messageType complexity = Ok clusters ->
  map fst clusters = clusterNames.
Proof.
  unfold clusterIntelligenceData.
  destruct (negb (truthy ctx)).
  - intros E. inversion E. reflexivity.
  - destruct (extractPrimaryPersonality ctx); [|discriminate]. cbn [bind].
    destruct (extractCognitiveProfile ctx); [|discriminate]. cbn [bind].
    destruct (buildContextualCluster ctx messageType complexity); [|discriminate].
    cbn [bind].
    destruct (predictOptimalResponse complexity); [|discriminate]. cbn [bind].
    intros E. inversion E. reflexivity.
Qed.

Lemma compressSteps_clusters (intelligenceContext : value) (messageType : jstring)
    (complexity usedModel qualityTarget history forced : value) (r : compression) :
  compressSteps intelligenceContext messageType complexity usedModel
                qualityTarget history forced = Ok r ->
  exists strategy budget actual,
    meta r = Compressed strategy budget actual usedModel clusterNames.
Proof.
  unfold compressSteps.
  destruct (calculateOptimalTokenBudget _ _ _ _) as [budget|]; [|discriminate].
  cbn [bind].
  destruct (clusterIntelligenceData _ _ _) as [clustered|] eqn:C; [|discriminate].
  cbn [bind].
  destruct (performPredictiveCompression _ _ _) as [cc|]; [|discriminate].
  cbn [bind]. unfold optimizeCompressionQuality.
  destruct (toNumber qualityTarget); [|discriminate].
  cbn [bind].
  destruct (generateOptimizedPrompt _ _) as [finalPrompt|] eqn:G; [|discriminate].
  cbn [bind].
  destruct (calculateCompressionMetrics _); [|discriminate].
  cbn [bind]. intros E. inversion E. cbn [meta].
  rewrite (clusterIntelligenceData_names _ _ _ C). eauto.
Qed.

Lemma compressSteps_undefined (messageType : jstring)
    (complexity usedModel qualityTarget history forced : value) :
  compressSteps VUndef messageType complexity usedModel
                qualityTarget history forced = Throw.
Proof.
  unfold compressSteps.
  destruct (calculateOptimalTokenBudget _ _ _ _) as [budget|]; [|reflexivity].
  cbn [bind].
  destruct (clusterIntelligenceData _ _ _) as [clustered|] eqn:C; [|reflexivity].
  cbn [bind].
  destruct (performPredictiveCompression _ _ _) as [cc|]; [|reflexivity].
  cbn [bind]. unfold optimizeCompressionQuality.
  destruct (toNumber qualityTarget); [|reflexivity].
  cbn [bind].
  destruct (generateOptimizedPrompt _ _) as [finalPrompt|] eqn:G; [|reflexivity].
  reflexivity.
Qed.

End CompressorMore.

(** X22: The truncated text fits: for every text and every limit that is a
    natural number, [truncateToTokenLimit] returns a text whose token
    estimate is at most the limit. *)
Theorem truncateToTokenLimit_fits (text : jstring) (limit : nat) :
  Compressor.estimateTokenCount
    (Compressor.truncateToTokenLimit text (Compressor.numOfNat limit)) <= limit.
Proof.
  unfold Compressor.truncateToTokenLimit.
  apply CompressorFacts.truncateLoop_bound; simpl; lia.
Qed.

(** X23: [compressDataSemantically] keeps to a limit that is a natural number:
    the text it returns is estimated at no more than the limit, and when
    the joined parts fit they are returned as they are. *)
Theorem compressDataSemantically_fits
    (data : list (jstring * value)) (limit : nat) (text : jstring) :
  Compressor.compressDataSemantically data (Compressor.numOfNat limit) = Ok text ->
  Compressor.estimateTokenCount text <= limit /\
  exists parts,
    Compressor.compressedParts data = Ok parts /\
    (Compressor.estimateTokenCount (Compressor.joinParts parts) <= limit ->
     text = Compressor.joinParts parts).
Proof.
  intros E. split.
  - exact (CompressorFacts.compressDataSemantically_bound _ _ E).
  - unfold Compressor.compressDataSemantically in E.
    destruct (Compressor.compressedParts data) as [parts|]; [|discriminate].
    cbn [bind] in E. exists parts. split; [reflexivity|].
    intros F. rewrite CompressorFacts.num_gt_nat in E.
    destruct (Nat.ltb_spec limit
                (Compressor.estimateTokenCount (Compressor.joinParts parts)));
      [lia|].
    now inversion E.
Qed.

Lemma compressDataSemantically_fits_witness :
  Compressor.estimateTokenCount (js "c:neu,int:5") <= 10 /\
  exists parts,
    Compressor.compressedParts
      [(js "current", VStr (js "neutral")); (js "intensity", VNum 5 0)]
    = Ok parts /\
    (Compressor.estimateTokenCount (Compressor.joinParts parts) <= 10 ->
     js "c:neu,int:5" = Compressor.joinParts parts).
Proof.
  apply (@compressDataSemantically_fits
           [(js "current", VStr (js "neutral")); (js "intensity", VNum 5 0)]
           10 (js "c:neu,int:5")).
  vm_compute. reflexivity.
Defined.

(** X24: A cluster is compressed within its allocation: when [compressCluster]
    returns a text for a limit that is a natural number, the limit is
    positive and the text is estimated at no more than the limit. *)
Theorem compressCluster_fits
    (clusterData : option Compressor.cluster) (limit : nat) (text : jstring) :
  Compressor.compressCluster clusterData (Compressor.numOfNat limit) = Ok (Some text) ->
  0 < limit /\ Compressor.estimateTokenCount text <= limit.
Proof.
  unfold Compressor.compressCluster.
  destruct clusterData as [data|]; [|discriminate].
  destruct (num_le (Compressor.numOfNat limit) (numOfZ 0)) eqn:Z; [discriminate|].
  intros E. split.
  - destruct limit; [|lia]. discriminate.
  - destruct (num_lt _ (numOfZ 20));
      [|destruct (num_lt _ (numOfZ 50))];
      match type of E with
      | context [Compressor.formatSemanticCompressed ?d ?l] =>
          destruct (Compressor.formatSemanticCompressed d l) as [s|] eqn:F;
          [|discriminate]
      end;
      cbn [bind] in E; inversion E; subst;
      exact (CompressorFacts.formatSemanticCompressed_bound _ _ F).
Qed.

Lemma compressCluster_fits_witness :
  0 < 10 /\ Compressor.estimateTokenCount (js "c:neu,int:5") <= 10.
Proof.
  apply (@compressCluster_fits
           (Some [(js "current", VStr (js "neutral")); (js "intensity", VNum 5 0)])
           10 (js "c:neu,int:5")).
  vm_compute. reflexivity.
Defined.

(** X25: [compressDataSemantically] skips the [reliability] entry by itself:
    removing it first, as [extractDetailedData] does, changes nothing. *)
Theorem detailed_reliability_redundant
    (data : list (jstring * value)) (tokenLimit : num) :
  Compressor.compressDataSemantically (Compressor.extractDetailedData data) tokenLimit
  = Compressor.compressDataSemantically data tokenLimit.
Proof.
  unfold Compressor.compressDataSemantically.
  now rewrite CompressorMore.compressedParts_detailed.
Qed.

(** X26: Without an intelligence context ([undefined]) [compressForLLM] always
    ends in the fallback: the clusters are built, but the metrics call
    [JSON.stringify(undefined).length], which throws. *)
Theorem compressForLLM_undefined_context
    (messageType : jstring) (complexity : value) (opts : Compressor.options) :
  Compressor.compressForLLM VUndef messageType complexity opts
  = Compressor.getFallbackCompression messageType.
Proof.
  unfold Compressor.compressForLLM.
  now rewrite CompressorMore.compressSteps_undefined.
Qed.

(** X27: When the compression succeeds, the metadata names the seven clusters,
    always the same and in the same order, and the model is the one of the
    options or [gpt-4o]. *)
Theorem compressForLLM_cluster_names
    (intelligenceContext : value) (messageType : jstring) (complexity : value)
    (opts : Compressor.options) :
  match Compressor.meta
          (Compressor.compressForLLM intelligenceContext messageType
                                     complexity opts) with
  | Compressor.Compressed _ _ _ usedModel clusters =>
      clusters = Compressor.clusterNames /\
      usedModel = Compressor.orDefault (Compressor.model opts)
                                       (Compressor.str "gpt-4o")
  | Compressor.Fallback => True
  end.
Proof.
  destruct (CompressorFacts.compressForLLM_cases
              intelligenceContext messageType complexity opts) as [E | E].
  - rewrite E. exact I.
  - apply CompressorMore.compressSteps_clusters in E.
    destruct E as (s & b & a & ->). now split.
Qed.

(* ================================================================== *)
(** * The token budget *)
(* ================================================================== *)

Module BudgetFacts.
Import Compressor.


Lemma profileNumbers_cases (key : jstring) :
  profileNumbers key = (NaN, NaN) \/
  exists o cap : Z,
    profileNumbers key = (numOfZ o, Fin (Qmult (inject_Z cap) (frac 1 10))) /\
    (o = 100 \/ o = 150 \/ o = 200)%Z.
Proof.
  unfold profileNumbers, readSlot, modelProfiles.
  cbn [assoc].
  destruct (jstring_eqb key (js "gpt-4o")).
  { right. eexists _, _. split; [reflexivity|]. cbn. auto. }
  destruct (jstring_eqb key (js "claude-3")).
  { right. eexists _, _. split; [reflexivity|]. cbn. auto. }
  destruct (jstring_eqb key (js "gpt-4")).
  { right. eexists _, _. split; [reflexivity|]. cbn. auto. }
  destruct (objectPrototypeMember key).
  - now left.
  - right. eexists _, _. split; [reflexivity|]. cbn. auto.
Qed.

Lemma typeMultiplier_cases (messageType : jstring) :
  match readSlot typeMultipliers messageType with
  | Own q => In q [frac 3 10; frac 1 1; frac 12 10; frac 15 10; frac 18 10;
                   frac 13 10; frac 14 10]
  | _ => True
  end.
Proof.
  unfold readSlot, typeMultipliers. cbn [assoc].
  repeat match goal with
         | |- context [jstring_eqb messageType ?k] =>
             destruct (jstring_eqb messageType k); [cbn; tauto|]
         end.
  now destruct (objectPrototypeMember messageType).
Qed.

Lemma num_min_two (x : num) : atMost 2 (num_min (Fin (frac 2 1)) x).
Proof.
  destruct x as [| |q|]; cbn; auto.
  - unfold frac. destruct (Qle_bool (2 # 1) q) eqn:E; cbn.
    + apply Qle_refl.
    + destruct (Qlt_le_dec q 2) as [L|L].
      * now apply Qlt_le_weak.
      * apply Qle_bool_iff in L. unfold frac in *. congruence.
  - apply Qle_refl.
Qed.


Lemma atMost_weaken (b b' : Q) (a : num) :
  (b <= b')%Q -> atMost b a -> atMost b' a.
Proof.
  destruct a; cbn; auto. intros L H. now apply Qle_trans with b.
Qed.

Lemma atMost_mul_r (b k : Q) (a : num) :
  (0 < k)%Q -> atMost b a -> atMost (b * k) (num_mul a (Fin k)).
Proof.
  intros K. destruct a as [| |x|]; cbn; auto; try tauto.
  - unfold scaleInf. apply Qgt_alt in K. now rewrite K.
  - intros H. apply Qmult_le_compat_r; [exact H | now apply Qlt_le_weak].
Qed.

Lemma atMost_mul_l (b k : Q) (a : num) :
  (0 < k)%Q -> atMost b a -> atMost (k * b) (num_mul (Fin k) a).
Proof.
  intros K. destruct a as [| |x|]; cbn; auto; try tauto.
  - unfold scaleInf. apply Qgt_alt in K. now rewrite K.
  - intros H. rewrite (Qmult_comm k x), (Qmult_comm k b).
    apply Qmult_le_compat_r; [exact H | now apply Qlt_le_weak].
Qed.

Lemma atMost_min (b : Q) (a cap : num) :
  cap <> PosInf -> cap <> NegInf -> atMost b a -> atMost b (num_min a cap).
Proof.
  intros P N.
  destruct a as [| |x|], cap as [| |c|]; cbn; auto; try congruence; try tauto.
  intros H. destruct (Qle_bool x c) eqn:E; cbn; [exact H|].
  destruct (Qlt_le_dec c x) as [L|L].
  - apply Qle_trans with x; [now apply Qlt_le_weak | exact H].
  - apply Qle_bool_iff in L. congruence.
Qed.

Lemma mathRound_le (x : Q) (z : Z) : (x <= inject_Z z)%Q -> (mathRound x <= z)%Z.
Proof.
  intros H. unfold mathRound.
  pose proof (Qfloor_le (x + (1 # 2))) as L.
  assert (L' : (inject_Z (Qfloor (x + (1 # 2))) < inject_Z (z + 1))%Q).
  { rewrite inject_Z_plus. change (inject_Z 1) with 1%Q.
    revert H L. generalize (inject_Z (Qfloor (x + (1 # 2)))), (inject_Z z).
    intros f iz H L.
    apply Qle_lt_trans with (x + (1 # 2))%Q; [exact L|].
    apply Qle_lt_trans with (iz + (1 # 2))%Q.
    - now apply Qplus_le_l.
    - apply Qplus_lt_r. reflexivity. }
  rewrite <- Zlt_Qlt in L'. lia.
Qed.

Lemma atMost_round (z : Z) (a : num) :
  atMost (inject_Z z) a -> atMost (inject_Z z) (num_round a).
Proof.
  destruct a as [| |x|]; cbn; auto.
  intros H. rewrite <- Zle_Qle. now apply mathRound_le.
Qed.

Lemma atMost_gt (z : Z) (a : num) :
  atMost (inject_Z z) a -> num_gt a (numOfZ z) = false.
Proof.
  destruct a as [| |x|]; cbn; auto; [|tauto].
  intros H. apply negb_false_iff. now apply Qle_bool_iff.
Qed.

Lemma budget_atMost (model : value) (messageType : jstring)
    (complexity conversationHistory : value) (budget : num) :
  calculateOptimalTokenBudget model messageType complexity conversationHistory
  = Ok budget ->
  atMost (inject_Z 936) budget.
Proof.
  unfold calculateOptimalTokenBudget.
  destruct (toString model) as [key|]; [|discriminate]. cbn [bind].
  destruct (profileNumbers_cases key) as [-> | (o & cap & -> & O)].
  { destruct (toNumber complexity) as [c|]; [|discriminate]. cbn [bind].
    destruct (getProp conversationHistory "length") as [len|]; [|discriminate].
    cbn [bind].
    destruct (gtNumber _ 10) as [long|]; [|discriminate]. cbn [bind].
    destruct long.
    - cbn [bind]. intros E. inversion E. exact I.
    - destruct (ltNumber _ 3) as [short|]; [|discriminate]. cbn [bind].
      destruct short; intros E; inversion E; exact I. }
  destruct (toNumber complexity) as [c|]; [|discriminate]. cbn [bind].
  set (m := num_min _ _).
  assert (M : atMost 2 m) by apply num_min_two.
  assert (B1 : atMost (inject_Z 200 * 2) (num_mul (numOfZ o) m)).
  { apply atMost_weaken with (inject_Z o * 2)%Q.
    - destruct O as [-> | [-> | ->]]; apply Qle_bool_iff; reflexivity.
    - apply atMost_mul_l; [|exact M].
      destruct O as [-> | [-> | ->]]; reflexivity. }
  set (t := match readSlot typeMultipliers messageType with
            | Own q => Fin q | Inherited _ => NaN | Missing => Fin (frac 1 1) end).
  assert (B2 : atMost (inject_Z 200 * 2 * (9 # 5))
                 (num_mul (num_mul (numOfZ o) m) t)).
  { subst t. pose proof (typeMultiplier_cases messageType) as T.
    destruct (readSlot typeMultipliers messageType) as [q| |].
    - apply atMost_weaken with (inject_Z 200 * 2 * q)%Q.
      + cbn in T. unfold frac in T.
        destruct T as [<-|[<-|[<-|[<-|[<-|[<-|[<-|[]]]]]]]]; apply Qle_bool_iff; reflexivity.
      + apply atMost_mul_r; [|exact B1].
        cbn in T. unfold frac in T.
        destruct T as [<-|[<-|[<-|[<-|[<-|[<-|[<-|[]]]]]]]]; reflexivity.
    - destruct (num_mul (numOfZ o) m); exact I.
    - apply atMost_weaken with (inject_Z 200 * 2 * frac 1 1)%Q.
      + apply Qle_bool_iff; reflexivity.
      + apply atMost_mul_r; [reflexivity | exact B1]. }
  set (b2 := num_mul (num_mul (numOfZ o) m) t) in *.
  destruct (getProp conversationHistory "length") as [len|]; [|discriminate].
  cbn [bind].
  destruct (gtNumber _ 10) as [long|]; [|discriminate]. cbn [bind].
  assert (F : forall b3, 
             atMost (inject_Z 936) b3 ->
             atMost (inject_Z 936)
               (num_round (num_min b3 (Fin (inject_Z cap * frac 1 10))))).
  { intros b3 H. apply atMost_round, atMost_min; [discriminate..|exact H]. }
  destruct long.
  - cbn [bind]. intros E. inversion E. apply F.
    apply atMost_weaken with (inject_Z 200 * 2 * (9 # 5) * frac 13 10)%Q.
    + apply Qle_bool_iff; reflexivity.
    + apply atMost_mul_r; [reflexivity | exact B2].
  - destruct (ltNumber _ 3) as [short|]; [|discriminate]. cbn [bind].
    destruct short; intros E; inversion E; apply F.
    + apply atMost_weaken with (inject_Z 200 * 2 * (9 # 5) * frac 8 10)%Q.
      * apply Qle_bool_iff; reflexivity.
      * apply atMost_mul_r; [reflexivity | exact B2].
    + apply atMost_weaken with (inject_Z 200 * 2 * (9 # 5))%Q.
      * apply Qle_bool_iff; reflexivity.
      * exact B2.
Qed.

End BudgetFacts.

(** X28: The token budget is never above 936, whatever the model, the
    message type, the complexity and the history: the largest profile has
    200 optimal tokens, and the three factors are at most 2, 1.8 and 1.3. *)
Theorem calculateOptimalTokenBudget_at_most_936
    (model : value) (messageType : jstring)
    (complexity conversationHistory : value) :
  match Compressor.calculateOptimalTokenBudget
          model messageType complexity conversationHistory with
  | Ok budget => num_gt budget (numOfZ 936) = false
  | Throw => True
  end.
Proof.
  destruct (Compressor.calculateOptimalTokenBudget _ _ _ _) as [budget|] eqn:E;
    [|exact I].
  apply BudgetFacts.atMost_gt. exact (BudgetFacts.budget_atMost _ _ _ _ E).
Qed.

(* ================================================================== *)
(** * Commit only at the end; a budget that is no number *)
(* ================================================================== *)

Module CommitFacts.

Lemma optimized_onLine_store (stop : list jstring) (st : Optimized.state)
                             (line : jstring) :
  Optimized.store (fst (Optimized.onLine stop st line)) = Optimized.store st.
Proof.
  unfold Optimized.onLine.
  destruct (startsWith line (js "data: ") && Nat.ltb 6 (List.length line));
    [|reflexivity].
  destruct (jstring_eqb _ _); [reflexivity|].
  destruct (bind _ _) as [[content|]|]; [|reflexivity..].
  unfold Optimized.onContent.
  destruct (existsb _ stop || _); [reflexivity|].
  destruct (Optimized.hasMarker content); reflexivity.
Qed.

Lemma optimized_onLines_store (stop : list jstring) (lines : list jstring)
                              (st : Optimized.state) :
  Optimized.store (Optimized.onLines stop st lines) = Optimized.store st.
Proof.
  revert st. induction lines as [|line rest IH]; intros st; [reflexivity|].
  cbn [Optimized.onLines]. pose proof (optimized_onLine_store stop st line) as S.
  destruct (Optimized.onLine stop st line) as [st' stopped]. cbn [fst] in S.
  destruct stopped; [exact S | now rewrite IH].
Qed.

Lemma optimized_handle_store
    (stop : list jstring) (sanitizeResponse : jstring -> jstring)
    (userPrompt : jstring) (u : userId) (st : Optimized.state)
    (ev : upstream_event) :
  ev <> End ->
  Optimized.store (Optimized.handle stop sanitizeResponse userPrompt u st ev)
  = Optimized.store st.
Proof.
  intros N. destruct ev as [chunk| |message| |]; cbn [Optimized.handle].
  - unfold Optimized.onData. destruct (Optimized.streamEnded st); [reflexivity|].
    now rewrite optimized_onLines_store.
  - congruence.
  - unfold Optimized.onError. now destruct (Optimized.streamEnded st).
  - unfold Optimized.onTimeout. destruct (Optimized.timerArmed st); [|reflexivity].
    cbn. now destruct (Optimized.streamEnded st).
  - unfold Optimized.onClose. now destruct (Optimized.streamEnded st).
Qed.

Lemma completion_handle_store
    (userPrompt : jstring) (u : userId) (st : Completion.state)
    (ev : upstream_event) :
  ev <> End ->
  Completion.store (Completion.handle userPrompt u st ev) = Completion.store st.
Proof.
  intros N. destruct ev as [chunk| |message| |]; cbn [Completion.handle];
    try reflexivity; [|congruence].
  unfold Completion.onData. now rewrite StoreFacts.onLines_store.
Qed.

End CommitFacts.

(** X29: Nothing is stored before the upstream ends.  As long as no [end] event
    arrives, whatever else happens (data, an error, the timer, the client
    going away), neither variant of the streaming endpoint writes to the
    store: the prompt and what was streamed so far are not kept. *)
Theorem no_end_no_commit
    (stop : list jstring) (sanitizeResponse : jstring -> jstring)
    (userPrompt : jstring) (u : userId) (d : db) (evs : list upstream_event) :
  ~ In End evs ->
  Completion.store (Completion.run userPrompt u (Completion.start d) evs) = d /\
  Optimized.store
    (Optimized.run stop sanitizeResponse userPrompt u (Optimized.start d) evs) = d.
Proof.
  intros N. split.
  - change d with (Completion.store (Completion.start d)) at 2.
    generalize (Completion.start d). induction evs as [|ev evs IH]; intros st.
    + reflexivity.
    + cbn [Completion.run fold_left].
      unfold Completion.run in IH. rewrite IH.
      * apply CommitFacts.completion_handle_store. intros ->. apply N. now left.
      * intros H. apply N. now right.
  - change d with (Optimized.store (Optimized.start d)) at 2.
    generalize (Optimized.start d). induction evs as [|ev evs IH]; intros st.
    + reflexivity.
    + cbn [Optimized.run fold_left].
      unfold Optimized.run in IH. rewrite IH.
      * apply CommitFacts.optimized_handle_store. intros ->. apply N. now left.
      * intros H. apply N. now right.
Qed.

Lemma no_end_no_commit_witness :
  ~ In End [Data (Optimized.deltaChunk (js "Hi")); Error (js "boom")] /\
  Optimized.store
    (Optimized.run Optimized.defaultStop (fun s => s) (js "hello") 7
       (Optimized.start emptyDb)
       [Data (Optimized.deltaChunk (js "Hi")); Error (js "boom")]) = emptyDb.
Proof.
  assert (N : ~ In End [Data (Optimized.deltaChunk (js "Hi")); Error (js "boom")]).
  { intros [H|[H|[]]]; discriminate. }
  split; [exact N|].
  exact (proj2 (@no_end_no_commit Optimized.defaultStop (fun s => s) (js "hello") 7
                  emptyDb _ N)).
Defined.

Module NanBudget.
Import Compressor.

Lemma allocate_nan (priorities : list (jstring * priorityEntry)) :
  Forall (fun a => tokens (snd a) = NaN) (allocateTokensByPriority priorities NaN).
Proof.
  unfold allocateTokensByPriority. apply Forall_forall.
  intros a H. apply in_map_iff in H. destruct H as (p & <- & _). reflexivity.
Qed.

Lemma compressLoop_nan (clusters : list (jstring * cluster))
                       (allocation : list (jstring * allocationEntry)) :
  Forall (fun a => tokens (snd a) = NaN) allocation ->
  compressLoop clusters allocation = Ok [].
Proof.
  induction 1 as [|[name a] rest H _ IH]; [reflexivity|].
  cbn [compressLoop]. cbn [snd] in H. rewrite H. exact IH.
Qed.

Lemma compressSteps_nan (intelligenceContext : value) (messageType : jstring)
    (complexity usedModel qualityTarget history forced : value) (r : compression) :
  calculateOptimalTokenBudget usedModel messageType complexity history = Ok NaN ->
  compressSteps intelligenceContext messageType complexity usedModel
                qualityTarget history forced = Ok r ->
  compressedPrompt r = [].
Proof.
  intros B. unfold compressSteps. rewrite B. cbn [bind].
  destruct (clusterIntelligenceData _ _ _) as [clustered|]; [|discriminate].
  cbn [bind]. unfold performPredictiveCompression.
  destruct (calculateClusterPriorities _ _) as [priorities|]; [|discriminate].
  cbn [bind]. rewrite (compressLoop_nan clustered (allocate_nan priorities)).
  cbn [bind]. unfold optimizeCompressionQuality.
  destruct (toNumber qualityTarget); [|discriminate]. cbn [bind].
  change (generateOptimizedPrompt [] ?s)
    with (behav <- (if negb (isString s "minimal") then Ok [] else Ok []) ;;
          cog <- (if negb (isString s "minimal") then Ok [] else Ok []) ;;
          pred <- (if isString s "comprehensive" then Ok [] else Ok []) ;;
          Ok (join (js " ") ([] ++ [] ++ [] ++ behav ++ cog ++ pred))).
  destruct (negb (isString _ "minimal")), (isString _ "comprehensive"); cbn [bind];
    (destruct (calculateCompressionMetrics _); [|discriminate]);
    cbn [bind]; intros E; inversion E; reflexivity.
Qed.

End NanBudget.

(** X30: A budget that is not a number silences the compressor.  When
    [calculateOptimalTokenBudget] gives [NaN], as it does for a complexity
    that is no number, no cluster gets tokens, and [compressForLLM] returns
    the empty prompt, unless it ends in the fallback. *)
Theorem compressForLLM_nan_budget
    (intelligenceContext : value) (messageType : jstring) (complexity : value)
    (opts : Compressor.options) :
  Compressor.calculateOptimalTokenBudget
    (Compressor.orDefault (Compressor.model opts) (Compressor.str "gpt-4o"))
    messageType
    (Compressor.orDefault complexity (VNum 5 0))
    (Compressor.orDefault (Compressor.conversationHistory opts) (VArr []))
  = Ok NaN ->
  Compressor.compressedPrompt
    (Compressor.compressForLLM intelligenceContext messageType complexity opts) = [] \/
  Compressor.compressForLLM intelligenceContext messageType complexity opts
  = Compressor.getFallbackCompression messageType.
Proof.
  intros B.
  destruct (CompressorFacts.compressForLLM_cases
              intelligenceContext messageType complexity opts) as [E | E].
  - now right.
  - left. eapply NanBudget.compressSteps_nan; [exact B | exact E].
Qed.

Lemma compressForLLM_nan_budget_witness :
  Compressor.calculateOptimalTokenBudget
    (Compressor.str "gpt-4o") (js "question") (VStr (js "high")) (VArr [])
  = Ok NaN /\
  Compressor.compressedPrompt
    (Compressor.compressForLLM
       (VObj [(js "micro", VObj [(js "currentState",
                                  VObj [(js "primaryEmotion", VStr (js "sad"))])])])
       (js "question") (VStr (js "high")) Compressor.noOptions) = [].
Proof.
  assert (B : Compressor.calculateOptimalTokenBudget
                (Compressor.str "gpt-4o") (js "question") (VStr (js "high")) (VArr [])
              = Ok NaN) by (vm_compute; reflexivity).
  split; [exact B|].
  destruct (@compressForLLM_nan_budget
              (VObj [(js "micro", VObj [(js "currentState",
                                         VObj [(js "primaryEmotion", VStr (js "sad"))])])])
              (js "question") (VStr (js "high")) Compressor.noOptions B) as [E | E].
  - exact E.
  - vm_compute in E. discriminate.
Defined.
